(** * Training-loop orchestration of [TTS/bin/train_glow_tts.py]

    A shallow embedding of the control flow of the Glow-TTS training
    script.  Collaborators (model, optimizer, loggers, file system, ...)
    are calls of a small free monad: a program is a finite tree of calls,
    each call may return or raise, and a run against an arbitrary handler
    records the trace of calls with their outcomes.  Theorems quantify
    over every handler, i.e. over every behaviour of the collaborators. *)

From Stdlib Require Import String Ascii ZArith QArith Bool Lia Decimal DecimalString DecimalPos List.
Import ListNotations.
Local Open Scope string_scope.
Local Open Scope Z_scope.
Local Open Scope list_scope.

Set Implicit Arguments.

(** ** Python values *)

(** Exceptions, with the part of the class hierarchy the script depends
    on: [KeyboardInterrupt], [SystemExit] and [GeneratorExit] derive from
    [BaseException] only; every other class derives from [Exception]. *)
Inductive exn : Type :=
| KeyboardInterrupt
| SystemExit (code : Z)
| GeneratorExit
| Exception (cls : string).

(** [isinstance(e, Exception)]. *)
Definition is_Exception (e : exn) : bool :=
  match e with
  | Exception _ => true
  | _ => false
  end.

Inductive result (A : Type) : Type :=
| Ok (a : A)
| Err (e : exn).
Arguments Ok {A} a.
Arguments Err {A} e.

Definition is_ok {A} (r : result A) : bool :=
  match r with Ok _ => true | Err _ => false end.

(** Python floats, as far as the script looks at them. *)
Inductive pyfloat : Type :=
| Fin (q : Q)
| PInf
| NInf
| NaN.

(** [float("inf")]. *)
Definition float_inf : pyfloat := PInf.

(** [a - b] on floats. *)
Definition float_sub (a b : pyfloat) : pyfloat :=
  match a, b with
  | NaN, _ | _, NaN => NaN
  | Fin x, Fin y => Fin (x - y)
  | Fin _, PInf => NInf
  | Fin _, NInf => PInf
  | PInf, PInf => NaN
  | PInf, _ => PInf
  | NInf, NInf => NaN
  | NInf, _ => NInf
  end.

(** [a + b] on floats. *)
Definition float_add (a b : pyfloat) : pyfloat :=
  match a, b with
  | NaN, _ | _, NaN => NaN
  | Fin x, Fin y => Fin (x + y)
  | Fin _, PInf => PInf
  | Fin _, NInf => NInf
  | PInf, NInf => NaN
  | PInf, _ => PInf
  | NInf, PInf => NaN
  | NInf, _ => NInf
  end.

(** [str(n)] and ["{}".format(n)] / ["{:d}"] for an int. *)
Definition str_of_Z (n : Z) : string :=
  match n with
  | Z0 => "0"
  | Zpos p => NilEmpty.string_of_uint (Pos.to_uint p)
  | Zneg p => String.append "-" (NilEmpty.string_of_uint (Pos.to_uint p))
  end.

(** Python truthiness of an optional string ([None] and the empty string are falsy). *)
Definition truthy_str (s : option string) : bool :=
  match s with
  | None => false
  | Some EmptyString => false
  | Some _ => true
  end.

(** ** Tensors

    A tensor is its shape, its elements in row-major order and the device
    it lives on. *)
Record tensor : Type := mkTensor {
  shape : list nat;
  values : list pyfloat;
  on_cuda : bool
}.

(** Size of the leading (batch) dimension. *)
Definition batch_dim (t : tensor) : nat := hd 0%nat (shape t).

(** [t.cuda(non_blocking=True)]. *)
Definition cuda (t : tensor) : tensor :=
  mkTensor (shape t) (values t) true.

(** [t.float()]: the element type is not tracked. *)
Definition to_float (t : tensor) : tensor := t.

Definition float_sum (l : list pyfloat) : pyfloat :=
  fold_left float_add l (Fin 0).

Definition float_div_nat (a : pyfloat) (n : nat) : pyfloat :=
  match n, a with
  | O, _ => NaN
  | _, Fin x => Fin (x / inject_Z (Z.of_nat n))
  | _, other => other
  end.

(** [torch.mean(t)]: [nan] on an empty tensor.  The mean is the exact
    one: the rounding to single precision is not tracked. *)
Definition torch_mean (t : tensor) : pyfloat :=
  float_div_nat (float_sum (values t)) (length (values t)).

Definition prod_dims (ds : list nat) : nat := fold_right Nat.mul 1%nat ds.

(** Row-major position of a multi-index, and back. *)
Fixpoint ravel (ds idx : list nat) : nat :=
  match ds, idx with
  | _ :: ds', i :: idx' => (i * prod_dims ds' + ravel ds' idx')%nat
  | _, _ => 0%nat
  end.

Fixpoint unravel (ds : list nat) (k : nat) : list nat :=
  match ds with
  | [] => []
  | d :: ds' => ((k / prod_dims ds') mod d)%nat :: unravel ds' k
  end.

Fixpoint index_of (j : nat) (perm : list nat) : nat :=
  match perm with
  | [] => 0%nat
  | p :: perm' => if Nat.eqb p j then 0%nat else S (index_of j perm')
  end.

(** Axis permutation: axis [i] of the result is axis [perm[i]] of [x]. *)
Definition permute_axes (perm : list nat) (x : tensor) : tensor :=
  let ds := shape x in
  let ds' := map (fun a => nth a ds 0%nat) perm in
  let source (k : nat) :=
    let idx' := unravel ds' k in
    ravel ds (map (fun a => nth (index_of a perm) idx' 0%nat) (seq 0 (length ds))) in
  mkTensor ds' (map (fun k => nth (source k) (values x) NaN) (seq 0 (prod_dims ds')))
           (on_cuda x).

(** [t.permute(0, 2, 1)]: only defined on a 3-dimensional tensor. *)
Definition permute_0_2_1 (x : tensor) : result tensor :=
  match shape x with
  | [_; _; _] => Ok (permute_axes [0; 2; 1]%nat x)
  | _ => Err (Exception "RuntimeError")
  end.

(** [a.T] on an array: the axes reversed. *)
Definition numpy_T (x : tensor) : tensor :=
  permute_axes (rev (seq 0 (length (shape x)))) x.

(** [t.data.cpu().numpy()]: the same elements, on the host. *)
Definition to_numpy (x : tensor) : tensor :=
  mkTensor (shape x) (values x) false.

(** [t[:1]]: the first slice along the leading dimension; a 0-dimensional
    tensor cannot be sliced. *)
Definition slice_first (x : tensor) : result tensor :=
  match shape x with
  | [] => Err (Exception "IndexError")
  | b :: rest =>
      let n := prod_dims rest in
      Ok (mkTensor (Nat.min b 1 :: rest) (firstn (Nat.min b 1 * n) (values x)) (on_cuda x))
  end.

(** [t[0]]: the first element along the leading dimension. *)
Definition index_first (x : tensor) : result tensor :=
  match shape x with
  | [] => Err (Exception "IndexError")
  | O :: _ => Err (Exception "IndexError")
  | S _ :: rest =>
      Ok (mkTensor rest (firstn (prod_dims rest) (values x)) (on_cuda x))
  end.

(** [t.item()]: the single element of a one-element tensor. *)
Definition item (x : tensor) : result pyfloat :=
  match values x with
  | [v] => Ok v
  | _ => Err (Exception "ValueError")
  end.

(** [torch.LongTensor(l)] on a list of ints: a 1-dimensional tensor. *)
Definition LongTensor (l : list Z) : tensor :=
  mkTensor [length l] (map (fun z => Fin (inject_Z z)) l) false.

(** ** Dictionaries

    A Python [dict] keeps insertion order; it is an association list with
    distinct keys, written only through [dict_set]. *)
Definition dict (V : Type) : Type := list (string * V).

Fixpoint dict_get {V} (d : dict V) (k : string) : option V :=
  match d with
  | [] => None
  | (k', v) :: d' => if String.eqb k' k then Some v else dict_get d' k
  end.

(** [d[k]]: [KeyError] on a missing key. *)
Definition dict_getitem {V} (d : dict V) (k : string) : result V :=
  match dict_get d k with
  | Some v => Ok v
  | None => Err (Exception "KeyError")
  end.

(** [d[k] = v]: overwrite in place, or append. *)
Fixpoint dict_set {V} (d : dict V) (k : string) (v : V) : dict V :=
  match d with
  | [] => [(k, v)]
  | (k', v') :: d' =>
      if String.eqb k' k then (k', v) :: d' else (k', v') :: dict_set d' k v
  end.

(** [list(d.keys())]. *)
Definition dict_keys {V} (d : dict V) : list string := map fst d.

(** [d.update(e)]. *)
Definition dict_update {V} (d e : dict V) : dict V :=
  fold_left (fun acc kv => dict_set acc (fst kv) (snd kv)) e d.

(** ** Module-level state of the script *)

(** An entry of the speaker mapping: an integer id (embedding-layer mode)
    or a record holding a precomputed embedding (external-file mode). *)
Inductive speaker_entry : Type :=
| SpeakerId (id : Z)
| SpeakerRecord (fields : dict (list pyfloat)).

(** The fields of [config] that the orchestration reads. *)
Record Config : Type := mkConfig {
  run_eval : bool;
  use_speaker_embedding : bool;
  use_external_speaker_embedding_file : bool;
  use_phonemes : bool;
  compute_input_seq_cache : bool;
  has_characters : bool;
  batch_size : Z;
  eval_batch_size : Z;
  batch_group_size : Z;
  num_loader_workers : Z;
  num_val_loader_workers : Z;
  data_dep_init_steps : Z;
  mixed_precision : bool;
  grad_clip : pyfloat;
  noam_schedule : bool;
  warmup_steps : Z;
  lr : pyfloat;
  print_step : Z;
  tb_plot_step : Z;
  save_step : Z;
  checkpoint : bool;
  tb_model_param_stats : bool;
  print_eval : bool;
  test_delay_epochs : Z;
  test_sentences_file : option string;
  style_wav_for_test : option string;
  enable_eos_bos_chars : bool;
  sample_rate : Z;
  keep_all_best : bool;
  keep_after : Z;
  epochs : Z;
  config_r : Z
}.

(** [args], after [init_training]. *)
Record Args : Type := mkArgs {
  rank : Z;
  group_id : string;
  restore_path : option string;
  best_path : option string;
  restore_step : Z
}.

(** The module globals read by the loop functions: [use_cuda] and
    [num_gpus] come from [setup_torch_training_env]; [config], [OUT_PATH]
    and [AUDIO_PATH] from [init_training]; [speaker_mapping] is assigned
    by [main]. *)
Record Globals : Type := mkGlobals {
  use_cuda : bool;
  num_gpus : Z;
  config : Config;
  args : Args;
  OUT_PATH : string;
  AUDIO_PATH : string;
  speaker_mapping : option (dict speaker_entry)
}.

(** ** Batches *)

(** A raw batch, as collated by the dataset: the fields of the tuple that
    the script indexes ([data[0]], [data[1]], [data[2]], [data[4]],
    [data[5]], [data[7]], [data[8]], [data[9]]). *)
Record raw_batch : Type := mkBatch {
  data_0 : tensor;           (* text_input *)
  data_1 : tensor;           (* text_lengths *)
  data_2 : list string;      (* speaker_names *)
  data_4 : tensor;           (* mel_input, B x T x D *)
  data_5 : tensor;           (* mel_lengths *)
  data_7 : list string;      (* item_idx *)
  data_8 : option tensor;    (* speaker embeddings *)
  data_9 : option tensor     (* attn_mask *)
}.

(** The 9-tuple returned by [format_data]. *)
Record formatted : Type := mkFormatted {
  f_text_input : tensor;
  f_text_lengths : tensor;
  f_mel_input : tensor;
  f_mel_lengths : tensor;
  f_speaker_c : option tensor;
  f_avg_text_length : pyfloat;
  f_avg_spec_length : pyfloat;
  f_attn_mask : option tensor;
  f_item_idx : list string
}.

(** Monadic glue for [result]. *)
Definition rbind {A B} (r : result A) (k : A -> result B) : result B :=
  match r with
  | Ok a => k a
  | Err e => Err e
  end.

(** [[speaker_mapping[name] for name in names]]. *)
Fixpoint lookup_speakers (m : option (dict speaker_entry)) (names : list string)
  : result (list speaker_entry) :=
  match names with
  | [] => Ok []
  | n :: rest =>
      match m with
      | None => Err (Exception "TypeError")
      | Some d =>
          rbind (dict_getitem d n) (fun e =>
          rbind (lookup_speakers m rest) (fun es => Ok (e :: es)))
      end
  end.

(** The values a 64-bit integer tensor holds. *)
Definition int64 (i : Z) : bool := (- 2 ^ 63 <=? i) && (i <? 2 ^ 63).

(** The argument check of [torch.LongTensor]: every element is an int,
    and fits in 64 bits. *)
Fixpoint as_ints (l : list speaker_entry) : result (list Z) :=
  match l with
  | [] => Ok []
  | SpeakerId i :: rest =>
      if int64 i then rbind (as_ints rest) (fun ids => Ok (i :: ids))
      else Err (Exception "RuntimeError")
  | SpeakerRecord _ :: _ => Err (Exception "TypeError")
  end.

Definition cuda_if (b : bool) (t : tensor) : tensor :=
  if b then cuda t else t.

Definition format_data (G : Globals) (data : raw_batch) : result formatted :=
  let text_input := data_0 data in
  let text_lengths := data_1 data in
  let speaker_names := data_2 data in
  rbind (permute_0_2_1 (data_4 data)) (fun mel_input =>
  let mel_lengths := data_5 data in
  let item_idx := data_7 data in
  let attn_mask := data_9 data in
  let avg_text_length := torch_mean (to_float text_lengths) in
  let avg_spec_length := torch_mean (to_float mel_lengths) in
  rbind
    (if use_speaker_embedding (config G) then
       if use_external_speaker_embedding_file (config G) then
         Ok (data_8 data)
       else
         rbind (lookup_speakers (speaker_mapping G) speaker_names) (fun speaker_c =>
         rbind (as_ints speaker_c) (fun ids => Ok (Some (LongTensor ids))))
     else Ok None)
    (fun speaker_c =>
  let c := use_cuda G in
  Ok (mkFormatted
        (cuda_if c text_input)
        (cuda_if c text_lengths)
        (cuda_if c mel_input)
        (cuda_if c mel_lengths)
        (option_map (cuda_if c) speaker_c)
        avg_text_length
        avg_spec_length
        (option_map (cuda_if c) attn_mask)
        item_idx))).

(** ** Collaborator objects *)

(** A decoder flow layer; [getattr(f, "set_ddi", False)] is truthy exactly
    when the layer has the method. *)
Record flow : Type := mkFlow {
  flow_id : nat;
  has_set_ddi : bool
}.

Record base_model : Type := mkModel {
  model_id : nat;
  decoder_flows : list flow
}.

(** The model as the loops hold it: directly, or behind the distributed
    wrapper, which exposes the network as [model.module]. *)
Inductive model : Type :=
| Plain (m : base_model)
| Wrapped (m : base_model).

(** [hasattr(model, "module")]. *)
Definition hasattr_module (m : model) : bool :=
  match m with
  | Plain _ => false
  | Wrapped _ => true
  end.

(** The seven outputs of [model.forward]. *)
Record forward_out : Type := mkForward {
  o_z : tensor;
  o_logdet : tensor;
  o_y_mean : tensor;
  o_y_log_scale : tensor;
  o_alignments : tensor;
  o_dur_log : tensor;
  o_total_dur : tensor
}.

(** The first six values unpacked from [synthesis]'s return (the ignored
    ones are left out). *)
Record synthesis_out : Type := mkSynthesis {
  s_wav : list pyfloat;
  s_alignment : tensor;
  s_postnet_output : tensor
}.

Inductive sampler : Type :=
| DistributedSampler (dataset_id : nat).

Record data_loader : Type := mkLoader {
  loader_dataset : nat;
  loader_dataset_len : Z;
  loader_batch_size : Z;
  loader_sampler : option sampler;
  loader_num_workers : Z
}.

Record checkpoint_file : Type := mkCheckpoint {
  ck_model : nat;
  ck_optimizer : nat;
  ck_step : Z;
  ck_model_loss : pyfloat
}.

(** A value of the loss dictionary: a tensor, or a plain number. *)
Inductive lval : Type :=
| LTensor (t : tensor)
| LFloat (f : pyfloat).

(** A piece of a printed line: literal text, an int, a float. *)
Inductive fragment : Type :=
| Str (s : string)
| Int (z : Z)
| Flt (f : pyfloat).

(** ** Calls to collaborators

    One constructor per external operation the script performs. *)
Inductive call : Type :=
(* model and optimisation *)
| SetDdi (f : flow) (b : bool)
| ModelTrain (m : model)
| ModelEval (m : model)
| Forward (m : model) (text_input text_lengths mel_input mel_lengths : tensor)
          (attn_mask g : option tensor)
| Inference (m : base_model) (text_input text_lengths : tensor) (g : option tensor)
| Criterion (o : forward_out) (mel_lengths text_lengths : tensor)
| GradScalerNew
| ZeroGrad
| ScalerScale (loss : tensor)
| Backward (loss : tensor)
| ScalerUnscale
| ClipGradNorm (m : model) (max_norm : pyfloat)
| ScalerStep
| ScalerUpdate
| OptimizerStep
| SchedulerStep
| CurrentLr
| AlignmentDiagonalScore (alignments : tensor) (binary : bool)
| ReduceTensor (t : tensor) (n : Z)
| CudaSynchronize
(* bookkeeping *)
| TimeTime
| KeepAverageNew
| KeepAvgUpdate (d : dict pyfloat)
| KeepAvgValues
| CLogger (method : string)
| TbLogger (method : string) (global_step : Z)
| Print (line : list fragment)
| TracebackPrintExc
(* persistence and rendering *)
| SaveCheckpoint (m : model) (global_step epoch : Z) (model_loss : pyfloat)
| SaveBestModel (target_loss best_loss : pyfloat) (m : model) (global_step epoch : Z)
| PlotSpectrogram (spec : tensor)
| PlotAlignment (alignment : tensor)
| InvMelspectrogram (spec : tensor)
| ReadLines (path : string)
| RandomBelow (n : Z)
| Synthesis (m : model) (sentence : string) (speaker_id : option Z)
            (speaker_embedding : option (list pyfloat)) (style_wav : option string)
| OsMakedirs (path : string)
| SaveWav (wav : list pyfloat) (path : string)
(* construction, in [setup_loader] and [main] *)
| MyDataset (is_val : bool) (batch_group : Z) (with_speaker_mapping : bool)
| ComputeInputSeq (dataset : nat) (workers : Z)
| SortItems (dataset : nat)
| DistributedSamplerNew (dataset : nat)
| DataLoaderNew (dataset : nat) (batch : Z) (s : option sampler) (workers : Z)
| IterLoader (l : data_loader)
| NoGradEnter
| NoGradExit
| AutocastEnter (enabled : bool)
| AutocastExit
| AudioProcessorNew
| MakeSymbols
| InitDistributed (rank n : Z) (group : string)
| LoadMetaData
| ParseSpeakers
| SetupModel (num_speakers speaker_embedding_dim : Z)
| RAdamNew (m : base_model) (lr : pyfloat)
| GlowTTSLossNew
| TorchLoad (path : string)
| OptimizerLoadStateDict (state : nat)
| ModelLoadStateDict (state : nat)
| ModelStateDict
| SetInitDict (model_dict checkpoint_state : nat)
| SetInitialLr (lr : pyfloat)
| ModelCuda
| CriterionCuda
| DDPNew (m : base_model) (rank : Z)
| NoamLRNew (warmup last_epoch : Z)
| CountParameters (m : model)
| RemoveExperimentFolder (path : string).

(** What each call returns when it does not raise. *)
Definition ret (c : call) : Type :=
  match c with
  | Forward _ _ _ _ _ _ _ => forward_out
  | Inference _ _ _ _ => tensor
  | Criterion _ _ _ => dict lval
  | ScalerScale _ => tensor
  | ClipGradNorm _ _ => pyfloat
  | CurrentLr => pyfloat
  | AlignmentDiagonalScore _ _ => pyfloat
  | ReduceTensor _ _ => tensor
  | TimeTime => pyfloat
  | KeepAvgValues => dict pyfloat
  | SaveBestModel _ _ _ _ _ => pyfloat
  | InvMelspectrogram _ => list pyfloat
  | ReadLines _ => list string
  | RandomBelow _ => Z
  | Synthesis _ _ _ _ _ => synthesis_out
  | MyDataset _ _ _ => (nat * Z)%type
  | IterLoader _ => list raw_batch
  | ParseSpeakers => (Z * Z * option (dict speaker_entry))%type
  | SetupModel _ _ => base_model
  | TorchLoad _ => checkpoint_file
  | ModelStateDict => nat
  | SetInitDict _ _ => nat
  | CountParameters _ => Z
  | _ => unit
  end.

(** ** Programs *)

Inductive prog (A : Type) : Type :=
| Ret (a : A)
| Raise (e : exn)
| Call (c : call) (k : result (ret c) -> prog A).
Arguments Ret {A} a.
Arguments Raise {A} e.
Arguments Call {A} c k.

Fixpoint bind {A B} (p : prog A) (f : A -> prog B) : prog B :=
  match p with
  | Ret a => f a
  | Raise e => Raise e
  | Call c k => Call c (fun r => bind (k r) f)
  end.

(** A call whose exception, if any, propagates. *)
Definition call_ (c : call) : prog (ret c) :=
  Call c (fun r => match r with Ok x => Ret x | Err e => Raise e end).

(** A pure computation that may raise. *)
Definition lift {A} (r : result A) : prog A :=
  match r with Ok a => Ret a | Err e => Raise e end.

(** [try: p  except <classes matched by handler>: handler e]. *)
Fixpoint try_except {A} (p : prog A) (handler : exn -> prog A) : prog A :=
  match p with
  | Ret a => Ret a
  | Raise e => handler e
  | Call c k => Call c (fun r => try_except (k r) handler)
  end.

Declare Scope prog_scope.
Delimit Scope prog_scope with prog.
Notation "x <- p ;; q" := (bind p (fun x => q))
  (at level 61, p at next level, right associativity) : prog_scope.
Notation "p ;; q" := (bind p (fun _ => q))
  (at level 61, right associativity) : prog_scope.
Notation "'when' b 'then' p" := (if b then p else Ret tt)
  (at level 60, b at level 9, p at level 60) : prog_scope.
Local Open Scope prog_scope.

(** [for x in l: body x], threading the loop-carried variables [s]. *)
Fixpoint for_each {X S} (l : list X) (body : X -> S -> prog S) (s : S) : prog S :=
  match l with
  | [] => Ret s
  | x :: rest => s' <- body x s ;; for_each rest body s'
  end.

(** [enumerate(l)]. *)
Definition enumerate {X} (l : list X) : list (Z * X) :=
  combine (map Z.of_nat (seq 0 (length l))) l.

(** ** Running a program *)

(** One entry of a trace: the call and how it ended. *)
Inductive event : Type :=
| Ev (c : call) (r : result (ret c)).

Definition ev_call (e : event) : call :=
  match e with Ev c _ => c end.

Definition ev_ok (e : event) : bool :=
  match e with Ev _ r => is_ok r end.

Definition trace : Type := list event.

Section Run.
  Variable W : Type.

  (** The collaborators: any state, any answer to any call. *)
Definition handler : Type := forall c : call, W -> W * result (ret c).

  Variable h : handler.

Fixpoint run {A} (p : prog A) (w : W) : W * trace * result A :=
    match p with
    | Ret a => (w, [], Ok a)
    | Raise e => (w, [], Err e)
    | Call c k =>
        let '(w1, r) := h c w in
        let '(w2, t, out) := run (k r) w1 in
        (w2, Ev c r :: t, out)
    end.

Definition trace_of {A} (p : prog A) (w : W) : trace := snd (fst (run p w)).
Definition outcome {A} (p : prog A) (w : W) : result A := snd (run p w).
Definition world_after {A} (p : prog A) (w : W) : W := fst (fst (run p w)).

End Run.

(** ** Small pieces of Python and of the standard library *)

(** [a % b] on ints. *)
Definition py_mod (a b : Z) : result Z :=
  if b =? 0 then Err (Exception "ZeroDivisionError") else Ok (a mod b).

(** [int(a / b)] on ints: true division, truncated towards zero (the
    rounding of the intermediate float is not modelled). *)
Definition int_truediv (a b : Z) : result Z :=
  if b =? 0 then Err (Exception "ZeroDivisionError") else Ok (Z.quot a b).

(** [x.attr] where [x] may be [None]. *)
Definition require {A} (x : option A) : result A :=
  match x with
  | Some a => Ok a
  | None => Err (Exception "AttributeError")
  end.

(** [model.module]: only the distributed wrapper has it. *)
Definition module_of (m : model) : result base_model :=
  match m with
  | Wrapped b => Ok b
  | Plain _ => Err (Exception "AttributeError")
  end.

(** Attribute access on the network itself ([model.decoder],
    [model.inference]): the wrapper does not forward it. *)
Definition network_of (m : model) : result base_model :=
  match m with
  | Plain b => Ok b
  | Wrapped _ => Err (Exception "AttributeError")
  end.

Definition as_tensor (v : lval) : result tensor :=
  match v with
  | LTensor t => Ok t
  | LFloat _ => Err (Exception "AttributeError")
  end.

(** [random.randrange(n)]: rejects an empty range, otherwise a value
    below [n] drawn from the generator. *)
Definition randrange (n : Z) : prog Z :=
  if n <=? 0 then Raise (Exception "ValueError")
  else r <- call_ (RandomBelow n) ;; Ret (r mod n).

(** [l[i]] on a list. *)
Definition list_getitem {A} (l : list A) (i : Z) : result A :=
  let j := if i <? 0 then i + Z.of_nat (length l) else i in
  if j <? 0 then Err (Exception "IndexError")
  else match nth_error l (Z.to_nat j) with
       | Some a => Ok a
       | None => Err (Exception "IndexError")
       end.

(** [s.endswith("/")]. *)
Fixpoint ends_with_slash (s : string) : bool :=
  match s with
  | EmptyString => false
  | String c EmptyString => Ascii.eqb c "/"
  | String _ s' => ends_with_slash s'
  end.

Definition starts_with_slash (s : string) : bool :=
  match s with
  | String c _ => Ascii.eqb c "/"
  | EmptyString => false
  end.

(** [os.path.join(a, b)] (POSIX). *)
Definition os_path_join (a b : string) : string :=
  if starts_with_slash b then b
  else if (String.eqb a EmptyString || ends_with_slash a)%bool then String.append a b
  else String.append a (String.append "/" b).

Fixpoint basename_aux (s acc : string) : string :=
  match s with
  | EmptyString => acc
  | String c s' =>
      if Ascii.eqb c "/" then basename_aux s' EmptyString
      else basename_aux s' (String.append acc (String c EmptyString))
  end.

(** [os.path.basename(p)]: what follows the last slash. *)
Definition basename (p : string) : string := basename_aux p EmptyString.

(** Whitespace, as [str.strip] sees it.  A string holds the UTF-8 bytes
    of a text; the whitespace characters are U+0009 to U+000D, U+001C to
    U+0020, U+0085, U+00A0, U+1680, U+2000 to U+200A, U+2028, U+2029,
    U+202F, U+205F and U+3000. *)
Definition is_space (c : ascii) : bool :=
  let n := nat_of_ascii c in
  ((9 <=? n) && (n <=? 13) || (28 <=? n) && (n <=? 32))%nat%bool.

(** The number of bytes of the whitespace character that [s] starts
    with; 0 when it starts with none. *)
Definition space_width (s : list ascii) : nat :=
  match s with
  | [] => 0%nat
  | c :: rest =>
      if is_space c then 1%nat
      else
        match map nat_of_ascii (firstn 2 rest) with
        | [d] =>
            if ((nat_of_ascii c =? 194) && ((d =? 133) || (d =? 160)))%nat%bool
            then 2%nat else 0%nat
        | [d; e] =>
            let n := nat_of_ascii c in
            if ((n =? 194) && ((d =? 133) || (d =? 160)))%nat%bool then 2%nat
            else if ((n =? 225) && (d =? 154) && (e =? 128))%nat%bool then 3%nat
            else if ((n =? 226) && (d =? 128)
                     && ((128 <=? e) && (e <=? 138) || (e =? 168) || (e =? 169)
                         || (e =? 175)))%nat%bool then 3%nat
            else if ((n =? 226) && (d =? 129) && (e =? 159))%nat%bool then 3%nat
            else if ((n =? 227) && (d =? 128) && (e =? 128))%nat%bool then 3%nat
            else 0%nat
        | _ => 0%nat
        end
  end.

(** The same at the end of a text, on its bytes in reverse order. *)
Definition space_width_rev (s : list ascii) : nat :=
  match s with
  | [] => 0%nat
  | c :: rest =>
      if is_space c then 1%nat
      else
        match map nat_of_ascii (firstn 2 rest) with
        | [d] =>
            if ((d =? 194) && ((nat_of_ascii c =? 133) || (nat_of_ascii c =? 160)))%nat%bool
            then 2%nat else 0%nat
        | [d; e] =>
            let n := nat_of_ascii c in
            if ((d =? 194) && ((n =? 133) || (n =? 160)))%nat%bool then 2%nat
            else if ((e =? 225) && (d =? 154) && (n =? 128))%nat%bool then 3%nat
            else if ((e =? 226) && (d =? 128)
                     && ((128 <=? n) && (n <=? 138) || (n =? 168) || (n =? 169)
                         || (n =? 175)))%nat%bool then 3%nat
            else if ((e =? 226) && (d =? 129) && (n =? 159))%nat%bool then 3%nat
            else if ((e =? 227) && (d =? 128) && (n =? 128))%nat%bool then 3%nat
            else 0%nat
        | _ => 0%nat
        end
  end.

(** Drops the whitespace characters that [s] starts with, as [width]
    measures them; [fuel] bounds the number of characters dropped. *)
Fixpoint drop_spaces (width : list ascii -> nat) (fuel : nat) (s : list ascii)
  : list ascii :=
  match fuel with
  | O => s
  | S fuel' =>
      match width s with
      | O => s
      | n => drop_spaces width fuel' (skipn n s)
      end
  end.

Definition lstrip (s : list ascii) : list ascii :=
  drop_spaces space_width (length s) s.

Definition rstrip (s : list ascii) : list ascii :=
  rev (drop_spaces space_width_rev (length s) (rev s)).

(** [s.strip()]. *)
Definition strip (s : string) : string :=
  string_of_list_ascii (rstrip (lstrip (list_ascii_of_string s))).

(** [try: p  finally: fin]. *)
Fixpoint ensure {A} (p : prog A) (fin : prog unit) : prog A :=
  match p with
  | Ret a => fin ;; Ret a
  | Raise e => fin ;; Raise e
  | Call c k => Call c (fun r => ensure (k r) fin)
  end.

(** [with torch.no_grad(): body]. *)
Definition with_no_grad {A} (body : prog A) : prog A :=
  call_ NoGradEnter ;; ensure body (call_ NoGradExit).

(** [with torch.cuda.amp.autocast(enabled=b): body]. *)
Definition with_autocast {A} (b : bool) (body : prog A) : prog A :=
  call_ (AutocastEnter b) ;; ensure body (call_ AutocastExit).

(** [for _, data in enumerate(data_loader)]: the batches of one pass. *)
Definition batches_of (l : option data_loader) : prog (list raw_batch) :=
  match l with
  | Some d => call_ (IterLoader d)
  | None => Raise (Exception "TypeError")
  end.

(** ** [setup_loader]

    The arguments [ap], [r] and [verbose] are only handed on to the
    dataset and are left out. *)
Definition setup_loader (G : Globals) (is_val : bool) : prog (option data_loader) :=
  let cfg := config G in
  if (is_val && negb (run_eval cfg))%bool then Ret None
  else
    ds <- call_ (MyDataset is_val
                   (if is_val then 0 else batch_group_size cfg * batch_size cfg)
                   (use_speaker_embedding cfg && use_external_speaker_embedding_file cfg)) ;;
    let '(dataset, len) := ds in
    (when (use_phonemes cfg && compute_input_seq_cache cfg)
     then call_ (ComputeInputSeq dataset (num_loader_workers cfg))) ;;
    call_ (SortItems dataset) ;;
    sampler <- (if num_gpus G >? 1
                then call_ (DistributedSamplerNew dataset) ;;
                     Ret (Some (DistributedSampler dataset))
                else Ret None) ;;
    let bs := if is_val then eval_batch_size cfg else batch_size cfg in
    let workers := if is_val then num_val_loader_workers cfg else num_loader_workers cfg in
    call_ (DataLoaderNew dataset bs sampler workers) ;;
    Ret (Some (mkLoader dataset len bs sampler workers)).

(** ** [data_depended_init] *)

(** [for f in flows: if getattr(f, "set_ddi", False): f.set_ddi(b)]. *)
Definition set_ddi_flows (flows : list flow) (b : bool) : prog unit :=
  for_each flows
    (fun f _ => when (has_set_ddi f) then call_ (SetDdi f b)) tt.

Definition set_ddi_model (m : model) (b : bool) : prog unit :=
  if hasattr_module m then
    net <- lift (module_of m) ;; set_ddi_flows (decoder_flows net) b
  else
    net <- lift (network_of m) ;; set_ddi_flows (decoder_flows net) b.

(** The warm-up loop, with its [break]. *)
Fixpoint ddi_loop (G : Globals) (m : model) (batches : list raw_batch) (num_iter : Z)
  : prog unit :=
  match batches with
  | [] => Ret tt
  | data :: rest =>
      d <- lift (format_data G data) ;;
      call_ (Forward m (f_text_input d) (f_text_lengths d) (f_mel_input d)
               (f_mel_lengths d) (f_attn_mask d) (f_speaker_c d)) ;;
      if num_iter =? data_dep_init_steps (config G) then Ret tt
      else ddi_loop G m rest (num_iter + 1)
  end.

Definition data_depended_init (G : Globals) (loader : option data_loader) (m : model)
  : prog model :=
  set_ddi_model m true ;;
  call_ (ModelTrain m) ;;
  call_ (Print [Str " > Data depended initialization ... "]) ;;
  with_no_grad (batches <- batches_of loader ;; ddi_loop G m batches 0) ;;
  set_ddi_model m false ;;
  Ret m.

(** ** Pieces shared by [train] and [evaluate] *)

(** [loss_dict[k] = reduce_tensor(loss_dict[k].data, num_gpus)]. *)
Definition reduce_entry (n : Z) (k : string) (loss_dict : dict lval) : prog (dict lval) :=
  t <- lift (rbind (dict_getitem loss_dict k) as_tensor) ;;
  t' <- call_ (ReduceTensor t n) ;;
  Ret (dict_set loss_dict k (LTensor t')).

(** The block under [# aggregate losses from processes]. *)
Definition aggregate_losses (G : Globals) (loss_dict : dict lval) : prog (dict lval) :=
  if num_gpus G >? 1 then
    d1 <- reduce_entry (num_gpus G) "log_mle" loss_dict ;;
    d2 <- reduce_entry (num_gpus G) "loss_dur" d1 ;;
    reduce_entry (num_gpus G) "loss" d2
  else Ret loss_dict.

(** The block under [# detach loss values]: fills [loss_dict_new] in
    the order of [loss_dict.items()]. *)
Fixpoint detach_into (loss_dict_new : dict pyfloat) (items : dict lval)
  : result (dict pyfloat) :=
  match items with
  | [] => Ok loss_dict_new
  | (key, value) :: rest =>
      rbind (match value with
             | LFloat f => Ok f
             | LTensor t => item t
             end) (fun v =>
      detach_into (dict_set loss_dict_new key v) rest)
  end.

Definition detach (loss_dict : dict lval) : result (dict pyfloat) :=
  detach_into [] loss_dict.

(** [update_train_values["avg_" + key] = value for key, value in ...]. *)
Definition avg_keys (loss_dict : dict pyfloat) : dict pyfloat :=
  fold_left (fun acc kv => dict_set acc (String.append "avg_" (fst kv)) (snd kv))
            loss_dict [].

(** The variables a diagnostic pass reads after (or inside) the loop. *)
Record step_vars : Type := mkStepVars {
  v_text_input : tensor;
  v_text_lengths : tensor;
  v_mel_input : tensor;
  v_speaker_c : option tensor;
  v_alignments : tensor
}.

(** [# direct pass on model for spec predictions] up to the three arrays
    [const_spec], [gt_spec] and [align_img]. *)
Definition direct_pass (m : model) (v : step_vars) : prog (tensor * tensor * tensor) :=
  target_speaker <- lift (match v_speaker_c v with
                          | None => Ok None
                          | Some c => rbind (slice_first c) (fun t => Ok (Some t))
                          end) ;;
  spec_pred <-
    (if hasattr_module m then
       net <- lift (module_of m) ;;
       ti <- lift (slice_first (v_text_input v)) ;;
       tl <- lift (slice_first (v_text_lengths v)) ;;
       call_ (Inference net ti tl target_speaker)
     else
       net <- lift (network_of m) ;;
       ti <- lift (slice_first (v_text_input v)) ;;
       tl <- lift (slice_first (v_text_lengths v)) ;;
       call_ (Inference net ti tl target_speaker)) ;;
  spec_pred <- lift (permute_0_2_1 spec_pred) ;;
  gt_spec <- lift (permute_0_2_1 (v_mel_input v)) ;;
  const_spec <- lift (index_first spec_pred) ;;
  gt_spec <- lift (index_first gt_spec) ;;
  align_img <- lift (index_first (v_alignments v)) ;;
  Ret (to_numpy const_spec, to_numpy gt_spec, to_numpy align_img).

(** ** [train]

    Dictionaries that are only handed to the loggers ([log_dict],
    [iter_stats], [figures], [epoch_stats]) are not tracked; a logger call
    is recorded with its method name (and the step it is keyed by). *)

(** Lines 207-221: backward pass, clipping, optimizer and scheduler. *)
Definition optimize (G : Globals) (m : model) (scaler scheduler : option unit)
                    (loss_dict : dict lval) : prog pyfloat :=
  let cfg := config G in
  grad_norm <-
    (if mixed_precision cfg then
       lift (require scaler) ;;
       loss <- lift (rbind (dict_getitem loss_dict "loss") as_tensor) ;;
       scaled <- call_ (ScalerScale loss) ;;
       call_ (Backward scaled) ;;
       call_ ScalerUnscale ;;
       grad_norm <- call_ (ClipGradNorm m (grad_clip cfg)) ;;
       call_ ScalerStep ;;
       call_ ScalerUpdate ;;
       Ret grad_norm
     else
       loss <- lift (rbind (dict_getitem loss_dict "loss") as_tensor) ;;
       call_ (Backward loss) ;;
       grad_norm <- call_ (ClipGradNorm m (grad_clip cfg)) ;;
       call_ OptimizerStep ;;
       Ret grad_norm) ;;
  (when (noam_schedule cfg) then (lift (require scheduler) ;; call_ SchedulerStep)) ;;
  Ret grad_norm.

(** Lines 267-317: what rank 0 does at the end of a step. *)
Definition train_rank0 (G : Globals) (m : model) (global_step epoch : Z)
                       (loss_dict : dict pyfloat) (v : step_vars) : prog unit :=
  let cfg := config G in
  when (rank (args G) =? 0) then (
    plot <- lift (py_mod global_step (tb_plot_step cfg)) ;;
    (when (plot =? 0) then call_ (TbLogger "tb_train_iter_stats" global_step)) ;;
    save <- lift (py_mod global_step (save_step cfg)) ;;
    when (save =? 0) then (
      (when (checkpoint cfg) then (
         loss <- lift (dict_getitem loss_dict "loss") ;;
         call_ (SaveCheckpoint m global_step epoch loss))) ;;
      call_ CudaSynchronize ;;
      specs <- direct_pass m v ;;
      let '(const_spec, gt_spec, align_img) := specs in
      call_ (PlotSpectrogram const_spec) ;;
      call_ (PlotSpectrogram gt_spec) ;;
      call_ (PlotAlignment align_img) ;;
      call_ (TbLogger "tb_train_figures" global_step) ;;
      call_ (InvMelspectrogram (numpy_T const_spec)) ;;
      call_ (TbLogger "tb_train_audios" global_step))).

(** The variables carried from one iteration of [train]'s loop to the
    next. *)
Record train_state : Type := mkTrainState {
  ts_global_step : Z;
  ts_epoch_time : pyfloat;
  ts_end_time : pyfloat
}.

(** The body of [train]'s loop. *)
Definition train_step (G : Globals) (m : model) (scaler scheduler : option unit)
                      (epoch : Z) (data : raw_batch) (s : train_state) : prog train_state :=
  let cfg := config G in
  start_time <- call_ TimeTime ;;
  d <- lift (format_data G data) ;;
  now <- call_ TimeTime ;;
  let loader_time := float_sub now (ts_end_time s) in
  let global_step := ts_global_step s + 1 in
  call_ ZeroGrad ;;
  fl <- with_autocast (mixed_precision cfg) (
          o <- call_ (Forward m (f_text_input d) (f_text_lengths d) (f_mel_input d)
                        (f_mel_lengths d) (f_attn_mask d) (f_speaker_c d)) ;;
          loss_dict <- call_ (Criterion o (f_mel_lengths d) (f_text_lengths d)) ;;
          (Ret (o, loss_dict) : prog (forward_out * dict lval))) ;;
  let '(o, loss_dict) := fl in
  optimize G m scaler scheduler loss_dict ;;
  call_ CurrentLr ;;
  score <- call_ (AlignmentDiagonalScore (o_alignments o) true) ;;
  let align_error := float_sub (Fin 1) score in
  let loss_dict := dict_set loss_dict "align_error" (LFloat align_error) in
  now <- call_ TimeTime ;;
  let step_time := float_sub now start_time in
  let epoch_time := float_add (ts_epoch_time s) step_time in
  loss_dict <- aggregate_losses G loss_dict ;;
  loss_dict <- lift (detach loss_dict) ;;
  let update_train_values :=
    dict_set (dict_set (avg_keys loss_dict) "avg_loader_time" loader_time)
             "avg_step_time" step_time in
  call_ (KeepAvgUpdate update_train_values) ;;
  pr <- lift (py_mod global_step (print_step cfg)) ;;
  (when (pr =? 0) then (call_ KeepAvgValues ;; call_ (CLogger "print_train_step"))) ;;
  train_rank0 G m global_step epoch loss_dict
    (mkStepVars (f_text_input d) (f_text_lengths d) (f_mel_input d) (f_speaker_c d)
                (o_alignments o)) ;;
  end_time <- call_ TimeTime ;;
  Ret (mkTrainState global_step epoch_time end_time).

Definition train (G : Globals) (loader : data_loader) (m : model)
                 (scheduler : option unit) (global_step epoch : Z)
  : prog (dict pyfloat * Z) :=
  let cfg := config G in
  call_ (ModelTrain m) ;;
  call_ KeepAverageNew ;;
  (if use_cuda G
   then lift (int_truediv (loader_dataset_len loader) (batch_size cfg * num_gpus G))
   else lift (int_truediv (loader_dataset_len loader) (batch_size cfg))) ;;
  end_time <- call_ TimeTime ;;
  call_ (CLogger "print_train_start") ;;
  scaler <- (if mixed_precision cfg then call_ GradScalerNew ;; Ret (Some tt)
             else Ret None) ;;
  batches <- call_ (IterLoader loader) ;;
  s <- for_each batches (train_step G m scaler scheduler epoch)
         (mkTrainState global_step (Fin 0) end_time) ;;
  call_ (CLogger "print_train_epoch_end") ;;
  (when (rank (args G) =? 0) then (
     call_ KeepAvgValues ;;
     call_ (TbLogger "tb_train_epoch_stats" (ts_global_step s)) ;;
     when (tb_model_param_stats cfg)
     then call_ (TbLogger "tb_model_weights" (ts_global_step s)))) ;;
  avg_values <- call_ KeepAvgValues ;;
  Ret (avg_values, ts_global_step s).

(** ** [evaluate] *)

(** The variables carried through [evaluate]'s loop; [es_last] holds the
    loop variables of the last iteration, unbound before the first. *)
Record eval_state : Type := mkEvalState {
  es_epoch_time : pyfloat;
  es_last : option step_vars
}.

(** The body of [evaluate]'s loop. *)
Definition eval_step (G : Globals) (m : model) (data : raw_batch) (s : eval_state)
  : prog eval_state :=
  let cfg := config G in
  start_time <- call_ TimeTime ;;
  d <- lift (format_data G data) ;;
  o <- call_ (Forward m (f_text_input d) (f_text_lengths d) (f_mel_input d)
                (f_mel_lengths d) (f_attn_mask d) (f_speaker_c d)) ;;
  loss_dict <- call_ (Criterion o (f_mel_lengths d) (f_text_lengths d)) ;;
  now <- call_ TimeTime ;;
  let step_time := float_sub now start_time in
  let epoch_time := float_add (es_epoch_time s) step_time in
  score <- call_ (AlignmentDiagonalScore (o_alignments o) false) ;;
  let align_error := float_sub (Fin 1) score in
  let loss_dict := dict_set loss_dict "align_error" (LFloat align_error) in
  loss_dict <- aggregate_losses G loss_dict ;;
  loss_dict <- lift (detach loss_dict) ;;
  call_ (KeepAvgUpdate (avg_keys loss_dict)) ;;
  (when (print_eval cfg) then (call_ KeepAvgValues ;; call_ (CLogger "print_eval_step"))) ;;
  Ret (mkEvalState epoch_time
         (Some (mkStepVars (f_text_input d) (f_text_lengths d) (f_mel_input d)
                           (f_speaker_c d) (o_alignments o)))).

(** Lines 386-413: the diagnostics of rank 0 on the last batch. *)
Definition eval_rank0 (G : Globals) (m : model) (global_step : Z) (s : eval_state)
  : prog unit :=
  when (rank (args G) =? 0) then (
    v <- lift (match es_last s with
               | Some v => Ok v
               | None => Err (Exception "UnboundLocalError")
               end) ;;
    specs <- direct_pass m v ;;
    let '(const_spec, gt_spec, align_img) := specs in
    call_ (PlotSpectrogram const_spec) ;;
    call_ (PlotSpectrogram gt_spec) ;;
    call_ (PlotAlignment align_img) ;;
    call_ (InvMelspectrogram (numpy_T const_spec)) ;;
    call_ (TbLogger "tb_eval_audios" global_step) ;;
    call_ KeepAvgValues ;;
    call_ (TbLogger "tb_eval_stats" global_step) ;;
    call_ (TbLogger "tb_eval_figures" global_step)).

(** The sentences synthesized when no file is configured. *)
Definition default_test_sentences : list string :=
  [ "It took me quite a long time to develop a voice, and now that I have it I'm not going to be silent.";
    "Be a voice, not an echo.";
    "I'm sorry Dave. I'm afraid I can't do that.";
    "This cake is great. It's so delicious and moist.";
    "Prior to November 22, 1963." ].

(** Lines 432-443: the speaker used for the test sentences, as
    [(speaker_id, speaker_embedding)]. *)
Definition test_speaker (G : Globals) : prog (option Z * option (list pyfloat)) :=
  let cfg := config G in
  if use_speaker_embedding cfg then
    if use_external_speaker_embedding_file cfg then
      mapping <- lift (require (speaker_mapping G)) ;;
      i <- randrange (Z.of_nat (length mapping) - 1) ;;
      key <- lift (list_getitem (dict_keys mapping) i) ;;
      entry <- lift (dict_getitem mapping key) ;;
      embedding <- lift (match entry with
                         | SpeakerRecord fields => dict_getitem fields "embedding"
                         | SpeakerId _ => Err (Exception "TypeError")
                         end) ;;
      Ret (None, Some embedding)
    else Ret (Some 0, None)
  else Ret (None, None).

(** The path a test sentence is saved to. *)
Definition test_sentence_dir (G : Globals) (global_step : Z) : string :=
  os_path_join (AUDIO_PATH G) (str_of_Z global_step).

Definition test_sentence_path (G : Globals) (global_step idx : Z) : string :=
  os_path_join (test_sentence_dir G global_step)
    (String.append "TestSentence_" (String.append (str_of_Z idx) ".wav")).

(** The [try] block of one test sentence. *)
Definition synthesize_sentence (G : Globals) (m : model) (global_step : Z)
    (speaker_id : option Z) (speaker_embedding : option (list pyfloat))
    (style_wav : option string) (idx : Z) (test_sentence : string) : prog unit :=
  out <- call_ (Synthesis m test_sentence speaker_id speaker_embedding style_wav) ;;
  call_ (OsMakedirs (test_sentence_dir G global_step)) ;;
  call_ (SaveWav (s_wav out) (test_sentence_path G global_step idx)) ;;
  call_ (PlotSpectrogram (s_postnet_output out)) ;;
  call_ (PlotAlignment (s_alignment out)).

(** The bare [except:] of one test sentence. *)
Definition report_sentence_error (idx : Z) (_ : exn) : prog unit :=
  call_ (Print [Str " !! Error creating Test Sentence -"; Int idx]) ;;
  call_ TracebackPrintExc.

(** One iteration of the loop over the test sentences. *)
Definition iteration (G : Globals) (m : model) (global_step : Z)
    (speaker_id : option Z) (speaker_embedding : option (list pyfloat))
    (it : Z * string) : prog unit :=
  try_except
    (synthesize_sentence G m global_step speaker_id speaker_embedding
       (style_wav_for_test (config G)) (fst it) (snd it))
    (report_sentence_error (fst it)).

(** The loop over the test sentences. *)
Definition test_sentence_loop (G : Globals) (m : model) (global_step : Z)
    (speaker_id : option Z) (speaker_embedding : option (list pyfloat))
    (test_sentences : list string) : prog unit :=
  for_each (enumerate test_sentences)
    (fun it _ => iteration G m global_step speaker_id speaker_embedding it)
    tt.

(** Lines 415-474. *)
Definition test_run (G : Globals) (m : model) (global_step epoch : Z) : prog unit :=
  let cfg := config G in
  when ((rank (args G) =? 0) && (test_delay_epochs cfg <=? epoch)) then (
    test_sentences <-
      (match test_sentences_file cfg with
       | Some (String _ _ as f) => lines <- call_ (ReadLines f) ;; Ret (map strip lines)
       | _ => Ret default_test_sentences
       end) ;;
    call_ (Print [Str " | > Synthesizing test sentences"]) ;;
    sp <- test_speaker G ;;
    let '(speaker_id, speaker_embedding) := sp in
    test_sentence_loop G m global_step speaker_id speaker_embedding test_sentences ;;
    call_ (TbLogger "tb_test_audios" global_step) ;;
    call_ (TbLogger "tb_test_figures" global_step)).

(** The validation pass, lines 339-413. *)
Definition eval_pass (G : Globals) (loader : option data_loader) (m : model)
                     (global_step : Z) : prog unit :=
  match loader with
  | Some l =>
      batches <- call_ (IterLoader l) ;;
      s <- for_each batches (eval_step G m) (mkEvalState (Fin 0) None) ;;
      eval_rank0 G m global_step s
  | None => Ret tt
  end.

Definition evaluate (G : Globals) (loader : option data_loader) (m : model)
                    (global_step epoch : Z) : prog (dict pyfloat) :=
  with_no_grad (
    call_ (ModelEval m) ;;
    call_ KeepAverageNew ;;
    call_ (CLogger "print_eval_start") ;;
    eval_pass G loader m global_step ;;
    test_run G m global_step epoch ;;
    call_ KeepAvgValues).

(** ** [main] *)

Definition with_speaker_mapping (G : Globals) (m : option (dict speaker_entry)) : Globals :=
  mkGlobals (use_cuda G) (num_gpus G) (config G) (args G) (OUT_PATH G) (AUDIO_PATH G) m.

(** [args.restore_step = step]. *)
Definition with_restore_step (G : Globals) (step : Z) : Globals :=
  let a := args G in
  mkGlobals (use_cuda G) (num_gpus G) (config G)
    (mkArgs (rank a) (group_id a) (restore_path a) (best_path a) step)
    (OUT_PATH G) (AUDIO_PATH G) (speaker_mapping G).

(** Lines 511-512: the body of the [try]. *)
Definition full_load (ckpt : checkpoint_file) : prog unit :=
  call_ (OptimizerLoadStateDict (ck_optimizer ckpt)) ;;
  call_ (ModelLoadStateDict (ck_model ckpt)).

(** Lines 514-518: the body of the bare [except:]. *)
Definition partial_load (ckpt : checkpoint_file) : prog unit :=
  call_ (Print [Str " > Partial model initialization."]) ;;
  model_dict <- call_ ModelStateDict ;;
  model_dict <- call_ (SetInitDict model_dict (ck_model ckpt)) ;;
  call_ (ModelLoadStateDict model_dict).

(** Lines 508-518. *)
Definition load_states (ckpt : checkpoint_file) : prog unit :=
  try_except (full_load ckpt) (fun _ => partial_load ckpt).

(** Lines 508-523, once the checkpoint file is read. *)
Definition restore_from (G : Globals) (ckpt : checkpoint_file) : prog Globals :=
  load_states ckpt ;;
  call_ (SetInitialLr (lr (config G))) ;;
  call_ (Print [Str " > Model restored from step "; Int (ck_step ckpt)]) ;;
  Ret (with_restore_step G (ck_step ckpt)).

(** Lines 505-525: returns the globals with [args.restore_step] set. *)
Definition restore (G : Globals) : prog Globals :=
  match restore_path (args G) with
  | Some (String _ _ as path) =>
      call_ (Print [Str " > Restoring from "; Str (basename path); Str " ..."]) ;;
      ckpt <- call_ (TorchLoad path) ;;
      restore_from G ckpt
  | _ => Ret (with_restore_step G 0)
  end.

(** Lines 543-549: the best loss training starts from. *)
Definition initial_best_loss (G : Globals) : prog pyfloat :=
  if ((restore_step (args G) =? 0) || negb (truthy_str (best_path (args G))))%bool then
    call_ (Print [Str " > Starting with inf best loss."]) ;;
    Ret float_inf
  else
    match best_path (args G) with
    | Some path =>
        call_ (Print [Str " > Restoring best loss from "; Str (basename path); Str " ..."]) ;;
        ckpt <- call_ (TorchLoad path) ;;
        let best_loss := ck_model_loss ckpt in
        call_ (Print [Str " > Starting with loaded last best loss "; Flt best_loss; Str "."]) ;;
        Ret best_loss
    | None => Raise (Exception "TypeError")
    end.

(** The variables carried from one epoch to the next. *)
Record epoch_state : Type := mkEpochState {
  ep_global_step : Z;
  ep_best_loss : pyfloat
}.

(** The body of the epoch loop, lines 560-581. *)
Definition run_epoch (G : Globals) (train_loader eval_loader : option data_loader)
    (m : model) (scheduler : option unit) (epoch : Z) (s : epoch_state)
  : prog epoch_state :=
  call_ (CLogger "print_epoch_start") ;;
  tl <- lift (require train_loader) ;;
  tr <- train G tl m scheduler (ep_global_step s) epoch ;;
  let '(train_avg_loss_dict, global_step) := tr in
  eval_avg_loss_dict <- evaluate G eval_loader m global_step epoch ;;
  call_ (CLogger "print_epoch_end") ;;
  target_loss <- lift (dict_getitem train_avg_loss_dict "avg_loss") ;;
  target_loss <- (if run_eval (config G)
                  then lift (dict_getitem eval_avg_loss_dict "avg_loss")
                  else Ret target_loss) ;;
  best_loss <- call_ (SaveBestModel target_loss (ep_best_loss s) m global_step epoch) ;;
  Ret (mkEpochState global_step best_loss).

(** [range(0, n)]. *)
Definition py_range (n : Z) : list Z := map Z.of_nat (seq 0 (Z.to_nat n)).

Definition main (G0 : Globals) : prog unit :=
  let cfg := config G0 in
  call_ AudioProcessorNew ;;
  (when (has_characters cfg) then call_ MakeSymbols) ;;
  (when (num_gpus G0 >? 1)
   then call_ (InitDistributed (rank (args G0)) (num_gpus G0) (group_id (args G0)))) ;;
  call_ LoadMetaData ;;
  sp <- call_ ParseSpeakers ;;
  let '(num_speakers, speaker_embedding_dim, mapping) := sp in
  let G1 := with_speaker_mapping G0 mapping in
  net <- call_ (SetupModel num_speakers speaker_embedding_dim) ;;
  call_ (RAdamNew net (lr cfg)) ;;
  call_ GlowTTSLossNew ;;
  G <- restore G1 ;;
  (when (use_cuda G) then (call_ ModelCuda ;; call_ CriterionCuda)) ;;
  m <- (if num_gpus G >? 1
        then call_ (DDPNew net (rank (args G))) ;; Ret (Wrapped net)
        else Ret (Plain net)) ;;
  scheduler <- (if noam_schedule cfg
                then call_ (NoamLRNew (warmup_steps cfg) (restore_step (args G) - 1)) ;;
                     Ret (Some tt)
                else Ret None) ;;
  num_params <- call_ (CountParameters m) ;;
  call_ (Print [Str (String (ascii_of_nat 10) " > Model has "); Int num_params;
                Str " parameters"]) ;;
  best_loss <- initial_best_loss G ;;
  train_loader <- setup_loader G false ;;
  eval_loader <- setup_loader G true ;;
  let global_step := restore_step (args G) in
  m <- data_depended_init G train_loader m ;;
  for_each (py_range (epochs cfg))
    (run_epoch G train_loader eval_loader m scheduler)
    (mkEpochState global_step best_loss) ;;
  Ret tt.

(** ** The script's entry point *)

(** How the process ends. *)
Inductive process_end : Type :=
| NormalEnd                 (* control ran off the end of the script *)
| SysExit (code : Z)        (* [SystemExit] reached the interpreter *)
| OsExit (code : Z)         (* [os._exit] *)
| Uncaught (e : exn).       (* another exception reached the interpreter *)

(** The exit status of the process, where the interpreter fixes it. *)
Definition exit_code (p : process_end) : option Z :=
  match p with
  | NormalEnd => Some 0
  | SysExit c => Some c
  | OsExit c => Some c
  | Uncaught (Exception _) => Some 1
  | Uncaught GeneratorExit => Some 1
  | Uncaught (SystemExit c) => Some c
  | Uncaught KeyboardInterrupt => None
  end.

(** The body of [except KeyboardInterrupt], before its inner [try]. *)
Definition on_interrupt (G : Globals) : prog unit :=
  call_ (RemoveExperimentFolder (OUT_PATH G)).

(** The body of [except Exception]. *)
Definition on_exception (G : Globals) : prog unit :=
  call_ (RemoveExperimentFolder (OUT_PATH G)) ;;
  call_ TracebackPrintExc ;;
  Raise (SystemExit 1).

Definition end_of {A} (r : result A) : process_end :=
  match r with
  | Ok _ => NormalEnd
  | Err (SystemExit c) => SysExit c
  | Err e => Uncaught e
  end.

Section Script.
  Variable W : Type.
  Variable h : handler W.

  (** Lines 587-598, after [init_training] has produced the globals. *)
Definition script (G : Globals) (w : W) : W * trace * process_end :=
    let '(w1, t1, r) := run h (main G) w in
    match r with
    | Ok _ => (w1, t1, NormalEnd)
    | Err KeyboardInterrupt =>
        let '(w2, t2, r2) := run h (on_interrupt G) w1 in
        match r2 with
        | Ok _ =>
            (* [sys.exit(0)] raises [SystemExit], which the inner handler
               turns into [os._exit(0)] *)
            (w2, t1 ++ t2, OsExit 0)
        | Err _ => (w2, t1 ++ t2, end_of r2)
        end
    | Err (Exception _) =>
        let '(w2, t2, r2) := run h (on_exception G) w1 in
        (w2, t1 ++ t2, end_of r2)
    | Err _ => (w1, t1, end_of r)
    end.
End Script.

(** ** Sample collaborators

    Handlers used to run the programs on concrete inputs. *)

Definition scalar (q : Q) : tensor := mkTensor [] [Fin q] false.

Definition sample_forward : forward_out :=
  let t := mkTensor [1; 2; 2]%nat [Fin 1; Fin 0; Fin 0; Fin 1] false in
  mkForward t (scalar 0) t t t t t.

Definition sample_losses : dict lval :=
  [("loss", LTensor (scalar 3)); ("log_mle", LTensor (scalar 2));
   ("loss_dur", LTensor (scalar 1))].

Definition sample_batch : raw_batch :=
  mkBatch (mkTensor [1; 2]%nat [Fin 1; Fin 2] false)
          (mkTensor [1]%nat [Fin 2] false)
          ["speaker_a"]
          (mkTensor [1; 2; 2]%nat [Fin 1; Fin 2; Fin 3; Fin 4] false)
          (mkTensor [1]%nat [Fin 2] false)
          ["item_0"]
          None
          None.

(** What a call answers when nothing goes wrong; [batches] is what a
    pass over a loader yields. *)
Definition answer (batches : list raw_batch) (c : call) : ret c :=
  match c as c0 return ret c0 with
  | Forward _ _ _ _ _ _ _ => sample_forward
  | Inference _ _ _ _ => mkTensor [1; 2; 2]%nat [Fin 1; Fin 2; Fin 3; Fin 4] false
  | Criterion _ _ _ => sample_losses
  | ScalerScale t => t
  | ClipGradNorm _ _ => Fin 1
  | CurrentLr => Fin 1
  | AlignmentDiagonalScore _ _ => Fin 1
  | ReduceTensor t _ => t
  | TimeTime => Fin 0
  | KeepAvgValues => [("avg_loss", Fin 3)]
  | SaveBestModel t b _ _ _ => t
  | InvMelspectrogram _ => []
  | ReadLines _ => []
  | RandomBelow _ => 0
  | Synthesis _ _ _ _ _ => mkSynthesis [Fin 0] (scalar 0) (scalar 0)
  | MyDataset _ _ _ => (0%nat, Z.of_nat (length batches))
  | IterLoader _ => batches
  | ParseSpeakers => (1, 0, None)
  | SetupModel _ _ => mkModel 0 [mkFlow 0 true; mkFlow 1 false]
  | TorchLoad _ => mkCheckpoint 0 0 7 (Fin 2)
  | ModelStateDict => 0%nat
  | SetInitDict d _ => d
  | CountParameters _ => 0
  | _ => tt
  end.

(** Collaborators that never raise. *)
Definition quiet (batches : list raw_batch) : handler unit :=
  fun c w => (w, Ok (answer batches c)).

(** Collaborators that raise [e] on the calls selected by [fails]. *)
Definition failing (fails : call -> bool) (e : exn) (batches : list raw_batch)
  : handler unit :=
  fun c w => (w, if fails c then Err e else Ok (answer batches c)).

Definition sample_config : Config :=
  mkConfig true false false false false false 1 1 0 0 0 1 false (Fin 5) true 4000
           (Fin 1) 1 1 1 true false false 0 None None false 22050 false 0 1 1.

Definition sample_args : Args := mkArgs 0 "group" None None 0.

Definition sample_globals : Globals :=
  mkGlobals false 1 sample_config sample_args "out" "out/test_audios" None.

(** ** Vocabulary of the properties *)

(** The calls of a trace, in order. *)
Definition calls (t : trace) : list call := map ev_call t.

(** Every call a program can ever make satisfies [P]. *)
Fixpoint calls_only (P : call -> Prop) {A} (p : prog A) : Prop :=
  match p with
  | Ret _ => True
  | Raise _ => True
  | Call c k => P c /\ forall r, calls_only P (k r)
  end.

(** The batch size of a raw batch: the leading dimension of the text
    tensor. *)
Definition input_batch_size (data : raw_batch) : nat := batch_dim (data_0 data).

(** What the loader guarantees about a batch: the fields agree on the
    batch size, and the embeddings are there when the dataset was built
    with the speaker mapping (external-embedding mode). *)
Definition batch_wf (G : Globals) (data : raw_batch) : Prop :=
  length (data_2 data) = input_batch_size data /\
  (forall e, data_8 data = Some e -> batch_dim e = input_batch_size data) /\
  (use_speaker_embedding (config G) = true ->
   use_external_speaker_embedding_file (config G) = true ->
   data_8 data <> None).

(** [id] is what the speaker mapping gives for [name]. *)
Definition maps_to (G : Globals) (name : string) (id : Z) : Prop :=
  exists d, speaker_mapping G = Some d /\ dict_get d name = Some (SpeakerId id).

Definition is_reduce_tensor (c : call) : bool :=
  match c with ReduceTensor _ _ => true | _ => false end.

(** What a single-process run may not do while building a loader: build
    a distributed sampler, or hand a sampler to the [DataLoader]. *)
Definition no_sampler (c : call) : Prop :=
  match c with
  | DistributedSamplerNew _ => False
  | DataLoaderNew _ _ s _ => s = None
  | _ => True
  end.

Definition not_reduce (c : call) : Prop := is_reduce_tensor c = false.

(** Every value a program can return satisfies [Q]. *)
Fixpoint returns_only {A} (Q : A -> Prop) (p : prog A) : Prop :=
  match p with
  | Ret a => Q a
  | Raise _ => True
  | Call c k => forall r, returns_only Q (k r)
  end.

(** The calls that drive the optimisation of one step. *)
Definition is_optim_call (c : call) : bool :=
  match c with
  | ScalerScale _ | Backward _ | ScalerUnscale | ClipGradNorm _ _
  | ScalerStep | ScalerUpdate | OptimizerStep | SchedulerStep => true
  | _ => false
  end.

Definition not_optim (c : call) : Prop := is_optim_call c = false.

Definition optim_calls (t : trace) : list call := filter is_optim_call (calls t).

(** The optimisation calls of a step that runs to its end: [loss] is the
    ["loss"] entry of the criterion's output, [scaled] what the scaler
    makes of it.  Under mixed precision the optimizer is stepped through
    the scaler ([scaler.step(optimizer)]). *)
Definition expected_optim (G : Globals) (m : model) (loss scaled : tensor) : list call :=
  (if mixed_precision (config G)
   then [ScalerScale loss; Backward scaled; ScalerUnscale;
         ClipGradNorm m (grad_clip (config G)); ScalerStep; ScalerUpdate]
   else [Backward loss; ClipGradNorm m (grad_clip (config G)); OptimizerStep])
  ++ (if noam_schedule (config G) then [SchedulerStep] else []).

Definition prefix_of {A} (l1 l2 : list A) : Prop := exists rest, l2 = l1 ++ rest.

(** A program whose optimisation calls are always the beginning of the
    expected sequence, and all of it when the program returns. *)
Definition optimizes (W : Type) (h : handler W) (G : Globals) (m : model)
                     {A} (p : prog A) : Prop :=
  forall w, exists loss scaled,
    prefix_of (optim_calls (trace_of h p w)) (expected_optim G m loss scaled) /\
    (is_ok (outcome h p w) = true ->
     optim_calls (trace_of h p w) = expected_optim G m loss scaled).

Definition is_forward (c : call) : bool :=
  match c with Forward _ _ _ _ _ _ _ => true | _ => false end.

Definition is_clip (c : call) : bool :=
  match c with ClipGradNorm _ _ => true | _ => false end.

(** The number of warm-up forward passes in a trace. *)
Definition forward_passes (t : trace) : nat := length (filter is_forward (calls t)).

(** The flow layers of the network, wrapped or not. *)
Definition flows_of (m : model) : list flow :=
  match m with
  | Plain net => decoder_flows net
  | Wrapped net => decoder_flows net
  end.

(** [f.set_ddi(b)] on every flow that has the method, in order. *)
Definition set_ddi_calls (m : model) (b : bool) : list call :=
  map (fun f => SetDdi f b) (filter has_set_ddi (flows_of m)).

(** A loader over three batches, and a configuration asking for one
    warm-up step. *)
Definition three_batches : list raw_batch := [sample_batch; sample_batch; sample_batch].

Definition sample_loader : data_loader := mkLoader 0 3 1 None 0.

Definition sample_network : base_model := mkModel 0 [mkFlow 0 true; mkFlow 1 false].

(** ** Vocabulary for the test sentences *)

Definition is_synthesis (c : call) : bool :=
  match c with Synthesis _ _ _ _ _ => true | _ => false end.



Section TestSentence.
  Variables (G : Globals) (m : model) (global_step : Z).
  Variables (speaker_id : option Z) (speaker_embedding : option (list pyfloat)).
  Variables (idx : Z) (sentence : string).




End TestSentence.




(** The calls of a trace selected by [f], in order. *)
Definition select (f : call -> bool) (t : trace) : list call := filter f (calls t).

(** The calls that only the test-sentence block makes. *)
Definition is_test_call (c : call) : bool :=
  match c with
  | Synthesis _ _ _ _ _ | SaveWav _ _ => true
  | _ => false
  end.

(** The condition under which [evaluate] synthesizes the test sentences. *)
Definition test_condition (G : Globals) (epoch : Z) : Prop :=
  rank (args G) = 0 /\ test_delay_epochs (config G) <= epoch.


(** Where the test sentences come from: the lines of the configured
    file, stripped, or the built-in list. *)
Definition sentences_source (G : Globals) (t : trace) (sentences : list string) : Prop :=
  match test_sentences_file (config G) with
  | Some (String _ _ as f) =>
      exists lines, In (Ev (ReadLines f) (Ok lines)) t /\ sentences = map strip lines
  | _ => sentences = default_test_sentences
  end.

(** A mapping with a single speaker, in external-embedding-file mode. *)
Definition one_speaker : dict speaker_entry :=
  [("speaker_a", SpeakerRecord [("embedding", [Fin 1; Fin 2])])].

Definition external_config : Config :=
  mkConfig true true true false false false 1 1 0 0 0 1 false (Fin 5) true 4000
           (Fin 1) 1 1 1 true false false 0 None None false 22050 false 0 1 1.

Definition external_globals : Globals :=
  mkGlobals false 1 external_config sample_args "out" "out/test_audios" (Some one_speaker).

(** ** Vocabulary for the entry point and the epoch loop *)

Definition is_remove_folder (c : call) : bool :=
  match c with RemoveExperimentFolder _ => true | _ => false end.

Definition is_save_best (c : call) : bool :=
  match c with SaveBestModel _ _ _ _ _ => true | _ => false end.

Definition is_torch_load (c : call) : bool :=
  match c with TorchLoad _ => true | _ => false end.

(** Collaborators of which the first one called ends the process with
    [sys.exit(2)]. *)
Definition exiting : handler unit :=
  failing (fun c => match c with AudioProcessorNew => true | _ => false end)
          (SystemExit 2) [].

(** Collaborators of which the first one called is interrupted by the
    user. *)
Definition interrupted : handler unit :=
  failing (fun c => match c with AudioProcessorNew => true | _ => false end)
          KeyboardInterrupt [].

(** Globals of a run with an embedding layer: speaker names are mapped
    to integer ids. *)
Definition id_config : Config :=
  mkConfig true true false false false false 1 1 0 0 0 1 false (Fin 5) true 4000
           (Fin 1) 1 1 1 true false false 0 None None false 22050 false 0 1 1.

Definition id_globals : Globals :=
  mkGlobals false 1 id_config sample_args "out" "out/test_audios"
            (Some [("speaker_a", SpeakerId 0); ("speaker_b", SpeakerId 1)]).


(** ** Vocabulary of the further properties *)

Definition is_set_ddi_off (c : call) : bool :=
  match c with SetDdi _ false => true | _ => false end.

Definition is_iter_loader (c : call) : bool :=
  match c with IterLoader _ => true | _ => false end.

Definition is_zero_grad (c : call) : bool :=
  match c with ZeroGrad => true | _ => false end.

(** The calls that change the model, the optimizer or the files of the
    experiment. *)
Definition is_training_call (c : call) : bool :=
  match c with
  | ZeroGrad | SaveCheckpoint _ _ _ _ | SaveBestModel _ _ _ _ _ => true
  | _ => is_optim_call c
  end.

Definition is_no_grad (c : call) : bool :=
  match c with NoGradEnter | NoGradExit => true | _ => false end.

(** The body of [evaluate], inside [torch.no_grad()]. *)
Definition evaluate_body (G : Globals) (loader : option data_loader) (m : model)
                         (global_step epoch : Z) : prog (dict pyfloat) :=
  call_ (ModelEval m) ;;
  call_ KeepAverageNew ;;
  call_ (CLogger "print_eval_start") ;;
  eval_pass G loader m global_step ;;
  test_run G m global_step epoch ;;
  call_ KeepAvgValues.

(** The calls of a [setup_loader] that builds the loader over the
    dataset [dataset]. *)
Definition setup_loader_calls (G : Globals) (is_val : bool) (dataset : nat) : list call :=
  let cfg := config G in
  [MyDataset is_val (if is_val then 0 else batch_group_size cfg * batch_size cfg)
     (use_speaker_embedding cfg && use_external_speaker_embedding_file cfg)]
  ++ (if (use_phonemes cfg && compute_input_seq_cache cfg)%bool
      then [ComputeInputSeq dataset (num_loader_workers cfg)] else [])
  ++ [SortItems dataset]
  ++ (if num_gpus G >? 1 then [DistributedSamplerNew dataset] else [])
  ++ [DataLoaderNew dataset
        (if is_val then eval_batch_size cfg else batch_size cfg)
        (if num_gpus G >? 1 then Some (DistributedSampler dataset) else None)
        (if is_val then num_val_loader_workers cfg else num_loader_workers cfg)].

Definition is_validation_call (c : call) : bool :=
  match c with
  | IterLoader _ | Forward _ _ _ _ _ _ _ | Criterion _ _ _
  | AlignmentDiagonalScore _ _ | KeepAvgUpdate _ | Inference _ _ _ _ => true
  | _ => false
  end.

(** Globals of a run without validation. *)
Definition train_only_config : Config :=
  mkConfig false false false false false false 1 1 0 0 0 1 false (Fin 5) true 4000
           (Fin 1) 1 1 1 true false false 0 None None false 22050 false 0 1 1.

Definition train_only_globals : Globals :=
  mkGlobals false 1 train_only_config sample_args "out" "out/test_audios" None.

(** A reporting interval of zero that a step runs into: [print_step] on
    every process, [tb_plot_step] and [save_step] on rank 0. *)
Definition zero_interval (G : Globals) : Prop :=
  print_step (config G) = 0 \/
  (rank (args G) = 0 /\ (tb_plot_step (config G) = 0 \/ save_step (config G) = 0)).

Definition zero_print_config : Config :=
  mkConfig true false false false false false 1 1 0 0 0 1 false (Fin 5) true 4000
           (Fin 1) 0 1 1 true false false 0 None None false 22050 false 0 1 1.

Definition zero_print_globals : Globals :=
  mkGlobals false 1 zero_print_config sample_args "out" "out/test_audios" None.

(** Globals of a run that names a best model but no checkpoint to
    restore. *)
Definition best_only_globals : Globals :=
  mkGlobals false 1 sample_config (mkArgs 0 "group" None (Some "best_model.pth.tar") 0)
            "out" "out/test_audios" None.

(** The events of a trace whose call is selected by [f], in order. *)
Definition select_events (f : call -> bool) (t : trace) : trace :=
  filter (fun e => f (ev_call e)) t.

(** The [save_best_model] events of consecutive epochs, starting at
    epoch [k] in state [s] and ending in state [s']: each call is given
    the epoch's number and the best loss of the state before it, and what
    it returns is the best loss of the state after it. *)
Inductive best_chain (m : model) : Z -> epoch_state -> trace -> epoch_state -> Prop :=
| chain_done k s : best_chain m k s [] s
| chain_step k s target global_step best rest s' :
    best_chain m (k + 1) (mkEpochState global_step best) rest s' ->
    best_chain m k s
      (Ev (SaveBestModel target (ep_best_loss s) m global_step k) (Ok best) :: rest) s'.

(** Globals of a run on two processes. *)
Definition two_gpu_globals : Globals :=
  mkGlobals false 2 sample_config sample_args "out" "out/test_audios" None.

(** The calls that make up the computation of a training step. *)
Definition is_step_call (c : call) : bool :=
  match c with
  | ZeroGrad | AutocastEnter _ | AutocastExit | Forward _ _ _ _ _ _ _
  | Criterion _ _ _ => true
  | _ => is_optim_call c
  end.

(** A batch whose speaker is not in the mapping of [id_globals]. *)
Definition stranger_batch : raw_batch :=
  mkBatch (data_0 sample_batch) (data_1 sample_batch) ["speaker_z"]
          (data_4 sample_batch) (data_5 sample_batch) (data_7 sample_batch)
          (data_8 sample_batch) (data_9 sample_batch).

(** Element [(i, j, k)] of a 3-dimensional tensor. *)
Definition at3 (x : tensor) (i j k : nat) : pyfloat :=
  nth (ravel (shape x) [i; j; k]) (values x) NaN.

(** A batch of two items, three frames each, two mel bands. *)
Definition wide_batch : raw_batch :=
  mkBatch (data_0 sample_batch) (data_1 sample_batch) ["speaker_a"; "speaker_b"]
          (mkTensor [2; 3; 2]%nat
             [Fin 1; Fin 2; Fin 3; Fin 4; Fin 5; Fin 6;
              Fin 7; Fin 8; Fin 9; Fin 10; Fin 11; Fin 12] false)
          (data_5 sample_batch) (data_7 sample_batch)
          (data_8 sample_batch) (data_9 sample_batch).

(** Globals of a run with [epochs = 0]. *)
Definition no_epoch_config : Config :=
  mkConfig true false false false false false 1 1 0 0 0 1 false (Fin 5) true 4000
           (Fin 1) 1 1 1 true false false 0 None None false 22050 false 0 0 1.

Definition no_epoch_globals : Globals :=
  mkGlobals false 1 no_epoch_config sample_args "out" "out/test_audios" None.

(** The events of the backward pass and the update of a step that went
    through, on the loss tensor [loss]: [scaled] is what
    [scaler.scale(loss)] returned, [grad_norm] what [clip_grad_norm_]
    returned. *)
Definition update_events (G : Globals) (m : model) (loss scaled : tensor)
                         (grad_norm : pyfloat) : trace :=
  (if mixed_precision (config G)
   then [Ev (ScalerScale loss) (Ok scaled); Ev (Backward scaled) (Ok tt);
         Ev ScalerUnscale (Ok tt);
         Ev (ClipGradNorm m (grad_clip (config G))) (Ok grad_norm);
         Ev ScalerStep (Ok tt); Ev ScalerUpdate (Ok tt)]
   else [Ev (Backward loss) (Ok tt);
         Ev (ClipGradNorm m (grad_clip (config G))) (Ok grad_norm);
         Ev OptimizerStep (Ok tt)])
  ++ (if noam_schedule (config G) then [Ev SchedulerStep (Ok tt)] else []).

(** The calls that read a checkpoint file or select the best model. *)
Definition is_selection_call (c : call) : bool :=
  (is_torch_load c || is_save_best c)%bool.

(** ** Vocabulary of the restore step *)

(** The first two events of a restore that read the checkpoint [ckpt]
    from [path]. *)
Definition restore_opening (path : string) (ckpt : checkpoint_file) : trace :=
  [Ev (Print [Str " > Restoring from "; Str (basename path); Str " ..."]) (Ok tt);
   Ev (TorchLoad path) (Ok ckpt)].

(** The events of a full load that went through. *)
Definition full_load_events (ckpt : checkpoint_file) : trace :=
  [Ev (OptimizerLoadStateDict (ck_optimizer ckpt)) (Ok tt);
   Ev (ModelLoadStateDict (ck_model ckpt)) (Ok tt)].

(** The events of a full load that raised [e]: in the optimizer's
    [load_state_dict], or in the model's after the optimizer's returned. *)
Definition full_load_failed (ckpt : checkpoint_file) (e : exn) (t : trace) : Prop :=
  t = [Ev (OptimizerLoadStateDict (ck_optimizer ckpt)) (Err e)] \/
  t = [Ev (OptimizerLoadStateDict (ck_optimizer ckpt)) (Ok tt);
       Ev (ModelLoadStateDict (ck_model ckpt)) (Err e)].

(** The events of a fallback that went through: the warning,
    [model.state_dict()] returning [model_dict], [set_init_dict] on it
    and the checkpoint's model state returning [compatible], and
    [model.load_state_dict(compatible)]. *)
Definition fallback_events (ckpt : checkpoint_file) (model_dict compatible : nat) : trace :=
  [Ev (Print [Str " > Partial model initialization."]) (Ok tt);
   Ev ModelStateDict (Ok model_dict);
   Ev (SetInitDict model_dict (ck_model ckpt)) (Ok compatible);
   Ev (ModelLoadStateDict compatible) (Ok tt)].

(** The last two events of a restore that returned. *)
Definition restore_closing (G : Globals) (ckpt : checkpoint_file) : trace :=
  [Ev (SetInitialLr (lr (config G))) (Ok tt);
   Ev (Print [Str " > Model restored from step "; Int (ck_step ckpt)]) (Ok tt)].

(** What a restore that returned did between reading the checkpoint and
    its last two calls: the full load, or a full load that raised
    followed by the fallback. *)
Definition restored_load (ckpt : checkpoint_file) (load : trace) : Prop :=
  load = full_load_events ckpt \/
  exists e failed model_dict compatible,
    full_load_failed ckpt e failed /\
    load = failed ++ fallback_events ckpt model_dict compatible.

(** Globals of a run that restores a checkpoint, and collaborators whose
    optimizer rejects the state it is given. *)
Definition restoring_globals : Globals :=
  mkGlobals false 1 sample_config (mkArgs 0 "group" (Some "checkpoint.pth.tar") None 0)
            "out" "out/test_audios" None.

Definition rejecting_optimizer : handler unit :=
  failing (fun c => match c with OptimizerLoadStateDict _ => true | _ => false end)
          (Exception "RuntimeError") [sample_batch].

(** ** Vocabulary of best-model selection *)

(** The collaborators' state when [train] starts in an epoch run from
    [w], and when [evaluate] starts after it. *)
Definition at_train (W : Type) (h : handler W) (w : W) : W :=
  world_after h (call_ (CLogger "print_epoch_start")) w.

Definition at_evaluate (W : Type) (h : handler W) (G : Globals) (tl : data_loader)
                       (m : model) (scheduler : option unit) (epoch : Z)
                       (s : epoch_state) (w : W) : W :=
  world_after h (train G tl m scheduler (ep_global_step s) epoch) (at_train h w).

(** The checkpoint files a run of [main] that returned has read
    ([loads], in order, with what [torch.load] returned), and the best
    loss [b] it started from: nothing and infinity without a restore
    path; the restored checkpoint only, and infinity, when its step is 0
    or no best path is given; otherwise the restored checkpoint and then
    the file at the best path, and that file's [model_loss]. *)
Definition baseline (G : Globals) (loads : trace) (b : pyfloat) : Prop :=
  match restore_path (args G) with
  | Some (String _ _ as rp) =>
      exists ckpt,
        if ((ck_step ckpt =? 0) || negb (truthy_str (best_path (args G))))%bool
        then loads = [Ev (TorchLoad rp) (Ok ckpt)] /\ b = float_inf
        else exists bp best,
               best_path (args G) = Some bp /\
               loads = [Ev (TorchLoad rp) (Ok ckpt); Ev (TorchLoad bp) (Ok best)] /\
               b = ck_model_loss best
  | _ => loads = [] /\ b = float_inf
  end.

(** Globals of a run that restores a checkpoint and names a best model. *)
Definition resuming_globals : Globals :=
  mkGlobals false 1 sample_config
            (mkArgs 0 "group" (Some "checkpoint.pth.tar") (Some "best_model.pth.tar") 0)
            "out" "out/test_audios" None.

(** The events of one epoch of [main] that went through: [b] is the best
    loss the epoch starts from and [b'] the one it ends with.  The
    training part ends with the [keep_avg.avg_values] that [train]
    returns; [evaluate] follows, inside its [no_grad] block, and ends
    with the averages it returns; then come the end-of-epoch line and
    [save_best_model], whose target is the ["avg_loss"] of the
    evaluation averages under [config.run_eval] and of the training
    averages otherwise. *)
Definition epoch_events (G : Globals) (m : model) (k : Z) (b b' : pyfloat) (t : trace)
  : Prop :=
  exists training train_avg evaluation eval_avg target gs,
    t = training
        ++ [Ev KeepAvgValues (Ok train_avg); Ev NoGradEnter (Ok tt)]
        ++ evaluation
        ++ [Ev KeepAvgValues (Ok eval_avg); Ev NoGradExit (Ok tt);
            Ev (CLogger "print_epoch_end") (Ok tt);
            Ev (SaveBestModel target b m gs k) (Ok b')] /\
    select is_no_grad training = [] /\
    select is_no_grad evaluation = [] /\
    select_events is_save_best training = [] /\
    select_events is_save_best evaluation = [] /\
    dict_get (if run_eval (config G) then eval_avg else train_avg) "avg_loss"
    = Some target.

(** The events of consecutive epochs, from epoch [k] and best loss [b]. *)
Inductive epoch_traces (G : Globals) (m : model) : Z -> pyfloat -> trace -> Prop :=
| epochs_done k b : epoch_traces G m k b []
| epochs_step k b b' t rest :
    epoch_events G m k b b' t ->
    epoch_traces G m (k + 1) b' rest ->
    epoch_traces G m k b (t ++ rest).

(** A trace whose last event is [e]. *)
Definition ends_with (t : trace) (e : event) : Prop := exists pre, t = pre ++ [e].

(** The checkpoint files a run of [main] may have read, in order
    ([loads], with what [torch.load] returned or raised): none without a
    restore path; with one, the file at the restore path and, after it,
    the file at the best path only when the restored checkpoint has a
    non-zero step. *)
Definition best_read_allowed (G : Globals) (loads : trace) : Prop :=
  match restore_path (args G) with
  | Some (String _ _ as rp) =>
      loads = [] \/
      (exists r, loads = [Ev (TorchLoad rp) r]) \/
      (exists ckpt bp r,
         ck_step ckpt <> 0 /\ best_path (args G) = Some bp /\
         truthy_str (Some bp) = true /\
         loads = [Ev (TorchLoad rp) (Ok ckpt); Ev (TorchLoad bp) r])
  | _ => loads = []
  end.

(** ** Vocabulary of the checkpoints of [train] *)

Definition is_save_checkpoint (c : call) : bool :=
  match c with SaveCheckpoint _ _ _ _ => true | _ => false end.

Definition is_criterion (c : call) : bool :=
  match c with Criterion _ _ _ => true | _ => false end.

(** [loss] is the loss of the step that the events [pre] end in: the
    last criterion call of [pre] returned the dictionary [ld], whose
    ["loss"] entry is the tensor [t], and (for a dictionary with distinct
    keys, as every Python dictionary is) [loss] is [t.item()] in a
    single-process run and [r.item()] otherwise, [r] being what the last
    [reduce_tensor] call since, made on [t] with [num_gpus], returned. *)
Definition step_loss (G : Globals) (pre : trace) (loss : pyfloat) : Prop :=
  exists before o ml tl ld after t,
    pre = before ++ Ev (Criterion o ml tl) (Ok ld) :: after /\
    select is_criterion after = [] /\
    dict_get ld "loss" = Some (LTensor t) /\
    (NoDup (dict_keys ld) ->
     if num_gpus G >? 1
     then exists r,
            ends_with (select_events is_reduce_tensor after)
                      (Ev (ReduceTensor t (num_gpus G)) (Ok r)) /\
            item r = Ok loss
     else item t = Ok loss).

(** Every [save_checkpoint] event of [t], a trace of training that
    started at step [first_step]: it is made on rank 0, with
    [config.checkpoint] set, for the model and the epoch of the run, with
    the number of the current step, which is [first_step] plus the
    number of [optimizer.zero_grad()] calls made so far and a multiple
    of [config.save_step], and with the loss of that step. *)
Definition checkpoint_at (G : Globals) (m : model) (epoch first_step : Z) (t : trace)
  : Prop :=
  forall pre m' gs ep loss r post,
    t = pre ++ Ev (SaveCheckpoint m' gs ep loss) r :: post ->
    rank (args G) = 0 /\ checkpoint (config G) = true /\
    save_step (config G) <> 0 /\
    m' = m /\ ep = epoch /\
    gs = first_step + Z.of_nat (length (select is_zero_grad pre)) /\
    gs mod save_step (config G) = 0 /\
    step_loss G pre loss.

(** What [detach] makes of an entry. *)
Definition detached (lv : lval) (v : pyfloat) : Prop :=
  match lv with
  | LFloat f => v = f
  | LTensor t => item t = Ok v
  end.


(** A line of a sentence file, with a no-break space before the sentence
    and an ideographic space and the newline after it. *)
Definition padded_line : string :=
  String (ascii_of_nat 194) (String (ascii_of_nat 160)
    (String.append " Be a voice, not an echo."
       (String (ascii_of_nat 227) (String (ascii_of_nat 128) (String (ascii_of_nat 128)
          (String (ascii_of_nat 10) EmptyString)))))).

(** * Properties *)

(** ** Tensor operations on examples *)

Example permute_example :
  values (permute_axes [0; 2; 1]%nat
            (mkTensor [1; 2; 3]%nat (map (fun z => Fin (inject_Z z)) [1; 2; 3; 4; 5; 6]) false))
  = map (fun z => Fin (inject_Z z)) [1; 4; 2; 5; 3; 6].
Proof. reflexivity. Qed.

Example numpy_T_example :
  numpy_T (mkTensor [2; 2]%nat [Fin 1; Fin 2; Fin 3; Fin 4] false)
  = mkTensor [2; 2]%nat [Fin 1; Fin 3; Fin 2; Fin 4] false.
Proof. reflexivity. Qed.

(** ** Laws of [run] *)

Section RunLaws.
  Variable W : Type.
  Variable h : handler W.

Lemma run_eta A (p : prog A) w :
    run h p w = (world_after h p w, trace_of h p w, outcome h p w).
  Proof.
    unfold world_after, trace_of, outcome.
    destruct (run h p w) as [[w' t] r]; reflexivity.
  Qed.

Lemma run_bind A B (p : prog A) (f : A -> prog B) w :
    run h (bind p f) w =
    match outcome h p w with
    | Ok a =>
        (world_after h (f a) (world_after h p w),
         trace_of h p w ++ trace_of h (f a) (world_after h p w),
         outcome h (f a) (world_after h p w))
    | Err e => (world_after h p w, trace_of h p w, Err e)
    end.
  Proof.
    revert w; induction p as [a|e|c k IH]; intro w.
    - simpl. unfold outcome, world_after, trace_of; simpl.
      destruct (run h (f a) w) as [[w' t] r]; reflexivity.
    - reflexivity.
    - unfold outcome, world_after, trace_of in *; simpl.
      destruct (h c w) as [w1 r].
      rewrite IH.
      destruct (run h (k r) w1) as [[w2 t] out]; simpl.
      destruct out; reflexivity.
  Qed.

Lemma trace_bind A B (p : prog A) (f : A -> prog B) w :
    trace_of h (bind p f) w =
    match outcome h p w with
    | Ok a => trace_of h p w ++ trace_of h (f a) (world_after h p w)
    | Err _ => trace_of h p w
    end.
  Proof.
    unfold trace_of at 1; rewrite run_bind; destruct (outcome h p w); reflexivity.
  Qed.

Lemma outcome_bind A B (p : prog A) (f : A -> prog B) w :
    outcome h (bind p f) w =
    match outcome h p w with
    | Ok a => outcome h (f a) (world_after h p w)
    | Err e => Err e
    end.
  Proof.
    unfold outcome at 1; rewrite run_bind; destruct (outcome h p w); reflexivity.
  Qed.

Lemma world_bind A B (p : prog A) (f : A -> prog B) w :
    world_after h (bind p f) w =
    match outcome h p w with
    | Ok a => world_after h (f a) (world_after h p w)
    | Err _ => world_after h p w
    end.
  Proof.
    unfold world_after at 1; rewrite run_bind; destruct (outcome h p w); reflexivity.
  Qed.

End RunLaws.

(** ** [format_data] *)

Lemma lookup_speakers_spec m names entries :
  lookup_speakers m names = Ok entries ->
  length entries = length names /\
  Forall2 (fun name e => exists d, m = Some d /\ dict_get d name = Some e) names entries.
Proof.
  revert entries; induction names as [|n rest IH]; intros entries H; simpl in H.
  - inversion H; subst; split; [reflexivity | constructor].
  - destruct m as [d|]; [|discriminate].
    unfold dict_getitem in H.
    destruct (dict_get d n) as [e|] eqn:Hn; simpl in H; [|discriminate].
    destruct (lookup_speakers (Some d) rest) as [es|] eqn:Hr; simpl in H; [|discriminate].
    inversion H; subst; clear H.
    destruct (IH es eq_refl) as [Hl Hf].
    split; [simpl; congruence|].
    constructor; [exists d; auto | exact Hf].
Qed.

Lemma as_ints_spec entries ids :
  as_ints entries = Ok ids ->
  entries = map SpeakerId ids.
Proof.
  revert ids; induction entries as [|e rest IH]; intros ids H; simpl in H.
  - inversion H; reflexivity.
  - destruct e as [i|f]; [|discriminate].
    destruct (int64 i); [|discriminate].
    destruct (as_ints rest) as [is'|] eqn:Hr; simpl in H; [|discriminate].
    inversion H; subst; simpl; f_equal; auto.
Qed.

Lemma Forall2_maps_to G names ids :
  Forall2 (fun name e => exists d, speaker_mapping G = Some d /\ dict_get d name = Some e)
          names (map SpeakerId ids) ->
  Forall2 (maps_to G) names ids.
Proof.
  revert names; induction ids as [|i ids IH]; intros names Hf; simpl in Hf.
  - inversion Hf; constructor.
  - inversion Hf as [|n e ns es Hhead Htail]; subst.
    constructor; [exact Hhead | apply IH; exact Htail].
Qed.

Lemma batch_dim_cuda_if b t : batch_dim (cuda_if b t) = batch_dim t.
Proof. destruct b; reflexivity. Qed.

Lemma batch_dim_LongTensor l : batch_dim (LongTensor l) = length l.
Proof. reflexivity. Qed.

(** [format_data] returns as soon as the mel tensor has three dimensions
    and, in embedding-layer mode, every speaker name of the batch is
    mapped to an integer id that fits in 64 bits. *)
Lemma format_data_returns G data :
  length (shape (data_4 data)) = 3%nat ->
  (use_speaker_embedding (config G) = true ->
   use_external_speaker_embedding_file (config G) = false ->
   exists ids,
     Forall2 (maps_to G) (data_2 data) ids /\ Forall (fun i => int64 i = true) ids) ->
  exists out, format_data G data = Ok out.
Proof.
  intros Hs Hm; unfold format_data, permute_0_2_1.
  destruct (shape (data_4 data)) as [|a [|b [|c [|x l]]]]; try discriminate; simpl.
  destruct (use_speaker_embedding (config G)); [|eexists; reflexivity].
  destruct (use_external_speaker_embedding_file (config G)); [eexists; reflexivity|].
  destruct (Hm eq_refl eq_refl) as (ids & Hids & Hfit).
  assert (Hl : lookup_speakers (speaker_mapping G) (data_2 data) = Ok (map SpeakerId ids)).
  { clear -Hids; induction Hids as [|n i ns is' [d [Hd Hn]] _ IH]; [reflexivity|].
    simpl; rewrite Hd; unfold dict_getitem; rewrite Hn; simpl.
    rewrite Hd in IH; rewrite IH; reflexivity. }
  rewrite Hl; simpl.
  assert (Hi : as_ints (map SpeakerId ids) = Ok ids).
  { clear -Hfit; induction Hfit as [|i l Hi _ IH]; [reflexivity|].
    simpl; rewrite Hi, IH; reflexivity. }
  rewrite Hi; simpl; eexists; reflexivity.
Qed.

(** C4.  Whenever [format_data] returns on a well-formed batch, the
    speaker conditioning it returns is [None] exactly when
    [config.use_speaker_embedding] is off.  When it is on: in
    external-embedding-file mode it is the embedding tensor [data[8]] of
    the batch (moved to the accelerator under [use_cuda]); otherwise it
    is the [LongTensor] of the ids that [speaker_mapping] gives for the
    speaker names of the batch, in order.  In every case its batch
    dimension is the batch size of the input. *)
Theorem format_data_speaker_conditioning G data out :
  batch_wf G data ->
  format_data G data = Ok out ->
  (f_speaker_c out = None <-> use_speaker_embedding (config G) = false) /\
  (use_speaker_embedding (config G) = true ->
   use_external_speaker_embedding_file (config G) = true ->
   f_speaker_c out = option_map (cuda_if (use_cuda G)) (data_8 data)) /\
  (use_speaker_embedding (config G) = true ->
   use_external_speaker_embedding_file (config G) = false ->
   exists ids,
     Forall2 (maps_to G) (data_2 data) ids /\
     f_speaker_c out = Some (cuda_if (use_cuda G) (LongTensor ids))) /\
  (forall t, f_speaker_c out = Some t -> batch_dim t = input_batch_size data).
Proof.
  intros (Hlen & Hemb & Hext) H.
  unfold format_data in H.
  destruct (permute_0_2_1 (data_4 data)) as [mel|]; simpl in H; [|discriminate].
  destruct (use_speaker_embedding (config G)) eqn:Huse.
  - destruct (use_external_speaker_embedding_file (config G)) eqn:Hfile.
    + simpl in H; inversion H; subst; clear H; simpl.
      specialize (Hext eq_refl eq_refl).
      destruct (data_8 data) as [e|] eqn:H8; [|congruence]; simpl.
      repeat split; try discriminate; try congruence.
      intros t Ht; inversion Ht; subst.
      rewrite batch_dim_cuda_if; auto.
    + destruct (lookup_speakers (speaker_mapping G) (data_2 data)) as [es|] eqn:Hl;
        simpl in H; [|discriminate].
      destruct (as_ints es) as [ids|] eqn:Hi; simpl in H; [|discriminate].
      inversion H; subst; clear H; simpl.
      apply lookup_speakers_spec in Hl; destruct Hl as [Hl Hf].
      apply as_ints_spec in Hi; subst es.
      rewrite length_map in Hl.
      repeat split; try discriminate; try congruence.
      * intros _ _; exists ids; split; [|reflexivity].
        apply Forall2_maps_to; exact Hf.
      * intros t Ht; inversion Ht; subst.
        rewrite batch_dim_cuda_if, batch_dim_LongTensor; congruence.
  - simpl in H; inversion H; subst; clear H; simpl.
    repeat split; try discriminate; try congruence.
Qed.

(** ** Laws of the control operators *)

Section ControlLaws.
  Variable W : Type.
  Variable h : handler W.

Lemma run_call_ c w :
    run h (call_ c) w = (fst (h c w), [Ev c (snd (h c w))], snd (h c w)).
  Proof.
    unfold call_; simpl. destruct (h c w) as [w1 [x|e]]; reflexivity.
  Qed.

Lemma trace_call_ c w : trace_of h (call_ c) w = [Ev c (snd (h c w))].
  Proof. unfold trace_of; rewrite run_call_; reflexivity. Qed.

Lemma outcome_call_ c w : outcome h (call_ c) w = snd (h c w).
  Proof. unfold outcome; rewrite run_call_; reflexivity. Qed.

Lemma world_call_ c w : world_after h (call_ c) w = fst (h c w).
  Proof. unfold world_after; rewrite run_call_; reflexivity. Qed.

Lemma run_lift A (r : result A) w : run h (lift r) w = (w, [], r).
  Proof. destruct r; reflexivity. Qed.

Lemma trace_lift A (r : result A) w : trace_of h (lift r) w = [].
  Proof. unfold trace_of; rewrite run_lift; reflexivity. Qed.

Lemma outcome_lift A (r : result A) w : outcome h (lift r) w = r.
  Proof. unfold outcome; rewrite run_lift; reflexivity. Qed.

Lemma world_lift A (r : result A) w : world_after h (lift r) w = w.
  Proof. unfold world_after; rewrite run_lift; reflexivity. Qed.

  (** A [try] runs its body; the handler runs after it, from the world
      the body left, exactly when the body raised. *)
Lemma run_try_except A (p : prog A) (hd : exn -> prog A) w :
    run h (try_except p hd) w =
    match outcome h p w with
    | Ok a => (world_after h p w, trace_of h p w, Ok a)
    | Err e =>
        (world_after h (hd e) (world_after h p w),
         trace_of h p w ++ trace_of h (hd e) (world_after h p w),
         outcome h (hd e) (world_after h p w))
    end.
  Proof.
    revert w; induction p as [a|e|c k IH]; intro w.
    - reflexivity.
    - simpl. unfold outcome, world_after, trace_of; simpl.
      destruct (run h (hd e) w) as [[w' t] r]; reflexivity.
    - unfold outcome, world_after, trace_of in *; simpl.
      destruct (h c w) as [w1 r].
      rewrite IH.
      destruct (run h (k r) w1) as [[w2 t] out]; simpl.
      destruct out; reflexivity.
  Qed.

Lemma trace_try_except A (p : prog A) (hd : exn -> prog A) w :
    trace_of h (try_except p hd) w =
    match outcome h p w with
    | Ok _ => trace_of h p w
    | Err e => trace_of h p w ++ trace_of h (hd e) (world_after h p w)
    end.
  Proof.
    unfold trace_of at 1; rewrite run_try_except; destruct (outcome h p w); reflexivity.
  Qed.

Lemma outcome_try_except A (p : prog A) (hd : exn -> prog A) w :
    outcome h (try_except p hd) w =
    match outcome h p w with
    | Ok a => Ok a
    | Err e => outcome h (hd e) (world_after h p w)
    end.
  Proof.
    unfold outcome at 1; rewrite run_try_except; destruct (outcome h p w); reflexivity.
  Qed.

Lemma world_try_except A (p : prog A) (hd : exn -> prog A) w :
    world_after h (try_except p hd) w =
    match outcome h p w with
    | Ok _ => world_after h p w
    | Err e => world_after h (hd e) (world_after h p w)
    end.
  Proof.
    unfold world_after at 1; rewrite run_try_except; destruct (outcome h p w); reflexivity.
  Qed.

  (** A [finally] clause runs after its body, whatever the body did. *)
Lemma trace_ensure A (p : prog A) (fin : prog unit) w :
    trace_of h (ensure p fin) w =
    trace_of h p w ++ trace_of h fin (world_after h p w).
  Proof.
    revert w; induction p as [a|e|c k IH]; intro w.
    - simpl. rewrite trace_bind. unfold trace_of at 3, world_after; simpl.
      destruct (outcome h fin w); [rewrite app_nil_r|]; reflexivity.
    - simpl. rewrite trace_bind. unfold trace_of at 3, world_after; simpl.
      destruct (outcome h fin w); [rewrite app_nil_r|]; reflexivity.
    - unfold trace_of, world_after in *; simpl.
      destruct (h c w) as [w1 r].
      specialize (IH r w1).
      destruct (run h (ensure (k r) fin) w1) as [[w2 t] out].
      destruct (run h (k r) w1) as [[w3 t3] out3]; simpl in *.
      rewrite IH; reflexivity.
  Qed.

Lemma outcome_ensure A (p : prog A) (fin : prog unit) w :
    outcome h (ensure p fin) w =
    match outcome h fin (world_after h p w) with
    | Ok _ => outcome h p w
    | Err e => Err e
    end.
  Proof.
    revert w; induction p as [a|e|c k IH]; intro w.
    - simpl. rewrite outcome_bind. unfold world_after; simpl.
      destruct (outcome h fin w); reflexivity.
    - simpl. rewrite outcome_bind. unfold world_after; simpl.
      destruct (outcome h fin w); reflexivity.
    - unfold outcome, world_after in *; simpl.
      destruct (h c w) as [w1 r].
      specialize (IH r w1).
      destruct (run h (ensure (k r) fin) w1) as [[w2 t] out].
      destruct (run h (k r) w1) as [[w3 t3] out3]; simpl in *.
      exact IH.
  Qed.

  (** ** Programs that only make calls of one kind *)

Lemma calls_only_trace P A (p : prog A) w :
    calls_only P p -> Forall P (calls (trace_of h p w)).
  Proof.
    revert w; induction p as [a|e|c k IH]; intros w Hp.
    - constructor.
    - constructor.
    - destruct Hp as [Hc Hk].
      unfold trace_of in *; simpl.
      destruct (h c w) as [w1 r].
      specialize (IH r w1 (Hk r)).
      destruct (run h (k r) w1) as [[w2 t] out]; simpl in *.
      constructor; assumption.
  Qed.

End ControlLaws.

Lemma calls_only_bind P A B (p : prog A) (f : A -> prog B) :
  calls_only P p -> (forall a, calls_only P (f a)) -> calls_only P (bind p f).
Proof.
  intros Hp Hf; induction p as [a|e|c k IH]; simpl in *; auto.
  destruct Hp as [Hc Hk]; split; auto.
Qed.

Lemma calls_only_call_ (P : call -> Prop) c : P c -> calls_only P (call_ c).
Proof.
  intro Hc; split; [exact Hc|]; intros [x|e]; exact I.
Qed.

Lemma calls_only_lift P A (r : result A) : calls_only P (lift r).
Proof. destruct r; exact I. Qed.

Lemma calls_only_try_except P A (p : prog A) (hd : exn -> prog A) :
  calls_only P p -> (forall e, calls_only P (hd e)) -> calls_only P (try_except p hd).
Proof.
  intros Hp Hh; induction p as [a|e|c k IH]; simpl in *; auto.
  destruct Hp as [Hc Hk]; split; auto.
Qed.

Lemma calls_only_ensure P A (p : prog A) (fin : prog unit) :
  calls_only P p -> calls_only P fin -> calls_only P (ensure p fin).
Proof.
  intros Hp Hf; induction p as [a|e|c k IH]; simpl in *.
  - apply calls_only_bind; [exact Hf | intros; exact I].
  - apply calls_only_bind; [exact Hf | intros; exact I].
  - destruct Hp as [Hc Hk]; split; auto.
Qed.

Lemma calls_only_for_each P X S (l : list X) (body : X -> S -> prog S) s :
  (forall x s', calls_only P (body x s')) -> calls_only P (for_each l body s).
Proof.
  intro Hb; revert s; induction l as [|x rest IH]; intro s; simpl.
  - exact I.
  - apply calls_only_bind; [apply Hb | intros; apply IH].
Qed.

Lemma calls_only_weaken (P Q : call -> Prop) A (p : prog A) :
  (forall c, P c -> Q c) -> calls_only P p -> calls_only Q p.
Proof.
  intros HPQ; induction p as [a|e|c k IH]; simpl; auto.
  intros [Hc Hk]; split; auto.
Qed.

(** Walks a program built from the operators above, by the shape of the
    program, leaving the side condition of every call as a goal. *)
Ltac walk_step :=
  lazymatch goal with
  | |- calls_only _ (Ret _) => exact I
  | |- calls_only _ (Raise _) => exact I
  | |- calls_only _ (bind _ _) => apply calls_only_bind; [|intros]
  | |- calls_only _ (call_ _) => apply calls_only_call_
  | |- calls_only _ (lift _) => apply calls_only_lift
  | |- calls_only _ (for_each _ _ _) => apply calls_only_for_each; intros
  | |- calls_only _ (ensure _ _) => apply calls_only_ensure
  | |- calls_only _ (try_except _ _) => apply calls_only_try_except; [|intros]
  | |- calls_only _ (if ?b then _ else _) => destruct b
  | |- calls_only _ (match ?x with _ => _ end) => destruct x
  end.

Ltac walk_calls := repeat walk_step.

(** ** Single-process runs *)

Create HintDb calls.

Lemma aggregate_losses_single G d :
  num_gpus G = 1 -> aggregate_losses G d = Ret d.
Proof. intro H1; unfold aggregate_losses; rewrite H1; reflexivity. Qed.

Lemma aggregate_losses_no_reduce G d :
  num_gpus G = 1 -> calls_only not_reduce (aggregate_losses G d).
Proof. intro H1; rewrite aggregate_losses_single by exact H1; exact I. Qed.

Lemma direct_pass_no_reduce m v : calls_only not_reduce (direct_pass m v).
Proof. unfold direct_pass; walk_calls; reflexivity. Qed.

Lemma optimize_no_reduce G m scaler scheduler d :
  calls_only not_reduce (optimize G m scaler scheduler d).
Proof. unfold optimize; walk_calls; reflexivity. Qed.

Lemma train_rank0_no_reduce G m gs epoch d v :
  calls_only not_reduce (train_rank0 G m gs epoch d v).
Proof.
  unfold train_rank0; walk_calls;
    try reflexivity; apply direct_pass_no_reduce.
Qed.

#[local] Hint Resolve aggregate_losses_no_reduce direct_pass_no_reduce
  optimize_no_reduce train_rank0_no_reduce : calls.

Lemma train_step_no_reduce G m scaler scheduler epoch data s :
  num_gpus G = 1 ->
  calls_only not_reduce (train_step G m scaler scheduler epoch data s).
Proof.
  intro H1; unfold train_step, with_autocast; walk_calls;
    try reflexivity; auto with calls.
Qed.

Lemma train_no_reduce G loader m scheduler gs epoch :
  num_gpus G = 1 ->
  calls_only not_reduce (train G loader m scheduler gs epoch).
Proof.
  intro H1; unfold train; walk_calls;
    try reflexivity; apply train_step_no_reduce; exact H1.
Qed.

Lemma eval_step_no_reduce G m data s :
  num_gpus G = 1 -> calls_only not_reduce (eval_step G m data s).
Proof.
  intro H1; unfold eval_step; walk_calls; try reflexivity; auto with calls.
Qed.

Lemma test_run_no_reduce G m gs epoch :
  calls_only not_reduce (test_run G m gs epoch).
Proof.
  unfold test_run, test_speaker, randrange, test_sentence_loop, iteration,
    synthesize_sentence, report_sentence_error.
  walk_calls; reflexivity.
Qed.

Lemma evaluate_no_reduce G loader m gs epoch :
  num_gpus G = 1 ->
  calls_only not_reduce (evaluate G loader m gs epoch).
Proof.
  intro H1; unfold evaluate, with_no_grad, eval_pass, eval_rank0; walk_calls;
    try reflexivity; auto using eval_step_no_reduce, test_run_no_reduce with calls.
Qed.

Lemma setup_loader_no_sampler G is_val :
  num_gpus G = 1 -> calls_only no_sampler (setup_loader G is_val).
Proof.
  intro H1; unfold setup_loader; rewrite H1.
  change (1 >? 1) with false; cbv iota.
  destruct (is_val && negb (run_eval (config G)))%bool; [exact I|].
  apply calls_only_bind; [apply calls_only_call_; exact I|].
  intros [dataset len].
  apply calls_only_bind; [walk_calls; exact I|intros _].
  apply calls_only_bind; [walk_calls; exact I|intros _].
  cbn [bind].
  walk_calls; reflexivity.
Qed.

Section Returns.
  Variable W : Type.
  Variable h : handler W.

Lemma returns_only_outcome A (Q : A -> Prop) (p : prog A) w a :
    returns_only Q p -> outcome h p w = Ok a -> Q a.
  Proof.
    revert w; induction p as [x|e|c k IH]; intros w Hp Ho.
    - unfold outcome in Ho; simpl in Ho; inversion Ho; subst; exact Hp.
    - discriminate.
    - unfold outcome in *; simpl in Ho.
      destruct (h c w) as [w1 r].
      specialize (IH r w1 (Hp r)).
      destruct (run h (k r) w1) as [[w2 t] out]; simpl in *; auto.
  Qed.
End Returns.

Lemma returns_only_bind A B (R : A -> Prop) (Q : B -> Prop) (p : prog A) (f : A -> prog B) :
  returns_only R p -> (forall a, R a -> returns_only Q (f a)) ->
  returns_only Q (bind p f).
Proof.
  intros Hp Hf; induction p as [a|e|c k IH]; simpl in *; auto.
Qed.

Lemma returns_only_any A (p : prog A) : returns_only (fun _ => True) p.
Proof. induction p; simpl; auto. Qed.

Lemma setup_loader_sampler_none G is_val :
  num_gpus G = 1 ->
  returns_only (fun l => forall d, l = Some d -> loader_sampler d = None)
               (setup_loader G is_val).
Proof.
  intro H1; unfold setup_loader; rewrite H1.
  change (1 >? 1) with false; cbv iota.
  destruct (is_val && negb (run_eval (config G)))%bool; [simpl; discriminate|].
  eapply returns_only_bind; [apply returns_only_any|].
  intros [dataset len] _.
  eapply returns_only_bind; [apply returns_only_any|intros _ _].
  eapply returns_only_bind; [apply returns_only_any|intros _ _].
  cbn [bind].
  eapply returns_only_bind; [apply returns_only_any|intros _ _].
  simpl; intros d Hd; inversion Hd; reflexivity.
Qed.

(** C3.  In a single-process run ([num_gpus = 1]), whatever the
    collaborators do: [setup_loader] never builds a [DistributedSampler],
    every [DataLoader] it constructs is given [sampler=None], and the
    loader it returns has no sampler; and neither [train] nor [evaluate]
    ever calls [reduce_tensor]. *)
Theorem single_process_no_collectives W (h : handler W) G :
  num_gpus G = 1 ->
  (forall is_val w,
     Forall no_sampler (calls (trace_of h (setup_loader G is_val) w)) /\
     (forall l, outcome h (setup_loader G is_val) w = Ok (Some l) ->
                loader_sampler l = None)) /\
  (forall loader m scheduler global_step epoch w,
     Forall not_reduce (calls (trace_of h (train G loader m scheduler global_step epoch) w))) /\
  (forall loader m global_step epoch w,
     Forall not_reduce (calls (trace_of h (evaluate G loader m global_step epoch) w))).
Proof.
  intro H1; repeat split.
  - apply calls_only_trace, setup_loader_no_sampler, H1.
  - intros l Ho.
    exact (returns_only_outcome h _ _ w (@setup_loader_sampler_none G is_val H1) Ho l eq_refl).
  - intros; apply calls_only_trace, train_no_reduce, H1.
  - intros; apply calls_only_trace, evaluate_no_reduce, H1.
Qed.

(** ** The optimisation calls of a training step *)

Lemma optim_calls_app t1 t2 : optim_calls (t1 ++ t2) = optim_calls t1 ++ optim_calls t2.
Proof. unfold optim_calls, calls; rewrite map_app, filter_app; reflexivity. Qed.

Lemma optim_calls_none t : Forall not_optim (calls t) -> optim_calls t = [].
Proof.
  unfold optim_calls; induction (calls t) as [|c l IH]; intro H; [reflexivity|].
  inversion H as [|? ? Hc Hl]; subst; simpl; rewrite Hc; auto.
Qed.

Lemma prefix_of_nil A (l : list A) : prefix_of [] l.
Proof. exists l; reflexivity. Qed.

Lemma prefix_of_refl A (l : list A) : prefix_of l l.
Proof. exists []; rewrite app_nil_r; reflexivity. Qed.

Section Optimizes.
  Variable W : Type.
  Variable h : handler W.
  Variable G : Globals.
  Variable m : model.

  (** Calls that are not optimisation calls may come first ... *)
Lemma optimizes_after A B (p : prog A) (f : A -> prog B) :
    calls_only not_optim p ->
    (forall a, optimizes h G m (f a)) ->
    optimizes h G m (bind p f).
  Proof.
    intros Hp Hf w.
    rewrite trace_bind, outcome_bind.
    pose proof (optim_calls_none _ (@calls_only_trace W h _ _ p w Hp)) as Hnil.
    destruct (outcome h p w) as [a|e].
    - destruct (Hf a (world_after h p w)) as (loss & scaled & Hpre & Hok).
      exists loss, scaled.
      rewrite optim_calls_app, Hnil; simpl; auto.
    - exists (scalar 0), (scalar 0); rewrite Hnil; split.
      + apply prefix_of_nil.
      + discriminate.
  Qed.

  (** ... and may follow. *)
Lemma optimizes_before A B (p : prog A) (f : A -> prog B) :
    optimizes h G m p ->
    (forall a, calls_only not_optim (f a)) ->
    optimizes h G m (bind p f).
  Proof.
    intros Hp Hf w.
    rewrite trace_bind, outcome_bind.
    destruct (Hp w) as (loss & scaled & Hpre & Hok).
    exists loss, scaled.
    destruct (outcome h p w) as [a|e].
    - pose proof (optim_calls_none _ (@calls_only_trace W h _ _ (f a) (world_after h p w) (Hf a)))
        as Hnil.
      rewrite optim_calls_app, Hnil, app_nil_r; split; auto.
    - split; [exact Hpre | discriminate].
  Qed.

  (** Runs the calls of a straight-line program one after the other. *)
Ltac run_calls :=
    repeat (simpl;
            match goal with
            | |- context [h ?c ?w] => destruct (h c w) as [? [?|?]]
            end);
    simpl.

Ltac close_prefix :=
    split;
    [ first [ eexists; reflexivity | apply prefix_of_nil ]
    | first [ reflexivity | discriminate ] ].

Lemma optimize_optimizes scaler scheduler loss_dict :
    optimizes h G m (optimize G m scaler scheduler loss_dict).
  Proof.
    intro w.
    unfold optimize, expected_optim, optim_calls, calls, trace_of, outcome.
    set (found := rbind (dict_getitem loss_dict "loss") as_tensor).
    exists (match found with Ok t => t | Err _ => scalar 0 end).
    exists (match found with
            | Ok t => match snd (h (ScalerScale t) w) with
                      | Ok t' => t'
                      | Err _ => scalar 0
                      end
            | Err _ => scalar 0
            end).
    destruct (mixed_precision (config G)), (noam_schedule (config G)),
      scaler as [[]|], scheduler as [[]|], found as [loss|e];
      simpl; try close_prefix; run_calls; close_prefix.
  Qed.

End Optimizes.

Lemma direct_pass_not_optim m v : calls_only not_optim (direct_pass m v).
Proof. unfold direct_pass; walk_calls; reflexivity. Qed.

Lemma aggregate_losses_not_optim G d : calls_only not_optim (aggregate_losses G d).
Proof. unfold aggregate_losses, reduce_entry; walk_calls; reflexivity. Qed.

Lemma train_rank0_not_optim G m gs epoch d v :
  calls_only not_optim (train_rank0 G m gs epoch d v).
Proof.
  unfold train_rank0; walk_calls; try reflexivity; apply direct_pass_not_optim.
Qed.

(** C1.  In every training step, whatever the collaborators do, the
    optimisation calls made are the beginning of one fixed sequence, and
    the whole of it when the step runs to its end.  Without mixed
    precision: [backward], [clip_grad_norm_(.., config.grad_clip)],
    [optimizer.step].  With mixed precision: [scaler.scale], [backward],
    [scaler.unscale_], [clip_grad_norm_(.., config.grad_clip)],
    [scaler.step(optimizer)], [scaler.update].  In both cases
    [scheduler.step] follows, exactly when [config.noam_schedule] is set.
    So the gradient norm is clipped once per step, after the backward
    pass (and after unscaling) and before the optimizer step, and the
    scheduler steps last. *)
Theorem train_step_optimization_order W (h : handler W) G m scaler scheduler epoch data s w :
  exists loss scaled,
    prefix_of (optim_calls (trace_of h (train_step G m scaler scheduler epoch data s) w))
              (expected_optim G m loss scaled) /\
    (is_ok (outcome h (train_step G m scaler scheduler epoch data s) w) = true ->
     optim_calls (trace_of h (train_step G m scaler scheduler epoch data s) w)
     = expected_optim G m loss scaled).
Proof.
  revert w; change (optimizes h G m (train_step G m scaler scheduler epoch data s)).
  unfold train_step.
  apply optimizes_after; [walk_calls; reflexivity | intros start_time].
  apply optimizes_after; [walk_calls | intros d].
  apply optimizes_after; [walk_calls; reflexivity | intros now].
  apply optimizes_after; [walk_calls; reflexivity | intros _].
  apply optimizes_after;
    [unfold with_autocast; walk_calls; reflexivity | intros [o loss_dict]].
  apply optimizes_before; [apply optimize_optimizes | intros _].
  walk_calls; try reflexivity;
    first [apply aggregate_losses_not_optim | apply train_rank0_not_optim].
Qed.

Lemma expected_optim_clips_once G m loss scaled :
  length (filter is_clip (expected_optim G m loss scaled)) = 1%nat.
Proof.
  unfold expected_optim.
  destruct (mixed_precision (config G)), (noam_schedule (config G)); reflexivity.
Qed.

(** ** Inverting a run that returned *)

Section Inversion.
  Variable W : Type.
  Variable h : handler W.

Lemma bind_ok_inv A B (p : prog A) (f : A -> prog B) w b :
    outcome h (bind p f) w = Ok b ->
    exists a,
      outcome h p w = Ok a /\
      outcome h (f a) (world_after h p w) = Ok b /\
      trace_of h (bind p f) w = trace_of h p w ++ trace_of h (f a) (world_after h p w).
  Proof.
    rewrite outcome_bind, trace_bind.
    destruct (outcome h p w) as [a|e]; [|discriminate].
    intro Hf; exists a; auto.
  Qed.

Lemma call_ok_inv c w x :
    outcome h (call_ c) w = Ok x -> trace_of h (call_ c) w = [Ev c (Ok x)].
  Proof.
    rewrite outcome_call_, trace_call_; intro Hx; rewrite Hx; reflexivity.
  Qed.

Lemma ensure_ok_inv A (p : prog A) fin w a :
    outcome h (ensure p fin) w = Ok a ->
    outcome h p w = Ok a /\ outcome h fin (world_after h p w) = Ok tt.
  Proof.
    rewrite outcome_ensure.
    destruct (outcome h fin (world_after h p w)) as [[]|e]; [auto | discriminate].
  Qed.

End Inversion.

(** Replaces the trace of a call known to have returned. *)
Ltac called H :=
  match type of H with
  | outcome ?h (call_ ?c) ?w = Ok ?x =>
      let E := fresh "E" in
      pose proof (@call_ok_inv _ h c w x H) as E;
      cbn [ret] in E |- *; rewrite E; clear E
  end.

(** ** [data_depended_init] *)

Section DataDependedInit.
  Variable W : Type.
  Variable h : handler W.

Lemma set_ddi_flows_calls flows b w :
    outcome h (set_ddi_flows flows b) w = Ok tt ->
    calls (trace_of h (set_ddi_flows flows b) w)
    = map (fun f => SetDdi f b) (filter has_set_ddi flows).
  Proof.
    unfold set_ddi_flows; revert w; induction flows as [|f rest IH]; intros w Ho.
    - reflexivity.
    - simpl for_each in *; simpl filter.
      destruct (has_set_ddi f);
        apply bind_ok_inv in Ho; destruct Ho as ([] & Hf & Hrest & Ht);
        rewrite Ht; unfold calls in *; rewrite map_app, (IH _ Hrest).
      + called Hf; reflexivity.
      + reflexivity.
  Qed.

Lemma set_ddi_model_calls m b w :
    outcome h (set_ddi_model m b) w = Ok tt ->
    calls (trace_of h (set_ddi_model m b) w) = set_ddi_calls m b.
  Proof.
    unfold set_ddi_model, set_ddi_calls; destruct m as [net|net]; simpl;
      apply set_ddi_flows_calls.
  Qed.

  (** The warm-up loop makes at most [data_dep_init_steps + 1] forward
      passes. *)
Lemma ddi_loop_forward_bound G m batches num_iter w :
    num_iter <= data_dep_init_steps (config G) ->
    (forward_passes (trace_of h (ddi_loop G m batches num_iter) w)
     <= Z.to_nat (data_dep_init_steps (config G) - num_iter) + 1)%nat.
  Proof.
    revert num_iter w; induction batches as [|data rest IH]; intros n w Hn.
    - unfold forward_passes; simpl; lia.
    - cbn [ddi_loop]. unfold forward_passes, calls in *.
      rewrite trace_bind, trace_lift, outcome_lift, world_lift.
      destruct (format_data G data) as [d|e]; [|simpl; lia].
      rewrite app_nil_l, trace_bind, trace_call_, outcome_call_, world_call_.
      destruct (h _ w) as [w1 [o|e]]; simpl snd; simpl fst; cbv iota; [|simpl; lia].
      rewrite map_app, filter_app, length_app; simpl.
      destruct (n =? data_dep_init_steps (config G)) eqn:Hb.
      + unfold trace_of; simpl; lia.
      + apply Z.eqb_neq in Hb.
        specialize (IH (n + 1) w1 ltac:(lia)).
        replace (Z.to_nat (data_dep_init_steps (config G) - n))
          with (S (Z.to_nat (data_dep_init_steps (config G) - (n + 1)))) by lia.
        lia.
  Qed.

Lemma warmup_forward_bound G loader m w :
    0 <= data_dep_init_steps (config G) ->
    (forward_passes (trace_of h (batches <- batches_of loader ;; ddi_loop G m batches 0) w)
     <= Z.to_nat (data_dep_init_steps (config G)) + 1)%nat.
  Proof.
    intro Hs; rewrite trace_bind.
    assert (Hb : forward_passes (trace_of h (batches_of loader) w) = 0%nat).
    { destruct loader as [l|]; [|reflexivity].
      unfold batches_of, forward_passes, trace_of, call_; simpl.
      destruct (h (IterLoader l) w) as [w1 [x|e]]; reflexivity. }
    destruct (outcome h (batches_of loader) w) as [batches|e].
    - unfold forward_passes, calls in *.
      rewrite map_app, filter_app, length_app, Hb.
      pose proof (ddi_loop_forward_bound G m batches
                    (world_after h (batches_of loader) w) (num_iter := 0) Hs) as Hl.
      unfold forward_passes, calls in Hl.
      rewrite Z.sub_0_r in Hl; exact Hl.
    - rewrite Hb; lia.
  Qed.

  (** Whenever [data_depended_init] returns, it returns the model it was
      given, having enabled the flag on every flow that supports
      [set_ddi] before the warm-up and disabled it on every such flow
      after; the warm-up in between runs under [no_grad] and makes at
      most [data_dep_init_steps + 1] forward passes. *)
Lemma data_depended_init_flags G loader m w m' :
    0 <= data_dep_init_steps (config G) ->
    outcome h (data_depended_init G loader m) w = Ok m' ->
    m' = m /\
    exists enable disable warmup,
      calls (trace_of h (data_depended_init G loader m) w)
      = calls enable
        ++ [ModelTrain m; Print [Str " > Data depended initialization ... "]; NoGradEnter]
        ++ calls warmup
        ++ [NoGradExit]
        ++ calls disable /\
      calls enable = set_ddi_calls m true /\
      calls disable = set_ddi_calls m false /\
      (forward_passes warmup <= Z.to_nat (data_dep_init_steps (config G)) + 1)%nat.
  Proof.
    intros Hs Ho; unfold data_depended_init, with_no_grad in *.
    apply bind_ok_inv in Ho; destruct Ho as ([] & Hon & Ho & T1); rewrite T1; clear T1.
    apply bind_ok_inv in Ho; destruct Ho as ([] & Htrain & Ho & T2); rewrite T2; clear T2.
    apply bind_ok_inv in Ho; destruct Ho as ([] & Hprint & Ho & T3); rewrite T3; clear T3.
    apply bind_ok_inv in Ho; destruct Ho as ([] & Hwarm & Ho & T4); rewrite T4; clear T4.
    apply bind_ok_inv in Ho; destruct Ho as ([] & Hoff & Ho & T5); rewrite T5; clear T5.
    apply bind_ok_inv in Hwarm; destruct Hwarm as ([] & Henter & Hwarm & T6);
      rewrite T6; clear T6.
    rewrite trace_ensure.
    apply ensure_ok_inv in Hwarm; destruct Hwarm as [Hbody Hexit].
    called Htrain; called Hprint; called Henter; called Hexit.
    unfold outcome in Ho; simpl in Ho; inversion Ho; subst m'.
    split; [reflexivity|].
    match goal with
    | |- context [trace_of h (set_ddi_model m true) ?w1 ++ _ ++ _ ++
                  (_ ++ trace_of h ?body ?w2 ++ _) ++ trace_of h (set_ddi_model m false) ?w3 ++ _] =>
        exists (trace_of h (set_ddi_model m true) w1),
               (trace_of h (set_ddi_model m false) w3),
               (trace_of h body w2)
    end.
    repeat split.
    - unfold calls; repeat rewrite map_app; simpl.
      unfold trace_of at 5; simpl. rewrite app_nil_r.
      repeat rewrite <- app_assoc; reflexivity.
    - apply set_ddi_model_calls; exact Hon.
    - apply set_ddi_model_calls; exact Hoff.
    - apply warmup_forward_bound; exact Hs.
  Qed.

End DataDependedInit.

(** C2 (the code departs from the claim).  With
    [config.data_dep_init_steps = 1] and a loader that yields three
    batches, [data_depended_init] makes two warm-up forward passes: the
    loop leaves only after the pass on which [num_iter] has reached the
    configured number, so it runs one pass more than configured. *)
Theorem data_depended_init_extra_pass :
  data_dep_init_steps (config sample_globals) = 1 /\
  outcome (quiet three_batches)
    (data_depended_init sample_globals (Some sample_loader) (Plain sample_network)) tt
  = Ok (Plain sample_network) /\
  forward_passes
    (trace_of (quiet three_batches)
       (data_depended_init sample_globals (Some sample_loader) (Plain sample_network)) tt)
  = 2%nat.
Proof. repeat split; vm_compute; reflexivity. Qed.

(** ** Restoring a checkpoint *)

Section RestoreCheckpoint.
  Variable W : Type.
  Variable h : handler W.

Lemma partial_load_trace ckpt w :
    (exists r rest,
       trace_of h (partial_load ckpt) w
       = Ev (Print [Str " > Partial model initialization."]) r :: rest) /\
    (outcome h (partial_load ckpt) w = Ok tt ->
     exists model_dict compatible,
       trace_of h (partial_load ckpt) w
       = [Ev (Print [Str " > Partial model initialization."]) (Ok tt);
          Ev ModelStateDict (Ok model_dict);
          Ev (SetInitDict model_dict (ck_model ckpt)) (Ok compatible);
          Ev (ModelLoadStateDict compatible) (Ok tt)]).
  Proof.
    unfold partial_load, trace_of, outcome; simpl.
    destruct (h (Print [Str " > Partial model initialization."]) w) as [w1 [[]|e1]];
      simpl; [|split; [eauto | discriminate]].
    destruct (h ModelStateDict w1) as [w2 [d|e2]];
      simpl; [|split; [eauto | discriminate]].
    destruct (h (SetInitDict d (ck_model ckpt)) w2) as [w3 [d'|e3]];
      simpl; [|split; [eauto | discriminate]].
    destruct (h (ModelLoadStateDict d') w3) as [w4 [[]|e4]];
      simpl; split; eauto; discriminate.
  Qed.

Lemma restore_from_step G ckpt w G' :
    outcome h (restore_from G ckpt) w = Ok G' ->
    restore_step (args G') = ck_step ckpt.
  Proof.
    unfold restore_from; intro Ho.
    apply bind_ok_inv in Ho; destruct Ho as (_ & _ & Ho & _).
    apply bind_ok_inv in Ho; destruct Ho as (_ & _ & Ho & _).
    apply bind_ok_inv in Ho; destruct Ho as (_ & _ & Ho & _).
    unfold outcome in Ho; simpl in Ho; inversion Ho; reflexivity.
  Qed.

End RestoreCheckpoint.


(** ** The test sentences *)

Section TestSentences.
  Variable W : Type.
  Variable h : handler W.
  Variables (G : Globals) (m : model) (global_step : Z).
  Variables (speaker_id : option Z) (speaker_embedding : option (list pyfloat)).

Let style_wav := style_wav_for_test (config G).







End TestSentences.


(** ** Paths of the test sentences *)










(** ** What the test-sentence loop saves *)

Section Saves.
Variable W : Type.
Variable h : handler W.
Variables (G : Globals) (m : model) (global_step : Z).
Variables (speaker_id : option Z) (speaker_embedding : option (list pyfloat)).






End Saves.

(** ** Selecting calls of a trace *)

Lemma select_app f t1 t2 : select f (t1 ++ t2) = select f t1 ++ select f t2.
Proof. unfold select, calls; rewrite map_app, filter_app; reflexivity. Qed.

Lemma select_none f t : Forall (fun c => f c = false) (calls t) -> select f t = [].
Proof.
  unfold select; induction (calls t) as [|c l IH]; intro H; [reflexivity|].
  inversion H as [|? ? Hc Hl]; subst; simpl; rewrite Hc; auto.
Qed.

Lemma select_quiet W (h : handler W) f A (p : prog A) w :
  calls_only (fun c => f c = false) p -> select f (trace_of h p w) = [].
Proof. intro Hp; apply select_none, calls_only_trace, Hp. Qed.

Section Evaluate.
Variable W : Type.
Variable h : handler W.
Variables (G : Globals) (m : model) (global_step : Z).




End Evaluate.

(** Splits a sequence that returned into its first step and the rest. *)
Ltac split_bind H T :=
  apply bind_ok_inv in H;
  let a := fresh "a" in
  let H1 := fresh "Hstep" in
  destruct H as (a & H1 & H & T).

Section EvaluateTests.
Variable W : Type.
Variable h : handler W.
Variables (G : Globals) (m : model) (global_step : Z).

Lemma sentences_source_weaken t1 t2 t3 sentences :
  sentences_source G t2 sentences -> sentences_source G (t1 ++ t2 ++ t3) sentences.
Proof.
  unfold sentences_source.
  destruct (test_sentences_file (config G)) as [[|c f]|]; auto.
  intros (lines & Hin & Hs); exists lines; split; [|exact Hs].
  apply in_or_app; right; apply in_or_app; left; exact Hin.
Qed.


End EvaluateTests.

(** ** [evaluate] as a whole *)




Ltac in_app :=
  match goal with
  | H : In ?e ?t |- In ?e ?t => exact H
  | |- In _ (_ ++ _) => apply in_or_app; first [left; in_app | right; in_app]
  | |- In _ (_ :: _) => first [left; reflexivity | right; in_app]
  end.

Section EvaluateWhole.
Variable W : Type.
Variable h : handler W.
Variables (G : Globals) (loader : option data_loader) (m : model).
Variables (global_step epoch : Z).

Lemma eval_pass_no_test :
  calls_only (fun c => is_test_call c = false) (eval_pass G loader m global_step).
Proof.
  unfold eval_pass, eval_step, eval_rank0, direct_pass, aggregate_losses, reduce_entry.
  walk_calls; reflexivity.
Qed.




End EvaluateWhole.


(** ** The speaker of the test sentences *)

Lemma returns_only_ensure A (Q : A -> Prop) (p : prog A) fin :
  returns_only Q p -> returns_only Q (ensure p fin).
Proof.
  intro Hp; induction p as [a|e|c k IH]; simpl in *.
  - eapply returns_only_bind; [apply returns_only_any | intros; exact Hp].
  - eapply returns_only_bind; [apply returns_only_any | intros; exact I].
  - intro r; apply IH, Hp.
Qed.

Section TestSpeaker.
Variable W : Type.
Variable h : handler W.
Variable G : Globals.
Variable mapping : dict speaker_entry.
Hypothesis Huse : use_speaker_embedding (config G) = true.
Hypothesis Hfile : use_external_speaker_embedding_file (config G) = true.
Hypothesis Hmap : speaker_mapping G = Some mapping.

Lemma test_speaker_choice w sid semb :
  outcome h (test_speaker G) w = Ok (sid, semb) ->
  sid = None /\
  exists i key fields embedding,
    0 <= i < Z.of_nat (length mapping) - 1 /\
    nth_error (dict_keys mapping) (Z.to_nat i) = Some key /\
    dict_get mapping key = Some (SpeakerRecord fields) /\
    dict_get fields "embedding" = Some embedding /\
    semb = Some embedding.
Proof.
  unfold test_speaker; rewrite Huse, Hfile, Hmap; simpl lift.
  cbn [bind]; unfold randrange.
  destruct (Z.of_nat (length mapping) - 1 <=? 0) eqn:Hn; [discriminate|].
  apply Z.leb_gt in Hn.
  intro Ho.
  split_bind Ho T1; rename a into i.
  split_bind Hstep T0; rename a into r.
  unfold outcome in Hstep; simpl in Hstep; inversion Hstep; subst i; clear Hstep.
  pose proof (Z.mod_pos_bound r _ Hn) as Hi.
  split_bind Ho T2; rename a into key.
  rewrite outcome_lift in Hstep; unfold list_getitem in Hstep.
  destruct (r mod (Z.of_nat (length mapping) - 1) <? 0) eqn:Hneg;
    [apply Z.ltb_lt in Hneg; lia|].
  rewrite Hneg in Hstep.
  destruct (nth_error (dict_keys mapping) (Z.to_nat (r mod (Z.of_nat (length mapping) - 1))))
    as [k|] eqn:Hk; [|discriminate].
  inversion Hstep; subst k; clear Hstep.
  split_bind Ho T3; rename a into entry.
  rewrite outcome_lift in Hstep; unfold dict_getitem in Hstep.
  destruct (dict_get mapping key) as [en|] eqn:Hen; [|discriminate].
  inversion Hstep; subst en; clear Hstep.
  split_bind Ho T4; rename a into emb.
  rewrite outcome_lift in Hstep.
  destruct entry as [id|fields]; [discriminate|].
  unfold dict_getitem in Hstep.
  destruct (dict_get fields "embedding") as [em|] eqn:Hem; [|discriminate].
  inversion Hstep; subst em; clear Hstep.
  unfold outcome in Ho; simpl in Ho; inversion Ho; subst.
  split; [reflexivity|].
  exists (r mod (Z.of_nat (length mapping) - 1)), key, fields, emb; auto.
Qed.

Lemma test_speaker_single :
  length mapping = 1%nat -> test_speaker G = Raise (Exception "ValueError").
Proof.
  intro Hone; unfold test_speaker; rewrite Huse, Hfile, Hmap.
  cbn [lift require bind]; rewrite Hone; reflexivity.
Qed.

Lemma test_run_aborts m global_step epoch :
  length mapping = 1%nat ->
  test_condition G epoch ->
  returns_only (fun _ => False) (test_run G m global_step epoch) /\
  calls_only (fun c => is_synthesis c = false) (test_run G m global_step epoch).
Proof.
  intros Hone [Hrank Hdelay]; unfold test_run.
  rewrite (test_speaker_single Hone).
  assert (Hc : ((rank (args G) =? 0) && (test_delay_epochs (config G) <=? epoch))%bool = true).
  { apply andb_true_intro; split; [apply Z.eqb_eq | apply Z.leb_le]; assumption. }
  rewrite Hc; cbv zeta iota; cbn [bind]; split.
  - eapply returns_only_bind; [apply returns_only_any | intros ts _].
    eapply returns_only_bind; [apply returns_only_any | intros _ _].
    exact I.
  - destruct (test_sentences_file (config G)) as [[|c f]|]; walk_calls; reflexivity.
Qed.

End TestSpeaker.

Section EvaluateAborts.
Variable G : Globals.
Variable mapping : dict speaker_entry.
Hypothesis Huse : use_speaker_embedding (config G) = true.
Hypothesis Hfile : use_external_speaker_embedding_file (config G) = true.
Hypothesis Hmap : speaker_mapping G = Some mapping.
Hypothesis Hone : length mapping = 1%nat.

Lemma evaluate_aborts loader m global_step epoch :
  test_condition G epoch ->
  returns_only (fun _ => False) (evaluate G loader m global_step epoch) /\
  calls_only (fun c => is_synthesis c = false) (evaluate G loader m global_step epoch).
Proof.
  intro Hcond.
  destruct (test_run_aborts Huse Hfile Hmap m global_step Hone Hcond) as [Hret Hcalls].
  unfold evaluate, with_no_grad; split.
  - eapply returns_only_bind; [apply returns_only_any | intros _ _].
    apply returns_only_ensure.
    eapply returns_only_bind; [apply returns_only_any | intros _ _].
    eapply returns_only_bind; [apply returns_only_any | intros _ _].
    eapply returns_only_bind; [apply returns_only_any | intros _ _].
    eapply returns_only_bind; [apply returns_only_any | intros _ _].
    eapply returns_only_bind; [exact Hret | intros _ []].
  - repeat (apply calls_only_bind; [|intros]);
      try (apply calls_only_ensure; [repeat (apply calls_only_bind; [|intros])|]);
      try (apply calls_only_call_; reflexivity).
    + eapply calls_only_weaken; [|apply eval_pass_no_test].
      intros c Hc; destruct c; try reflexivity; discriminate.
    + exact Hcalls.
Qed.

End EvaluateAborts.

(** C10.  In external speaker-embedding mode, whatever the random
    generator and the other collaborators do: when the choice of the
    test-sentence speaker returns, the key it took is at an index [i]
    with [0 <= i < len(speaker_mapping) - 1], so never the last one, and
    the embedding is the ["embedding"] field of the entry under that key.
    When the mapping holds exactly one speaker, the choice raises
    [ValueError] before any call is made; an [evaluate] that reaches the
    test sentences (rank 0, epoch at or past the delay) then never
    returns normally and never calls [synthesis]: the error is raised
    outside the [try] of the sentences. *)
Theorem test_speaker_skips_last_key W (h : handler W) G mapping :
  use_speaker_embedding (config G) = true ->
  use_external_speaker_embedding_file (config G) = true ->
  speaker_mapping G = Some mapping ->
  (forall w sid semb,
     outcome h (test_speaker G) w = Ok (sid, semb) ->
     sid = None /\
     exists i key fields embedding,
       0 <= i < Z.of_nat (length mapping) - 1 /\
       nth_error (dict_keys mapping) (Z.to_nat i) = Some key /\
       dict_get mapping key = Some (SpeakerRecord fields) /\
       dict_get fields "embedding" = Some embedding /\
       semb = Some embedding) /\
  (length mapping = 1%nat ->
   (forall w, run h (test_speaker G) w = (w, [], Err (Exception "ValueError"))) /\
   (forall loader m global_step epoch w,
      test_condition G epoch ->
      is_ok (outcome h (evaluate G loader m global_step epoch) w) = false /\
      select is_synthesis (trace_of h (evaluate G loader m global_step epoch) w) = [])).
Proof.
  intros Huse Hfile Hmap; split.
  - intros w sid semb Ho; eapply test_speaker_choice; eassumption.
  - intro Hone; split.
    + intro w; rewrite (@test_speaker_single G mapping Huse Hfile Hmap Hone); reflexivity.
    + intros loader m global_step epoch w Hcond.
      destruct (@evaluate_aborts G mapping Huse Hfile Hmap Hone loader m global_step
                  epoch Hcond) as [Hret Hcalls].
      split.
      * destruct (outcome h (evaluate G loader m global_step epoch) w) as [avg|e] eqn:Ho;
          [|reflexivity].
        exact (False_ind _ (@returns_only_outcome W h _ _ _ w avg Hret Ho)).
      * apply select_quiet; exact Hcalls.
Qed.

(** The hypotheses of C10 hold for a mapping of one speaker, where
    [evaluate] does not return. *)
Lemma test_speaker_skips_last_key_witness :
  is_ok (outcome (quiet [sample_batch])
           (evaluate external_globals None (Plain sample_network) 0 0) tt) = false.
Proof.
  destruct (@test_speaker_skips_last_key unit (quiet [sample_batch])
              external_globals one_speaker eq_refl eq_refl eq_refl) as [_ H].
  destruct (H eq_refl) as [_ H2].
  exact (proj1 (H2 None (Plain sample_network) 0 0 tt (conj eq_refl (Z.le_refl 0)))).
Defined.

(** ** The entry point *)

Section ScriptEnd.
Variable W : Type.
Variable h : handler W.
Variable G : Globals.

Lemma script_interrupted w :
  outcome h (main G) w = Err KeyboardInterrupt ->
  exists r,
    snd (fst (script h G w))
    = trace_of h (main G) w ++ [Ev (RemoveExperimentFolder (OUT_PATH G)) r] /\
    (is_ok r = true -> snd (script h G w) = OsExit 0) /\
    (forall e, r = Err e -> snd (script h G w) = end_of (@Err unit e)).
Proof.
  unfold script, outcome, trace_of; intro Ho.
  destruct (run h (main G) w) as [[w1 t1] r1]; simpl in *; subst r1.
  unfold on_interrupt, call_; simpl.
  destruct (h (RemoveExperimentFolder (OUT_PATH G)) w1) as [w2 [[]|e]]; simpl.
  - eexists; split; [reflexivity|]; split; [reflexivity | discriminate].
  - eexists; split; [reflexivity|]; split; [discriminate|].
    intros e0 He; inversion He; reflexivity.
Qed.

Lemma script_failed cls w :
  outcome h (main G) w = Err (Exception cls) ->
  exists r1 rest,
    snd (fst (script h G w))
    = trace_of h (main G) w ++ Ev (RemoveExperimentFolder (OUT_PATH G)) r1 :: rest /\
    (forall e, r1 = Err e -> rest = [] /\ snd (script h G w) = end_of (@Err unit e)) /\
    (is_ok r1 = true ->
     exists r2,
       rest = [Ev TracebackPrintExc r2] /\
       (is_ok r2 = true -> snd (script h G w) = SysExit 1) /\
       (forall e, r2 = Err e -> snd (script h G w) = end_of (@Err unit e))).
Proof.
  unfold script, outcome, trace_of; intro Ho.
  destruct (run h (main G) w) as [[w1 t1] r1]; simpl in *; subst r1.
  unfold on_exception, call_; simpl.
  destruct (h (RemoveExperimentFolder (OUT_PATH G)) w1) as [w2 [[]|e]]; simpl.
  - destruct (h TracebackPrintExc w2) as [w3 [[]|e]]; simpl.
    + eexists; eexists; split; [reflexivity|]; split; [discriminate|]; intros _.
      eexists; split; [reflexivity|]; split; [reflexivity | discriminate].
    + eexists; eexists; split; [reflexivity|]; split; [discriminate|]; intros _.
      eexists; split; [reflexivity|]; split; [discriminate|].
      intros e0 He; inversion He; reflexivity.
  - eexists; eexists; split; [reflexivity|]; split; [|discriminate].
    intros e0 He; inversion He; split; reflexivity.
Qed.

Lemma script_uncaught e w :
  outcome h (main G) w = Err e ->
  e <> KeyboardInterrupt ->
  (forall cls, e <> Exception cls) ->
  snd (fst (script h G w)) = trace_of h (main G) w /\
  snd (script h G w) = end_of (@Err unit e).
Proof.
  unfold script, outcome, trace_of; intros Ho Hki Hex.
  destruct (run h (main G) w) as [[w1 t1] r1]; simpl in *; subst r1.
  destruct e as [|c| |cls]; try (split; reflexivity).
  - congruence.
  - exfalso; exact (Hex cls eq_refl).
Qed.

End ScriptEnd.

(** C7, as amended.  Whatever the collaborators do: when [main] raises
    [KeyboardInterrupt], the next and last call is
    [remove_experiment_folder(OUT_PATH)] and, when it returns, the
    process ends through [os._exit(0)], with status 0; when [main] raises
    an exception that derives from [Exception], the next calls are
    [remove_experiment_folder(OUT_PATH)] and then
    [traceback.print_exc()], and, when both return, the process ends
    through [sys.exit(1)], with status 1.  When one of these clean-up
    calls raises, no further call is made and its exception ends the
    process.  And when [main] raises anything else ([SystemExit],
    [GeneratorExit]), no call is made after [main] and that exception
    ends the process. *)
Theorem script_cleans_up_and_exits W (h : handler W) G w :
  (outcome h (main G) w = Err KeyboardInterrupt ->
   exists r,
     snd (fst (script h G w))
     = trace_of h (main G) w ++ [Ev (RemoveExperimentFolder (OUT_PATH G)) r] /\
     (is_ok r = true ->
      snd (script h G w) = OsExit 0 /\ exit_code (snd (script h G w)) = Some 0) /\
     (forall e, r = Err e -> snd (script h G w) = end_of (@Err unit e))) /\
  (forall cls,
     outcome h (main G) w = Err (Exception cls) ->
     exists r1 rest,
       snd (fst (script h G w))
       = trace_of h (main G) w ++ Ev (RemoveExperimentFolder (OUT_PATH G)) r1 :: rest /\
       (forall e, r1 = Err e -> rest = [] /\ snd (script h G w) = end_of (@Err unit e)) /\
       (is_ok r1 = true ->
        exists r2,
          rest = [Ev TracebackPrintExc r2] /\
          (is_ok r2 = true ->
           snd (script h G w) = SysExit 1 /\ exit_code (snd (script h G w)) = Some 1) /\
          (forall e, r2 = Err e -> snd (script h G w) = end_of (@Err unit e)))) /\
  (forall e,
     outcome h (main G) w = Err e ->
     e <> KeyboardInterrupt ->
     (forall cls, e <> Exception cls) ->
     snd (fst (script h G w)) = trace_of h (main G) w /\
     snd (script h G w) = end_of (@Err unit e)).
Proof.
  split; [|split].
  - intro Ho; destruct (@script_interrupted W h G w Ho) as (r & Ht & Hend & Hfail).
    exists r; split; [exact Ht|]; split; [|exact Hfail].
    intro Hr; rewrite (Hend Hr); split; reflexivity.
  - intros cls Ho;
      destruct (@script_failed W h G cls w Ho) as (r1 & rest & Ht & Hfail & Hend).
    exists r1, rest; split; [exact Ht|]; split; [exact Hfail|]; intro Hr1.
    destruct (Hend Hr1) as (r2 & Hrest & Hexit & Hfail2).
    exists r2; split; [exact Hrest|]; split; [|exact Hfail2].
    intro Hr2; rewrite (Hexit Hr2); split; reflexivity.
  - intros e Ho Hki Hex; exact (@script_uncaught W h G e w Ho Hki Hex).
Qed.

(** C7 as stated fails: an exception of [main] that is neither
    [KeyboardInterrupt] nor derived from [Exception] is not caught.  When
    a collaborator calls [sys.exit(2)], [main] raises [SystemExit], the
    script makes no [remove_experiment_folder] call and the process ends
    with status 2. *)
Lemma script_system_exit_escapes :
  outcome exiting (main sample_globals) tt = Err (SystemExit 2) /\
  SystemExit 2 <> KeyboardInterrupt /\
  select is_remove_folder (snd (fst (script exiting sample_globals tt))) = [] /\
  snd (script exiting sample_globals tt) = SysExit 2 /\
  exit_code (snd (script exiting sample_globals tt)) = Some 2.
Proof.
  repeat split; try discriminate; vm_compute; reflexivity.
Qed.

(** ** Best-model selection *)

Section BestLoss.
Variable W : Type.
Variable h : handler W.
Variable G : Globals.

Lemma in_trace_bind A B (p : prog A) (f : A -> prog B) w e :
  In e (trace_of h (bind p f) w) ->
  In e (trace_of h p w) \/
  exists a, outcome h p w = Ok a /\ In e (trace_of h (f a) (world_after h p w)).
Proof.
  rewrite trace_bind; destruct (outcome h p w) as [a|e0]; [|auto].
  intro Hin; apply in_app_or in Hin; destruct Hin; [left | right; exists a]; auto.
Qed.

Lemma not_in_quiet f A (p : prog A) w e :
  calls_only (fun c => f c = false) p ->
  In e (trace_of h p w) -> f (ev_call e) = true -> False.
Proof.
  intros Hp Hin Hf.
  pose proof (@calls_only_trace W h _ _ p w Hp) as Hall.
  rewrite Forall_forall in Hall.
  specialize (Hall (ev_call e) (in_map ev_call _ _ Hin)); simpl in Hall; congruence.
Qed.

Lemma initial_best_loss_value w b :
  outcome h (initial_best_loss G) w = Ok b ->
  if ((restore_step (args G) =? 0) || negb (truthy_str (best_path (args G))))%bool
  then b = float_inf /\ select is_torch_load (trace_of h (initial_best_loss G) w) = []
  else exists path ckpt,
         best_path (args G) = Some path /\
         In (Ev (TorchLoad path) (Ok ckpt)) (trace_of h (initial_best_loss G) w) /\
         b = ck_model_loss ckpt.
Proof.
  unfold initial_best_loss.
  destruct ((restore_step (args G) =? 0) || negb (truthy_str (best_path (args G))))%bool.
  - intro Ho; split.
    + split_bind Ho T; unfold outcome in Ho; simpl in Ho; inversion Ho; reflexivity.
    + apply select_quiet; walk_calls; reflexivity.
  - destruct (best_path (args G)) as [path|]; [|discriminate].
    intro Ho.
    split_bind Ho T1; rewrite T1; clear T1.
    apply bind_ok_inv in Ho; destruct Ho as (ckpt & Hload & Ho & T2); rewrite T2; clear T2.
    split_bind Ho T3.
    unfold outcome in Ho; simpl in Ho; inversion Ho; subst b.
    exists path, ckpt; repeat split.
    apply in_or_app; right; apply in_or_app; left.
    called Hload; left; reflexivity.
Qed.

Lemma train_never_saves_best loader m scheduler global_step epoch :
  calls_only (fun c => is_save_best c = false)
             (train G loader m scheduler global_step epoch).
Proof.
  unfold train, train_step, with_autocast, optimize, aggregate_losses, reduce_entry,
    train_rank0, direct_pass.
  walk_calls; reflexivity.
Qed.

Lemma evaluate_never_saves_best loader m global_step epoch :
  calls_only (fun c => is_save_best c = false) (evaluate G loader m global_step epoch).
Proof.
  unfold evaluate, with_no_grad, eval_pass, eval_step, eval_rank0, direct_pass,
    aggregate_losses, reduce_entry, test_run, test_speaker, randrange,
    test_sentence_loop, iteration, synthesize_sentence, report_sentence_error.
  walk_calls; reflexivity.
Qed.


End BestLoss.


(** ** The theorems on concrete runs *)

Lemma sample_batch_wf : batch_wf id_globals sample_batch.
Proof.
  split; [reflexivity|]; split.
  - intros e He; discriminate He.
  - intros _ He; discriminate He.
Qed.

(** C4 on a batch of one item in embedding-layer mode. *)
Lemma format_data_speaker_conditioning_witness :
  exists out,
    format_data id_globals sample_batch = Ok out /\
    forall t, f_speaker_c out = Some t -> batch_dim t = input_batch_size sample_batch.
Proof.
  destruct (format_data id_globals sample_batch) as [out|e] eqn:Hout;
    [|vm_compute in Hout; discriminate].
  exists out; split; [reflexivity|].
  exact (proj2 (proj2 (proj2
           (@format_data_speaker_conditioning id_globals sample_batch out
              sample_batch_wf Hout)))).
Defined.

(** C3 on a single-process run over one batch. *)
Lemma single_process_no_collectives_witness :
  Forall not_reduce
    (calls (trace_of (quiet [sample_batch])
              (train sample_globals sample_loader (Plain sample_network) (Some tt) 0 0) tt)).
Proof.
  destruct (@single_process_no_collectives unit (quiet [sample_batch]) sample_globals
              eq_refl) as (_ & Htrain & _).
  exact (Htrain sample_loader (Plain sample_network) (Some tt) 0 0 tt).
Defined.

(** C7 on a run interrupted in [main]'s first call: the folder is
    removed and the process ends with status 0. *)
Lemma script_cleans_up_and_exits_witness :
  exists r,
    snd (fst (script interrupted sample_globals tt))
    = trace_of interrupted (main sample_globals) tt
      ++ [Ev (RemoveExperimentFolder (OUT_PATH sample_globals)) r] /\
    (is_ok r = true ->
     snd (script interrupted sample_globals tt) = OsExit 0 /\
     exit_code (snd (script interrupted sample_globals tt)) = Some 0) /\
    (forall e, r = Err e ->
               snd (script interrupted sample_globals tt) = end_of (@Err unit e)).
Proof.
  exact (proj1 (@script_cleans_up_and_exits unit interrupted sample_globals tt) eq_refl).
Defined.



(** * Further properties of the script *)

(** [strip] removes the whitespace of the text around a sentence, also
    where it takes several bytes. *)
Example strip_example : strip padded_line = "Be a voice, not an echo.".
Proof. vm_compute; reflexivity. Qed.

(** ** [data_depended_init] *)

(** X1.  Whenever [data_depended_init] returns (with a non-negative
    [config.data_dep_init_steps]), it returns the model it was given, and
    its calls are, in order: [set_ddi(True)] on every decoder flow that
    has the method, [model.train()], the progress print, the warm-up
    under [torch.no_grad()], and [set_ddi(False)] on every such flow; the
    warm-up makes at most [data_dep_init_steps + 1] forward passes. *)
Theorem warmup_brackets_flags W (h : handler W) G loader m w m' :
  0 <= data_dep_init_steps (config G) ->
  outcome h (data_depended_init G loader m) w = Ok m' ->
  m' = m /\
  exists enable disable warmup,
    calls (trace_of h (data_depended_init G loader m) w)
    = calls enable
      ++ [ModelTrain m; Print [Str " > Data depended initialization ... "]; NoGradEnter]
      ++ calls warmup
      ++ [NoGradExit]
      ++ calls disable /\
    calls enable = set_ddi_calls m true /\
    calls disable = set_ddi_calls m false /\
    (forward_passes warmup <= Z.to_nat (data_dep_init_steps (config G)) + 1)%nat.
Proof.
  intros Hs Ho; eapply data_depended_init_flags; eassumption.
Qed.

(** X1 on a network with one flow that has [set_ddi] and one that has
    not, over three batches. *)
Lemma warmup_brackets_flags_witness :
  Plain sample_network = Plain sample_network /\
  exists enable disable warmup,
    calls (trace_of (quiet three_batches)
             (data_depended_init sample_globals (Some sample_loader)
                (Plain sample_network)) tt)
    = calls enable
      ++ [ModelTrain (Plain sample_network);
          Print [Str " > Data depended initialization ... "]; NoGradEnter]
      ++ calls warmup
      ++ [NoGradExit]
      ++ calls disable /\
    calls enable = set_ddi_calls (Plain sample_network) true /\
    calls disable = set_ddi_calls (Plain sample_network) false /\
    (forward_passes warmup
     <= Z.to_nat (data_dep_init_steps (config sample_globals)) + 1)%nat.
Proof.
  apply (@warmup_brackets_flags unit (quiet three_batches) sample_globals
           (Some sample_loader) (Plain sample_network) tt (Plain sample_network)).
  - vm_compute; discriminate.
  - vm_compute; reflexivity.
Defined.

Lemma set_ddi_on_only m : calls_only (fun c => is_set_ddi_off c = false) (set_ddi_model m true).
Proof.
  unfold set_ddi_model, set_ddi_flows; destruct m as [net|net]; simpl;
    walk_calls; reflexivity.
Qed.

Lemma ddi_loop_sets_nothing G m batches n :
  calls_only (fun c => is_set_ddi_off c = false) (ddi_loop G m batches n).
Proof.
  revert n; induction batches as [|data rest IH]; intro n; cbn [ddi_loop]; [exact I|].
  walk_calls; first [reflexivity | apply IH].
Qed.

(** Rewrites the run of the call [c] in world [w] in [Ho] and the goal. *)
Ltac run_of_call h c w Ho :=
  let E1 := fresh "E" in
  let E2 := fresh "E" in
  let E3 := fresh "E" in
  pose proof (@trace_call_ _ h c w) as E1;
  pose proof (@outcome_call_ _ h c w) as E2;
  pose proof (@world_call_ _ h c w) as E3;
  cbn [ret] in E1, E2, E3, Ho |- *;
  rewrite ?E1, ?E2, ?E3; rewrite ?E1, ?E2, ?E3 in Ho; clear E1 E2 E3.

Lemma set_ddi_flows_raises W (h : handler W) flows b w e :
  outcome h (set_ddi_flows flows b) w = Err e ->
  exists f pre,
    trace_of h (set_ddi_flows flows b) w = pre ++ [Ev (SetDdi f b) (Err e)].
Proof.
  unfold set_ddi_flows; revert w; induction flows as [|f rest IH]; intros w Ho.
  - discriminate Ho.
  - cbn [for_each] in *.
    rewrite outcome_bind in Ho; rewrite trace_bind.
    destruct (has_set_ddi f); cbv iota in *.
    + run_of_call h (SetDdi f b) w Ho.
      destruct (h (SetDdi f b) w) as [w1 [[]|e1]]; cbn [fst snd] in *.
      * destruct (IH _ Ho) as (f' & pre & Hpre); rewrite Hpre.
        exists f', (Ev (SetDdi f b) (Ok tt) :: pre); reflexivity.
      * inversion Ho; subst e1; exists f, []; reflexivity.
    + change (outcome h (Ret tt) w) with (@Ok unit tt) in *.
      change (trace_of h (Ret tt) w) with (@nil event).
      change (world_after h (Ret tt) w) with w in *.
      cbv iota in *; apply IH; exact Ho.
Qed.

Lemma set_ddi_model_raises W (h : handler W) m b w e :
  outcome h (set_ddi_model m b) w = Err e ->
  exists f pre,
    trace_of h (set_ddi_model m b) w = pre ++ [Ev (SetDdi f b) (Err e)].
Proof.
  unfold set_ddi_model; destruct m as [net|net]; simpl; apply set_ddi_flows_raises.
Qed.

(** X2.  [data_depended_init] has no [finally].  When it raises, either
    no [set_ddi(False)] call was made at all, or the exception is the
    one the last call, a [set_ddi(False)], raised: an exception of the
    warm-up (of [format_data], of a forward pass, of entering or leaving
    [no_grad]) leaves every flow as it was.  And when the warm-up block
    was entered, every flow that has the method had been given
    [set_ddi(True)] before: after such a failure the flags are on. *)
Theorem warmup_failure_leaves_flags_on W (h : handler W) G loader m w e :
  outcome h (data_depended_init G loader m) w = Err e ->
  (select is_set_ddi_off (trace_of h (data_depended_init G loader m) w) = [] \/
   exists f pre,
     trace_of h (data_depended_init G loader m) w = pre ++ [Ev (SetDdi f false) (Err e)]) /\
  (In (Ev NoGradEnter (Ok tt)) (trace_of h (data_depended_init G loader m) w) ->
   exists rest,
     calls (trace_of h (data_depended_init G loader m) w)
     = set_ddi_calls m true
       ++ [ModelTrain m; Print [Str " > Data depended initialization ... "]; NoGradEnter]
       ++ rest).
Proof.
  unfold data_depended_init; intro Ho.
  rewrite outcome_bind in Ho; rewrite trace_bind.
  pose proof (@select_quiet W h is_set_ddi_off _ (set_ddi_model m true) w
                (set_ddi_on_only m)) as Hon.
  assert (Hq1 : forall e0, In e0 (trace_of h (set_ddi_model m true) w) ->
                           ev_call e0 <> NoGradEnter).
  { intros e0 Hin Hc.
    pose proof (@calls_only_trace W h (fun c => c <> NoGradEnter) _
                  (set_ddi_model m true) w) as Hall.
    assert (Hp : calls_only (fun c => c <> NoGradEnter) (set_ddi_model m true)).
    { unfold set_ddi_model, set_ddi_flows; destruct m as [net|net]; simpl;
        walk_calls; discriminate. }
    specialize (Hall Hp); rewrite Forall_forall in Hall.
    apply (Hall (ev_call e0)); [apply in_map; exact Hin | exact Hc]. }
  destruct (outcome h (set_ddi_model m true) w) as [[]|e1] eqn:H1.
  2:{ split; [left; exact Hon|].
      intro Hin; exfalso; exact (Hq1 _ Hin eq_refl). }
  pose proof (@set_ddi_model_calls W h m true w H1) as Hcalls.
  set (w1 := world_after h (set_ddi_model m true) w) in *.
  rewrite outcome_bind in Ho; rewrite trace_bind.
  run_of_call h (ModelTrain m) w1 Ho.
  destruct (h (ModelTrain m) w1) as [w2 [[]|e2]]; cbn [fst snd] in *.
  2:{ split; [left; rewrite select_app, Hon; reflexivity|].
      intro Hin; exfalso; apply in_app_or in Hin; destruct Hin as [Hin|[Hin|[]]];
        [exact (Hq1 _ Hin eq_refl) | discriminate Hin]. }
  rewrite outcome_bind in Ho; rewrite trace_bind.
  run_of_call h (Print [Str " > Data depended initialization ... "]) w2 Ho.
  destruct (h (Print [Str " > Data depended initialization ... "]) w2)
    as [w3 [[]|e3]]; cbn [fst snd] in *.
  2:{ split; [left; rewrite select_app, Hon; reflexivity|].
      intro Hin; exfalso; apply in_app_or in Hin;
        destruct Hin as [Hin|[Hin|[Hin|[]]]];
        [exact (Hq1 _ Hin eq_refl) | discriminate Hin | discriminate Hin]. }
  rewrite outcome_bind in Ho; rewrite trace_bind.
  set (warm := with_no_grad (batches <- batches_of loader;; ddi_loop G m batches 0)) in *.
  assert (Hwarm : select is_set_ddi_off (trace_of h warm w3) = []).
  { apply select_quiet; unfold warm, with_no_grad, batches_of.
    destruct loader; walk_calls; try reflexivity; apply ddi_loop_sets_nothing. }
  assert (Hfirst : exists r rest, trace_of h warm w3 = Ev NoGradEnter r :: rest).
  { unfold warm, with_no_grad; rewrite trace_bind, trace_call_.
    destruct (outcome h (call_ NoGradEnter) w3); eexists; eexists; reflexivity. }
  destruct Hfirst as (r0 & rest0 & Hfirst).
  assert (Hshape : forall tail,
             exists rest,
               calls (trace_of h (set_ddi_model m true) w
                      ++ [Ev (ModelTrain m) (Ok tt)]
                      ++ [Ev (Print [Str " > Data depended initialization ... "]) (Ok tt)]
                      ++ trace_of h warm w3 ++ tail)
               = set_ddi_calls m true
                 ++ [ModelTrain m; Print [Str " > Data depended initialization ... "];
                     NoGradEnter] ++ rest).
  { intro tail; rewrite Hfirst; unfold calls in *.
    repeat rewrite map_app; rewrite Hcalls; cbn [map app ev_call].
    eexists; reflexivity. }
  destruct (outcome h warm w3) as [[]|e4] eqn:H4.
  - set (w4 := world_after h warm w3) in *.
    rewrite outcome_bind in Ho; rewrite trace_bind.
    destruct (outcome h (set_ddi_model m false) w4) as [[]|e5] eqn:H5;
      [discriminate Ho|].
    inversion Ho; subst e5; clear Ho.
    destruct (@set_ddi_model_raises W h m false w4 e H5) as (f & pre & Hpre).
    split.
    + right; rewrite Hpre; exists f.
      eexists; repeat rewrite app_assoc; reflexivity.
    + intros _; rewrite <- (app_nil_r (trace_of h (set_ddi_model m false) w4)).
      cbn [app] in *.
      destruct (Hshape (trace_of h (set_ddi_model m false) w4)) as (rest & Hrest).
      exists rest; rewrite app_nil_r; exact Hrest.
  - split.
    + left; repeat rewrite select_app; rewrite Hon, Hwarm; reflexivity.
    + intros _.
      destruct (Hshape []) as (rest & Hrest); rewrite app_nil_r in Hrest.
      exists rest; exact Hrest.
Qed.

(** X2 on a run whose first warm-up forward pass raises. *)
Lemma warmup_failure_leaves_flags_on_witness :
  (select is_set_ddi_off
     (trace_of (failing is_forward (Exception "RuntimeError") three_batches)
        (data_depended_init sample_globals (Some sample_loader) (Plain sample_network)) tt)
   = [] \/
   exists f pre,
     trace_of (failing is_forward (Exception "RuntimeError") three_batches)
       (data_depended_init sample_globals (Some sample_loader) (Plain sample_network)) tt
     = pre ++ [Ev (SetDdi f false) (Err (Exception "RuntimeError"))]) /\
  (In (Ev NoGradEnter (Ok tt))
      (trace_of (failing is_forward (Exception "RuntimeError") three_batches)
         (data_depended_init sample_globals (Some sample_loader) (Plain sample_network)) tt)
   ->
   exists rest,
     calls (trace_of (failing is_forward (Exception "RuntimeError") three_batches)
              (data_depended_init sample_globals (Some sample_loader)
                 (Plain sample_network)) tt)
     = set_ddi_calls (Plain sample_network) true
       ++ [ModelTrain (Plain sample_network);
           Print [Str " > Data depended initialization ... "]; NoGradEnter]
       ++ rest).
Proof.
  apply (@warmup_failure_leaves_flags_on unit
           (failing is_forward (Exception "RuntimeError") three_batches)
           sample_globals (Some sample_loader) (Plain sample_network) tt
           (Exception "RuntimeError")).
  vm_compute; reflexivity.
Defined.

(** ** [train] *)

Ltac walk_returns :=
  repeat (eapply returns_only_bind; [apply returns_only_any | intros]).

Lemma train_step_increments G m scaler scheduler epoch data s :
  returns_only (fun s' => ts_global_step s' = ts_global_step s + 1)
               (train_step G m scaler scheduler epoch data s).
Proof.
  unfold train_step.
  walk_returns.
  match goal with p : (forward_out * dict lval)%type |- _ => destruct p end.
  walk_returns; reflexivity.
Qed.

Lemma train_rest_no_zero_grad G m scaler scheduler epoch d s (fl : forward_out * dict lval)
      start_time now :
  calls_only (fun c => is_zero_grad c = false)
    (let '(o, loss_dict) := fl in
     optimize G m scaler scheduler loss_dict ;;
     call_ CurrentLr ;;
     score <- call_ (AlignmentDiagonalScore (o_alignments o) true) ;;
     let align_error := float_sub (Fin 1) score in
     let loss_dict := dict_set loss_dict "align_error" (LFloat align_error) in
     now' <- call_ TimeTime ;;
     let step_time := float_sub now' start_time in
     let epoch_time := float_add (ts_epoch_time s) step_time in
     loss_dict <- aggregate_losses G loss_dict ;;
     loss_dict <- lift (detach loss_dict) ;;
     let update_train_values :=
       dict_set (dict_set (avg_keys loss_dict) "avg_loader_time"
                          (float_sub now (ts_end_time s)))
                "avg_step_time" step_time in
     call_ (KeepAvgUpdate update_train_values) ;;
     pr <- lift (py_mod (ts_global_step s + 1) (print_step (config G))) ;;
     (when (pr =? 0) then (call_ KeepAvgValues ;; call_ (CLogger "print_train_step"))) ;;
     train_rank0 G m (ts_global_step s + 1) epoch loss_dict
       (mkStepVars (f_text_input d) (f_text_lengths d) (f_mel_input d) (f_speaker_c d)
                   (o_alignments o)) ;;
     end_time <- call_ TimeTime ;;
     Ret (mkTrainState (ts_global_step s + 1) epoch_time end_time)).
Proof.
  destruct fl as [o loss_dict].
  unfold optimize, aggregate_losses, reduce_entry, train_rank0, direct_pass.
  walk_calls; reflexivity.
Qed.

Section TrainSteps.
Variable W : Type.
Variable h : handler W.
Variables (G : Globals) (m : model) (scaler scheduler : option unit) (epoch : Z).

Lemma train_step_zero_grad data s w s' :
  outcome h (train_step G m scaler scheduler epoch data s) w = Ok s' ->
  select is_zero_grad (trace_of h (train_step G m scaler scheduler epoch data s) w)
  = [ZeroGrad].
Proof.
  unfold train_step; cbv zeta; cbn [ret]; intro Ho.
  split_bind Ho T1; rewrite T1; clear T1.
  split_bind Ho T2; rewrite T2; clear T2.
  split_bind Ho T3; rewrite T3; clear T3.
  split_bind Ho T4; rewrite T4; clear T4.
  split_bind Ho T5; rewrite T5; clear T5.
  repeat rewrite select_app.
  match goal with
  | H : outcome h (call_ ZeroGrad) _ = Ok _ |- _ => called H
  end.
  repeat (rewrite select_quiet;
          [|first [ apply calls_only_call_; reflexivity
                  | apply calls_only_lift
                  | unfold with_autocast; walk_calls; reflexivity
                  | apply train_rest_no_zero_grad ]]).
  reflexivity.
Qed.

Lemma train_loop_counts batches s w s' :
  outcome h (for_each batches (train_step G m scaler scheduler epoch) s) w = Ok s' ->
  ts_global_step s' = ts_global_step s + Z.of_nat (length batches) /\
  length (select is_zero_grad
            (trace_of h (for_each batches (train_step G m scaler scheduler epoch) s) w))
  = length batches.
Proof.
  revert s w; induction batches as [|data rest IH]; intros s w Ho.
  - unfold outcome in Ho; simpl in Ho; inversion Ho; subst; simpl; split; [lia | reflexivity].
  - cbn [for_each] in *.
    apply bind_ok_inv in Ho; destruct Ho as (s1 & Hstep & Ho & T); rewrite T; clear T.
    pose proof (@returns_only_outcome W h _ _ _ w s1
                  (train_step_increments G m scaler scheduler epoch data s) Hstep) as Hinc.
    destruct (IH _ _ Ho) as [Hgs Hlen].
    rewrite select_app, length_app, Hlen, (train_step_zero_grad _ _ _ Hstep).
    split; [rewrite Hgs, Hinc; simpl length; lia | reflexivity].
Qed.

End TrainSteps.

(** X3.  Whenever [train] returns, the step counter it returns is the
    one it was given plus the number of batches the loader yielded, and
    [optimizer.zero_grad()] was called once per batch. *)
Theorem train_counts_steps W (h : handler W) G loader m scheduler global_step epoch w
        avg global_step' :
  outcome h (train G loader m scheduler global_step epoch) w = Ok (avg, global_step') ->
  exists batches,
    In (Ev (IterLoader loader) (Ok batches))
       (trace_of h (train G loader m scheduler global_step epoch) w) /\
    global_step' = global_step + Z.of_nat (length batches) /\
    length (select is_zero_grad (trace_of h (train G loader m scheduler global_step epoch) w))
    = length batches.
Proof.
  unfold train; cbv zeta; cbn [ret]; intro Ho.
  split_bind Ho T1; rewrite T1; clear T1.
  split_bind Ho T2; rewrite T2; clear T2.
  split_bind Ho T3; rewrite T3; clear T3.
  split_bind Ho T4; rewrite T4; clear T4.
  split_bind Ho T5; rewrite T5; clear T5.
  split_bind Ho T6; rewrite T6; clear T6.
  apply bind_ok_inv in Ho; destruct Ho as (batches & Hiter & Ho & T7); rewrite T7; clear T7.
  apply bind_ok_inv in Ho; destruct Ho as (s' & Hloop & Ho & T8); rewrite T8; clear T8.
  split_bind Ho T9; rewrite T9; clear T9.
  split_bind Ho T10; rewrite T10; clear T10.
  apply bind_ok_inv in Ho; destruct Ho as (avg' & Havg & Ho & T11); rewrite T11; clear T11.
  unfold outcome in Ho; simpl in Ho; inversion Ho; subst avg' global_step'; clear Ho.
  apply train_loop_counts in Hloop; destruct Hloop as [Hgs Hlen]; simpl in Hgs.
  exists batches; split; [|split].
  - do 6 (apply in_or_app; right). apply in_or_app; left.
    called Hiter; left; reflexivity.
  - exact Hgs.
  - repeat rewrite select_app; repeat rewrite length_app; rewrite Hlen.
    repeat (rewrite select_quiet;
            [|first [ apply calls_only_call_; reflexivity
                    | walk_calls; reflexivity ]]).
    simpl; lia.
Qed.

(** X3 on a run over one batch: the counter goes from 0 to 1. *)
Lemma train_counts_steps_witness :
  exists batches,
    In (Ev (IterLoader sample_loader) (Ok batches))
       (trace_of (quiet [sample_batch])
          (train sample_globals sample_loader (Plain sample_network) (Some tt) 0 0) tt) /\
    1 = 0 + Z.of_nat (length batches) /\
    length (select is_zero_grad
              (trace_of (quiet [sample_batch])
                 (train sample_globals sample_loader (Plain sample_network) (Some tt) 0 0)
                 tt))
    = length batches.
Proof.
  apply (@train_counts_steps unit (quiet [sample_batch]) sample_globals sample_loader
           (Plain sample_network) (Some tt) 0 0 tt [("avg_loss", Fin 3)] 1).
  vm_compute; reflexivity.
Defined.

(** ** [evaluate] *)

Section EvaluateEdge.
Variable W : Type.
Variable h : handler W.
Variables (G : Globals) (m : model) (global_step : Z).

Lemma eval_pass_needs_a_batch l w :
  rank (args G) = 0 ->
  outcome h (eval_pass G (Some l) m global_step) w = Ok tt ->
  exists batches,
    In (Ev (IterLoader l) (Ok batches)) (trace_of h (eval_pass G (Some l) m global_step) w) /\
    batches <> [].
Proof.
  intros Hrank Ho; unfold eval_pass in *; cbn [ret] in *.
  apply bind_ok_inv in Ho; destruct Ho as (batches & Hiter & Ho & T1); rewrite T1; clear T1.
  exists batches; split.
  - apply in_or_app; left; called Hiter; left; reflexivity.
  - intro Hnil; subst batches; cbn [for_each bind] in Ho.
    unfold eval_rank0 in Ho; rewrite Hrank in Ho; simpl in Ho.
    unfold outcome in Ho; simpl in Ho; discriminate.
Qed.

End EvaluateEdge.

(** X4.  On rank 0, [evaluate] reads the variables of its loop after the
    loop (for the diagnostic pass), so it can only return when the
    validation loader yielded at least one batch: on an empty loader it
    raises ([UnboundLocalError]) instead. *)
Theorem evaluate_needs_a_batch W (h : handler W) G l m global_step epoch w avg :
  rank (args G) = 0 ->
  outcome h (evaluate G (Some l) m global_step epoch) w = Ok avg ->
  exists batches,
    In (Ev (IterLoader l) (Ok batches))
       (trace_of h (evaluate G (Some l) m global_step epoch) w) /\
    batches <> [].
Proof.
  intros Hrank Ho; unfold evaluate, with_no_grad in *; cbn [ret] in *.
  split_bind Ho T0; rewrite T0; clear T0.
  rewrite trace_ensure.
  apply ensure_ok_inv in Ho; destruct Ho as [Ho Hexit].
  split_bind Ho T1; rewrite T1; clear T1.
  split_bind Ho T2; rewrite T2; clear T2.
  split_bind Ho T3; rewrite T3; clear T3.
  split_bind Ho T4; rewrite T4; clear T4.
  repeat match goal with x : unit |- _ => destruct x end.
  match goal with
  | Hp : outcome h (eval_pass G (Some l) m global_step) ?w' = Ok tt |- _ =>
      destruct (@eval_pass_needs_a_batch W h G m global_step l w' Hrank Hp)
        as (batches & Hin & Hne)
  end.
  exists batches; split; [in_app | exact Hne].
Qed.

(** X4 on a loader of one batch; on an empty one the same run raises. *)
Lemma evaluate_needs_a_batch_witness :
  (exists batches,
     In (Ev (IterLoader sample_loader) (Ok batches))
        (trace_of (quiet [sample_batch])
           (evaluate sample_globals (Some sample_loader) (Plain sample_network) 1 0) tt) /\
     batches <> []) /\
  outcome (quiet [])
    (evaluate sample_globals (Some sample_loader) (Plain sample_network) 1 0) tt
  = Err (Exception "UnboundLocalError").
Proof.
  split.
  - apply (@evaluate_needs_a_batch unit (quiet [sample_batch]) sample_globals sample_loader
             (Plain sample_network) 1 0 tt [("avg_loss", Fin 3)]).
    + reflexivity.
    + vm_compute; reflexivity.
  - vm_compute; reflexivity.
Defined.

(** Replaces the trace of a single call by its one event. *)
Ltac rew_call :=
  match goal with
  | |- context [trace_of ?h (call_ ?c) ?w] =>
      let E := fresh "E" in
      pose proof (trace_call_ h c w) as E; cbn [ret] in E |- *; rewrite E; clear E
  end.

Lemma evaluate_body_observes G loader m global_step epoch :
  calls_only (fun c => is_training_call c = false /\ is_no_grad c = false)
             (evaluate_body G loader m global_step epoch).
Proof.
  unfold evaluate_body, eval_pass, eval_step, eval_rank0, direct_pass,
    aggregate_losses, reduce_entry, test_run, test_speaker, randrange,
    test_sentence_loop, iteration, synthesize_sentence, report_sentence_error.
  walk_calls; split; reflexivity.
Qed.

(** X5.  [evaluate] only observes: whatever the collaborators do, it
    never calls [backward], the gradient scaler, [clip_grad_norm_], the
    optimizer, the scheduler, [zero_grad], [save_checkpoint] or
    [save_best_model]; nor does [data_depended_init]. *)
Theorem evaluation_never_trains W (h : handler W) G loader m global_step epoch w :
  Forall (fun c => is_training_call c = false)
         (calls (trace_of h (evaluate G loader m global_step epoch) w)) /\
  Forall (fun c => is_training_call c = false)
         (calls (trace_of h (data_depended_init G loader m) w)).
Proof.
  split; apply calls_only_trace.
  - change (evaluate G loader m global_step epoch)
      with (with_no_grad (evaluate_body G loader m global_step epoch)).
    unfold with_no_grad.
    apply calls_only_bind; [apply calls_only_call_; reflexivity | intros _].
    apply calls_only_ensure; [|apply calls_only_call_; reflexivity].
    eapply calls_only_weaken; [|apply evaluate_body_observes].
    intros c [Hc _]; exact Hc.
  - unfold data_depended_init, with_no_grad, set_ddi_model, set_ddi_flows, batches_of.
    assert (Hloop : forall batches n,
               calls_only (fun c => is_training_call c = false) (ddi_loop G m batches n)).
    { induction batches as [|data rest IH]; intro n; cbn [ddi_loop]; [exact I|].
      walk_calls; first [reflexivity | apply IH]. }
    destruct m as [net|net], loader as [l|]; simpl hasattr_module; cbv iota;
      walk_calls; first [reflexivity | apply Hloop].
Qed.

(** X6.  [evaluate] runs under [torch.no_grad()]: its first call enters
    the context and, once entered, its last call leaves it, whether the
    evaluation returned or raised; nothing in between touches the
    context. *)
Theorem evaluate_restores_grad_mode W (h : handler W) G loader m global_step epoch w :
  exists entered rest,
    trace_of h (evaluate G loader m global_step epoch) w = Ev NoGradEnter entered :: rest /\
    (is_ok entered = false -> rest = []) /\
    (is_ok entered = true ->
     exists body left,
       rest = body ++ [Ev NoGradExit left] /\
       select is_no_grad body = []).
Proof.
  change (evaluate G loader m global_step epoch)
    with (with_no_grad (evaluate_body G loader m global_step epoch)).
  unfold with_no_grad.
  rewrite trace_bind, trace_call_, outcome_call_, world_call_.
  destruct (h NoGradEnter w) as [w1 [[]|e]]; simpl fst; simpl snd; cbv iota.
  - exists (Ok tt); eexists; split; [reflexivity|]; split; [discriminate|]; intros _.
    rewrite trace_ensure.
    exists (trace_of h (evaluate_body G loader m global_step epoch) w1).
    eexists; split.
    + rew_call; reflexivity.
    + apply select_quiet.
      eapply calls_only_weaken; [|apply evaluate_body_observes].
      intros c [_ Hc]; exact Hc.
  - exists (Err e), []; split; [reflexivity|]; split; [reflexivity | discriminate].
Qed.

(** ** [setup_loader] *)

(** X7.  Whenever [setup_loader] returns a loader, it has built the
    dataset (without batch grouping for validation, and with the speaker
    mapping exactly in external-embedding mode), precomputed the input
    sequences when phonemes and the cache are configured, sorted the
    items, built a [DistributedSampler] over the dataset exactly when
    [num_gpus > 1], and constructed the [DataLoader] over the same
    dataset with that sampler, [eval_batch_size] and the validation
    workers for validation, [batch_size] and the training workers
    otherwise; the loader returned is that one. *)
Theorem setup_loader_builds W (h : handler W) G is_val w l :
  outcome h (setup_loader G is_val) w = Ok (Some l) ->
  (is_val && negb (run_eval (config G)))%bool = false /\
  exists len,
    In (Ev (MyDataset is_val
              (if is_val then 0 else batch_group_size (config G) * batch_size (config G))
              (use_speaker_embedding (config G)
               && use_external_speaker_embedding_file (config G)))
           (Ok (loader_dataset l, len)))
       (trace_of h (setup_loader G is_val) w) /\
    calls (trace_of h (setup_loader G is_val) w)
    = setup_loader_calls G is_val (loader_dataset l) /\
    l = mkLoader (loader_dataset l) len
          (if is_val then eval_batch_size (config G) else batch_size (config G))
          (if num_gpus G >? 1 then Some (DistributedSampler (loader_dataset l)) else None)
          (if is_val then num_val_loader_workers (config G)
           else num_loader_workers (config G)).
Proof.
  unfold setup_loader, setup_loader_calls; cbv zeta; cbn [ret].
  destruct (is_val && negb (run_eval (config G)))%bool; [discriminate|].
  intro Ho; split; [reflexivity|].
  apply bind_ok_inv in Ho; destruct Ho as ([dataset len] & Hds & Ho & T1);
    rewrite T1; clear T1.
  apply bind_ok_inv in Ho; destruct Ho as ([] & Hseq & Ho & T2); rewrite T2; clear T2.
  apply bind_ok_inv in Ho; destruct Ho as ([] & Hsort & Ho & T3); rewrite T3; clear T3.
  apply bind_ok_inv in Ho; destruct Ho as (sampler & Hs & Ho & T4); rewrite T4; clear T4.
  apply bind_ok_inv in Ho; destruct Ho as ([] & Hnew & Ho & T5); rewrite T5; clear T5.
  unfold outcome in Ho; simpl in Ho; inversion Ho; subst l; clear Ho.
  cbn [loader_dataset].
  unfold calls; repeat rewrite map_app.
  called Hds; called Hsort.
  exists len; split; [left; reflexivity|].
  destruct (use_phonemes (config G) && compute_input_seq_cache (config G))%bool;
    [called Hseq|];
    (destruct (num_gpus G >? 1); cbv iota;
     [ apply bind_ok_inv in Hs; destruct Hs as ([] & Hsam & Hs & T6); rewrite T6; clear T6;
       called Hsam
     | ];
     unfold outcome in Hs; simpl in Hs; inversion Hs; subst sampler; clear Hs;
     called Hnew; split; reflexivity).
Qed.

(** X7 on the training loader of a single-process run. *)
Lemma setup_loader_builds_witness :
  (false && negb (run_eval (config sample_globals)))%bool = false /\
  exists len,
    In (Ev (MyDataset false
              (batch_group_size (config sample_globals) * batch_size (config sample_globals))
              (use_speaker_embedding (config sample_globals)
               && use_external_speaker_embedding_file (config sample_globals)))
           (Ok (loader_dataset (mkLoader 0 1 1 None 0), len)))
       (trace_of (quiet [sample_batch]) (setup_loader sample_globals false) tt) /\
    calls (trace_of (quiet [sample_batch]) (setup_loader sample_globals false) tt)
    = setup_loader_calls sample_globals false (loader_dataset (mkLoader 0 1 1 None 0)) /\
    mkLoader 0 1 1 None 0
    = mkLoader (loader_dataset (mkLoader 0 1 1 None 0)) len
        (batch_size (config sample_globals))
        (if num_gpus sample_globals >? 1
         then Some (DistributedSampler (loader_dataset (mkLoader 0 1 1 None 0)))
         else None)
        (num_loader_workers (config sample_globals)).
Proof.
  apply (@setup_loader_builds unit (quiet [sample_batch]) sample_globals false tt
           (mkLoader 0 1 1 None 0)).
  vm_compute; reflexivity.
Defined.

(** X8.  With [config.run_eval] off, [setup_loader] for validation
    returns [None] without building anything, and [evaluate] on that
    [None] runs no validation pass: it never iterates a loader, never
    calls the model's [forward] or [inference], the criterion, the
    alignment score or the running averages' update. *)
Theorem no_validation_without_run_eval W (h : handler W) G :
  run_eval (config G) = false ->
  (forall w, run h (setup_loader G true) w = (w, [], Ok None)) /\
  (forall m global_step epoch w,
     Forall (fun c => is_validation_call c = false)
            (calls (trace_of h (evaluate G None m global_step epoch) w))).
Proof.
  intro Hrun; split.
  - intro w; unfold setup_loader; rewrite Hrun; reflexivity.
  - intros m global_step epoch w; apply calls_only_trace.
    unfold evaluate, with_no_grad, eval_pass, test_run, test_speaker, randrange,
      test_sentence_loop, iteration, synthesize_sentence, report_sentence_error.
    walk_calls; reflexivity.
Qed.

(** X8 on a configuration without validation. *)
Lemma no_validation_without_run_eval_witness :
  run (quiet [sample_batch]) (setup_loader train_only_globals true) tt = (tt, [], Ok None).
Proof.
  exact (proj1 (@no_validation_without_run_eval unit (quiet [sample_batch])
                  train_only_globals eq_refl) tt).
Defined.

(** ** Checkpoints of [train] *)

Lemma py_mod_ok a b r : py_mod a b = Ok r -> b <> 0 /\ r = a mod b.
Proof.
  unfold py_mod; destruct (b =? 0) eqn:Hb; [discriminate|].
  apply Z.eqb_neq in Hb; intro H; inversion H; auto.
Qed.

Lemma py_mod_zero a : py_mod a 0 = Err (Exception "ZeroDivisionError").
Proof. reflexivity. Qed.

Ltac skip_returns :=
  repeat lazymatch goal with
         | |- returns_only _ (bind _ _) =>
             eapply returns_only_bind; [apply returns_only_any | intros]
         | |- returns_only _ (let '(_, _) := ?p in _) => destruct p
         | |- returns_only _ (if ?b then _ else _) => destruct b
         end.

Lemma train_rank0_zero_interval G m global_step epoch loss_dict v :
  rank (args G) = 0 ->
  tb_plot_step (config G) = 0 \/ save_step (config G) = 0 ->
  returns_only (fun _ => False) (train_rank0 G m global_step epoch loss_dict v).
Proof.
  intros Hr Hz; unfold train_rank0; cbv zeta; rewrite Hr; cbn [Z.eqb]; cbv iota.
  destruct Hz as [Hp | Hp].
  - rewrite Hp, py_mod_zero; cbn [lift bind]; exact I.
  - destruct (py_mod global_step (tb_plot_step (config G))) as [plot|e];
      cbn [lift bind]; [|exact I].
    eapply returns_only_bind; [apply returns_only_any | intros _ _].
    rewrite Hp, py_mod_zero; cbn [lift bind]; exact I.
Qed.

Lemma train_step_zero_interval G m scaler scheduler epoch data s :
  zero_interval G ->
  returns_only (fun _ => False) (train_step G m scaler scheduler epoch data s).
Proof.
  intros [Hp | [Hr Hz]]; unfold train_step; cbv zeta.
  - rewrite Hp, py_mod_zero; cbn [lift bind]. skip_returns; exact I.
  - repeat lazymatch goal with
           | |- returns_only _ (bind (train_rank0 _ _ _ _ _ _) _) =>
               eapply returns_only_bind;
               [apply train_rank0_zero_interval; assumption | intros _ []]
           | |- returns_only _ (bind _ _) =>
               eapply returns_only_bind; [apply returns_only_any | intros]
           | |- returns_only _ (let '(_, _) := ?p in _) => destruct p
           end.
Qed.

(** X10.  A reporting interval of zero makes every training step raise
    ([ZeroDivisionError] from [global_step % interval]): with
    [print_step = 0], or on rank 0 with [tb_plot_step = 0] or
    [save_step = 0], no step of [train] returns, so [train] can only
    return when the loader yielded no batch at all. *)
Theorem zero_interval_stops_training W (h : handler W) G :
  zero_interval G ->
  (forall m scaler scheduler epoch data s w,
     is_ok (outcome h (train_step G m scaler scheduler epoch data s) w) = false) /\
  (forall loader m scheduler global_step epoch w r,
     outcome h (train G loader m scheduler global_step epoch) w = Ok r ->
     In (Ev (IterLoader loader) (Ok []))
        (trace_of h (train G loader m scheduler global_step epoch) w)).
Proof.
  intro Hz.
  assert (Hstep : forall m scaler scheduler epoch data s w,
            is_ok (outcome h (train_step G m scaler scheduler epoch data s) w) = false).
  { intros m scaler scheduler epoch data s w.
    destruct (outcome h (train_step G m scaler scheduler epoch data s) w) as [s'|e] eqn:Ho;
      [|reflexivity].
    exact (False_ind _ (@returns_only_outcome W h _ _ _ w s'
                          (train_step_zero_interval m scaler scheduler epoch data s Hz) Ho)). }
  split; [exact Hstep|].
  intros loader m scheduler global_step epoch w r Ho.
  unfold train in *; cbv zeta in *; cbn [ret] in *.
  split_bind Ho T1; rewrite T1; clear T1.
  split_bind Ho T2; rewrite T2; clear T2.
  split_bind Ho T3; rewrite T3; clear T3.
  split_bind Ho T4; rewrite T4; clear T4.
  split_bind Ho T5; rewrite T5; clear T5.
  split_bind Ho T6; rewrite T6; clear T6.
  apply bind_ok_inv in Ho; destruct Ho as (batches & Hiter & Ho & T7); rewrite T7; clear T7.
  apply bind_ok_inv in Ho; destruct Ho as (s' & Hloop & Ho & T8).
  destruct batches as [|data rest].
  - do 6 (apply in_or_app; right). apply in_or_app; left.
    called Hiter; left; reflexivity.
  - exfalso; cbn [for_each] in Hloop.
    apply bind_ok_inv in Hloop; destruct Hloop as (s1 & Hfirst & _).
    match type of Hfirst with
    | outcome h (train_step G m ?sc scheduler epoch data ?s0) ?w0 = _ =>
        pose proof (Hstep m sc scheduler epoch data s0 w0) as Hno
    end.
    rewrite Hfirst in Hno; discriminate.
Qed.

(** X10 on a configuration with [print_step = 0]. *)
Lemma zero_interval_stops_training_witness :
  is_ok (outcome (quiet [sample_batch])
           (train_step zero_print_globals (Plain sample_network) None (Some tt) 0
              sample_batch (mkTrainState 0 (Fin 0) (Fin 0))) tt) = false.
Proof.
  exact (proj1 (@zero_interval_stops_training unit (quiet [sample_batch])
                  zero_print_globals (or_introl eq_refl))
           (Plain sample_network) None (Some tt) 0 sample_batch
           (mkTrainState 0 (Fin 0) (Fin 0)) tt).
Defined.

(** ** Restoring and the best loss *)


(** ** The epoch loop *)

Lemma select_events_app f t1 t2 :
  select_events f (t1 ++ t2) = select_events f t1 ++ select_events f t2.
Proof. unfold select_events; apply filter_app. Qed.

Lemma select_events_quiet W (h : handler W) f A (p : prog A) w :
  calls_only (fun c => f c = false) p -> select_events f (trace_of h p w) = [].
Proof.
  intro Hp; pose proof (@calls_only_trace W h _ _ p w Hp) as Hall.
  unfold select_events, calls in *.
  induction (trace_of h p w) as [|e t IH]; [reflexivity|].
  inversion Hall as [|? ? He Ht]; subst; simpl; rewrite He; auto.
Qed.

Section EpochLoop.
Variable W : Type.
Variable h : handler W.
Variables (G : Globals) (train_loader eval_loader : option data_loader).
Variables (m : model) (scheduler : option unit).

Lemma run_epoch_saves epoch s w s1 :
  outcome h (run_epoch G train_loader eval_loader m scheduler epoch s) w = Ok s1 ->
  exists target,
    select_events is_save_best
      (trace_of h (run_epoch G train_loader eval_loader m scheduler epoch s) w)
    = [Ev (SaveBestModel target (ep_best_loss s) m (ep_global_step s1) epoch)
          (Ok (ep_best_loss s1))].
Proof.
  unfold run_epoch; cbn [ret]; intro Ho.
  split_bind Ho T1; rewrite T1; clear T1.
  apply bind_ok_inv in Ho; destruct Ho as (tl & Htl & Ho & T2); rewrite T2; clear T2.
  apply bind_ok_inv in Ho; destruct Ho as ([train_avg gs] & Htrain & Ho & T3);
    rewrite T3; clear T3.
  apply bind_ok_inv in Ho; destruct Ho as (eval_avg & Heval & Ho & T4); rewrite T4; clear T4.
  split_bind Ho T5; rewrite T5; clear T5.
  apply bind_ok_inv in Ho; destruct Ho as (t0 & Ht0 & Ho & T6); rewrite T6; clear T6.
  apply bind_ok_inv in Ho; destruct Ho as (target & Ht & Ho & T7); rewrite T7; clear T7.
  apply bind_ok_inv in Ho; destruct Ho as (best & Hbest & Ho & T8); rewrite T8; clear T8.
  unfold outcome in Ho; simpl in Ho; inversion Ho; subst s1; clear Ho.
  exists target; cbn [ep_global_step ep_best_loss].
  repeat rewrite select_events_app.
  called Hbest.
  repeat (rewrite select_events_quiet;
          [|first [ apply calls_only_call_; reflexivity
                  | apply calls_only_lift
                  | apply train_never_saves_best
                  | apply evaluate_never_saves_best
                  | walk_calls; reflexivity ]]).
  unfold trace_of; reflexivity.
Qed.

Lemma epoch_loop_chain k n s w s' :
  outcome h (for_each (map Z.of_nat (seq k n))
               (run_epoch G train_loader eval_loader m scheduler) s) w = Ok s' ->
  best_chain m (Z.of_nat k) s
    (select_events is_save_best
       (trace_of h (for_each (map Z.of_nat (seq k n))
                      (run_epoch G train_loader eval_loader m scheduler) s) w)) s' /\
  length (select_events is_save_best
            (trace_of h (for_each (map Z.of_nat (seq k n))
                           (run_epoch G train_loader eval_loader m scheduler) s) w))
  = n.
Proof.
  revert k s w; induction n as [|n IH]; intros k s w Ho.
  - unfold outcome in Ho; simpl in Ho; inversion Ho; subst; split;
      [apply chain_done | reflexivity].
  - cbn [seq map for_each] in *.
    apply bind_ok_inv in Ho; destruct Ho as (s1 & Hfirst & Ho & T); rewrite T; clear T.
    destruct (run_epoch_saves _ _ _ Hfirst) as (target & Hsave).
    destruct (IH _ _ _ Ho) as [Hchain Hlen].
    rewrite select_events_app, Hsave, length_app, Hlen; split; [|reflexivity].
    cbn [app]; destruct s1 as [gs1 b1]; cbn [ep_global_step ep_best_loss] in *.
    apply chain_step.
    replace (Z.of_nat k + 1) with (Z.of_nat (S k)) by lia.
    exact Hchain.
Qed.

End EpochLoop.

Lemma restore_never_saves_best G :
  calls_only (fun c => is_save_best c = false) (restore G).
Proof.
  unfold restore, restore_from, load_states, full_load, partial_load.
  walk_calls; reflexivity.
Qed.

Lemma initial_best_loss_never_saves_best G :
  calls_only (fun c => is_save_best c = false) (initial_best_loss G).
Proof. unfold initial_best_loss; walk_calls; reflexivity. Qed.

Lemma setup_loader_never_saves_best G is_val :
  calls_only (fun c => is_save_best c = false) (setup_loader G is_val).
Proof. unfold setup_loader; walk_calls; reflexivity. Qed.

Lemma data_depended_init_never_saves_best G loader m :
  calls_only (fun c => is_save_best c = false) (data_depended_init G loader m).
Proof.
  unfold data_depended_init, with_no_grad, set_ddi_model, set_ddi_flows, batches_of.
  assert (Hloop : forall batches n,
             calls_only (fun c => is_save_best c = false) (ddi_loop G m batches n)).
  { induction batches as [|data rest IH]; intro n; cbn [ddi_loop]; [exact I|].
    walk_calls; first [reflexivity | apply IH]. }
  destruct m as [net|net], loader as [l|]; simpl hasattr_module; cbv iota;
    walk_calls; first [reflexivity | apply Hloop].
Qed.

(** Peels the steps of [main] that come before the epoch loop off a run
    that returned; none of them saves a best model. *)
Ltac peel_before_loop Ho :=
  repeat lazymatch type of Ho with
         | outcome _ (bind (for_each _ _ _) _) _ = _ => fail
         | outcome _ (bind _ _) _ = _ =>
             let T := fresh "T" in
             let a := fresh "a" in
             let Hq := fresh "Hq" in
             apply bind_ok_inv in Ho; destruct Ho as (a & Hq & Ho & T);
             rewrite T; clear T Hq; rewrite select_events_app;
             rewrite select_events_quiet
               by first [ apply calls_only_call_; reflexivity
                        | apply restore_never_saves_best
                        | apply initial_best_loss_never_saves_best
                        | apply setup_loader_never_saves_best
                        | apply data_depended_init_never_saves_best
                        | walk_calls; reflexivity ];
             cbn [app]
         | outcome _ (let '(_, _) := ?p in _) _ = _ => destruct p
         end.

(** X12.  Whenever [main] returns, it has called [save_best_model] once
    per epoch, [config.epochs] times in all, with the epoch numbers 0, 1,
    2, ... in order and always the same model; every call after the
    first is given, as the best loss so far, what the call of the epoch
    before returned: the best loss is threaded through the epochs. *)
Theorem main_threads_best_loss W (h : handler W) G w :
  outcome h (main G) w = Ok tt ->
  exists m s0 s',
    best_chain m 0 s0 (select_events is_save_best (trace_of h (main G) w)) s' /\
    length (select_events is_save_best (trace_of h (main G) w))
    = Z.to_nat (epochs (config G)).
Proof.
  unfold main; cbv zeta; cbn [ret]; intro Ho.
  peel_before_loop Ho.
  apply bind_ok_inv in Ho; destruct Ho as (s' & Hloop & Ho & T); rewrite T; clear T.
  rewrite select_events_app.
  match type of Hloop with
  | outcome h (for_each _ (run_epoch ?G' ?tl ?el ?m' ?sc) ?s0) ?w0 = _ =>
      destruct (@epoch_loop_chain W h G' tl el m' sc 0 (Z.to_nat (epochs (config G)))
                  s0 w0 s' Hloop) as [Hchain Hlen];
      exists m', s0, s'
  end.
  unfold py_range in *.
  assert (Hend : forall w0, select_events is_save_best (trace_of h (Ret tt) w0) = []) by
    reflexivity.
  rewrite Hend, app_nil_r; split; assumption.
Qed.

(** X12 on a run of one epoch over one batch. *)
Lemma main_threads_best_loss_witness :
  exists m s0 s',
    best_chain m 0 s0
      (select_events is_save_best
         (trace_of (quiet [sample_batch]) (main sample_globals) tt)) s' /\
    length (select_events is_save_best
              (trace_of (quiet [sample_batch]) (main sample_globals) tt))
    = Z.to_nat (epochs (config sample_globals)).
Proof.
  apply (@main_threads_best_loss unit (quiet [sample_batch]) sample_globals tt).
  vm_compute; reflexivity.
Defined.

(** ** Cleaning up the experiment folder *)

Lemma main_never_removes G :
  calls_only (fun c => is_remove_folder c = false) (main G).
Proof.
  assert (Hloop : forall G' m batches n,
             calls_only (fun c => is_remove_folder c = false) (ddi_loop G' m batches n)).
  { intros G' m; induction batches as [|data rest IH]; intro n; cbn [ddi_loop]; [exact I|].
    walk_calls; first [reflexivity | apply IH]. }
  assert (Hddi : forall G' loader m,
             calls_only (fun c => is_remove_folder c = false)
                        (data_depended_init G' loader m)).
  { intros G' loader m.
    unfold data_depended_init, with_no_grad, set_ddi_model, set_ddi_flows, batches_of.
    destruct m as [net|net], loader as [l|]; simpl hasattr_module; cbv iota;
      walk_calls; first [reflexivity | apply Hloop]. }
  unfold main, restore, restore_from, load_states, full_load, partial_load,
    initial_best_loss, setup_loader.
  repeat first
    [ walk_step
    | lazymatch goal with
      | |- calls_only _ (data_depended_init _ _ _) => apply Hddi
      | |- calls_only _ (run_epoch _ _ _ _ _ _ _) =>
          unfold run_epoch, train, train_step, with_autocast, optimize, aggregate_losses,
            reduce_entry, train_rank0, direct_pass, evaluate, with_no_grad, eval_pass,
            eval_step, eval_rank0, test_run, test_speaker, randrange, test_sentence_loop,
            iteration, synthesize_sentence, report_sentence_error
      | |- calls_only _ (aggregate_losses _ _) => unfold aggregate_losses, reduce_entry
      | |- calls_only _ (direct_pass _ _) => unfold direct_pass
      | |- is_remove_folder _ = false => reflexivity
      end ].
Qed.

(** X13.  The experiment folder is cleaned up by the entry point only:
    [main] never calls [remove_experiment_folder]; the script calls it
    exactly once when [main] raises [KeyboardInterrupt] or an exception
    derived from [Exception], with [OUT_PATH], and not at all when
    [main] returns or raises anything else. *)
Theorem folder_removed_once_on_failure W (h : handler W) G w :
  select is_remove_folder (trace_of h (main G) w) = [] /\
  select is_remove_folder (snd (fst (script h G w)))
  = match outcome h (main G) w with
    | Err KeyboardInterrupt => [RemoveExperimentFolder (OUT_PATH G)]
    | Err (Exception _) => [RemoveExperimentFolder (OUT_PATH G)]
    | _ => []
    end.
Proof.
  pose proof (@select_quiet W h is_remove_folder _ (main G) w (main_never_removes G))
    as Hmain.
  split; [exact Hmain|].
  unfold script, outcome, trace_of in *.
  destruct (run h (main G) w) as [[w1 t1] r]; simpl in Hmain |- *.
  destruct r as [[]|[|code| |cls]]; simpl; try exact Hmain.
  - unfold on_interrupt, call_; simpl.
    destruct (h (RemoveExperimentFolder (OUT_PATH G)) w1) as [w2 [[]|e]]; simpl;
      rewrite select_app, Hmain; reflexivity.
  - unfold on_exception, call_; simpl.
    destruct (h (RemoveExperimentFolder (OUT_PATH G)) w1) as [w2 [[]|e]]; simpl;
      [destruct (h TracebackPrintExc w2) as [w3 [[]|e]]; simpl|];
      rewrite select_app, Hmain; reflexivity.
Qed.

(** ** Dictionaries *)

Lemma dict_get_set_same V (d : dict V) k v : dict_get (dict_set d k v) k = Some v.
Proof.
  induction d as [|[k' v'] d IH]; simpl.
  - rewrite String.eqb_refl; reflexivity.
  - destruct (String.eqb k' k) eqn:Hk; simpl; rewrite Hk; auto.
Qed.

Lemma dict_get_set_other V (d : dict V) k v k' :
  k <> k' -> dict_get (dict_set d k v) k' = dict_get d k'.
Proof.
  intro Hne; induction d as [|[k0 v0] d IH]; simpl.
  - apply String.eqb_neq in Hne; rewrite Hne; reflexivity.
  - destruct (String.eqb k0 k) eqn:Hk; simpl.
    + apply String.eqb_eq in Hk; subst k0.
      apply String.eqb_neq in Hne; rewrite Hne; reflexivity.
    + destruct (String.eqb k0 k'); auto.
Qed.

Lemma dict_keys_set_present V (d : dict V) k v :
  dict_get d k <> None -> dict_keys (dict_set d k v) = dict_keys d.
Proof.
  unfold dict_keys; induction d as [|[k0 v0] d IH]; simpl; [congruence|].
  destruct (String.eqb k0 k) eqn:Hk; simpl; [reflexivity|].
  intro H; rewrite IH; auto.
Qed.

(** ** Reducing the losses across processes *)

Section Reduce.
Variable W : Type.
Variable h : handler W.

Lemma reduce_entry_ok n k d w d' :
  outcome h (reduce_entry n k d) w = Ok d' ->
  exists t r,
    dict_get d k = Some (LTensor t) /\
    trace_of h (reduce_entry n k d) w = [Ev (ReduceTensor t n) (Ok r)] /\
    d' = dict_set d k (LTensor r).
Proof.
  unfold reduce_entry; cbn [ret]; intro Ho.
  apply bind_ok_inv in Ho; destruct Ho as (t & Hget & Ho & T1); rewrite T1; clear T1.
  apply bind_ok_inv in Ho; destruct Ho as (r & Hred & Ho & T2); rewrite T2; clear T2.
  rewrite outcome_lift in Hget; rewrite trace_lift.
  unfold dict_getitem in Hget.
  destruct (dict_get d k) as [[t0|f]|] eqn:Hk; simpl in Hget; try discriminate.
  inversion Hget; subst t0; clear Hget.
  unfold outcome in Ho; simpl in Ho; inversion Ho; subst d'; clear Ho.
  exists t, r; repeat split.
  called Hred; reflexivity.
Qed.

End Reduce.

(** X14.  In a multi-process run ([num_gpus > 1]), whenever the
    aggregation of the losses returns, it has called [reduce_tensor]
    exactly three times, on the ["log_mle"], ["loss_dur"] and ["loss"]
    tensors of the loss dictionary, in this order and with [num_gpus];
    the dictionary it yields has the same keys in the same order, holds
    the three reduced tensors under their keys and every other entry
    unchanged. *)
Theorem aggregate_losses_reduces_three W (h : handler W) G d w d' :
  num_gpus G > 1 ->
  outcome h (aggregate_losses G d) w = Ok d' ->
  exists t1 t2 t3 r1 r2 r3,
    dict_get d "log_mle" = Some (LTensor t1) /\
    dict_get d "loss_dur" = Some (LTensor t2) /\
    dict_get d "loss" = Some (LTensor t3) /\
    trace_of h (aggregate_losses G d) w
    = [Ev (ReduceTensor t1 (num_gpus G)) (Ok r1);
       Ev (ReduceTensor t2 (num_gpus G)) (Ok r2);
       Ev (ReduceTensor t3 (num_gpus G)) (Ok r3)] /\
    dict_get d' "log_mle" = Some (LTensor r1) /\
    dict_get d' "loss_dur" = Some (LTensor r2) /\
    dict_get d' "loss" = Some (LTensor r3) /\
    dict_keys d' = dict_keys d /\
    (forall k, k <> "log_mle" -> k <> "loss_dur" -> k <> "loss" ->
               dict_get d' k = dict_get d k).
Proof.
  intros Hn Ho; unfold aggregate_losses in *.
  assert (Hg : (num_gpus G >? 1) = true) by (apply Z.gtb_lt; lia).
  rewrite Hg in *.
  apply bind_ok_inv in Ho; destruct Ho as (d1 & H1 & Ho & T1); rewrite T1; clear T1.
  apply bind_ok_inv in Ho; destruct Ho as (d2 & H2 & Ho & T2); rewrite T2; clear T2.
  apply reduce_entry_ok in H1; destruct H1 as (t1 & r1 & G1 & E1 & D1).
  apply reduce_entry_ok in H2; destruct H2 as (t2 & r2 & G2 & E2 & D2).
  apply reduce_entry_ok in Ho; destruct Ho as (t3 & r3 & G3 & E3 & D3).
  rewrite E1, E2, E3; subst d' d2 d1.
  rewrite dict_get_set_other in G2 by discriminate.
  rewrite !dict_get_set_other in G3 by discriminate.
  exists t1, t2, t3, r1, r2, r3; repeat split; auto.
  - rewrite !dict_get_set_other by discriminate; apply dict_get_set_same.
  - rewrite dict_get_set_other by discriminate; apply dict_get_set_same.
  - apply dict_get_set_same.
  - rewrite !dict_keys_set_present; [reflexivity | congruence | |].
    + rewrite dict_get_set_other by discriminate; congruence.
    + rewrite !dict_get_set_other by discriminate; congruence.
  - intros k Ha Hb Hc; rewrite !dict_get_set_other by congruence; reflexivity.
Qed.

(** X14 on the loss dictionary of the sample criterion, on two
    processes. *)
Lemma aggregate_losses_reduces_three_witness :
  exists t1 t2 t3 r1 r2 r3,
    dict_get sample_losses "log_mle" = Some (LTensor t1) /\
    dict_get sample_losses "loss_dur" = Some (LTensor t2) /\
    dict_get sample_losses "loss" = Some (LTensor t3) /\
    trace_of (quiet []) (aggregate_losses two_gpu_globals sample_losses) tt
    = [Ev (ReduceTensor t1 (num_gpus two_gpu_globals)) (Ok r1);
       Ev (ReduceTensor t2 (num_gpus two_gpu_globals)) (Ok r2);
       Ev (ReduceTensor t3 (num_gpus two_gpu_globals)) (Ok r3)] /\
    dict_get sample_losses "log_mle" = Some (LTensor r1) /\
    dict_get sample_losses "loss_dur" = Some (LTensor r2) /\
    dict_get sample_losses "loss" = Some (LTensor r3) /\
    dict_keys sample_losses = dict_keys sample_losses /\
    (forall k, k <> "log_mle" -> k <> "loss_dur" -> k <> "loss" ->
               dict_get sample_losses k = dict_get sample_losses k).
Proof.
  apply (@aggregate_losses_reduces_three unit (quiet []) two_gpu_globals sample_losses tt
           sample_losses).
  - reflexivity.
  - vm_compute; reflexivity.
Defined.

(** ** The computation of a training step *)

Section StepSequence.
Variable W : Type.
Variable h : handler W.
Variables (G : Globals) (m : model).

Ltac run_step_calls :=
  repeat (simpl;
          match goal with
          | |- context [h ?c ?w] => destruct (h c w) as [? [?|?]]
          end);
  simpl.

Lemma optimize_returns scaler scheduler loss_dict w grad_norm :
  outcome h (optimize G m scaler scheduler loss_dict) w = Ok grad_norm ->
  exists loss scaled,
    dict_get loss_dict "loss" = Some (LTensor loss) /\
    select_events is_step_call (trace_of h (optimize G m scaler scheduler loss_dict) w)
    = update_events G m loss scaled grad_norm.
Proof.
  unfold optimize, update_events, select_events, trace_of, outcome, dict_getitem.
  destruct (dict_get loss_dict "loss") as [[loss|f]|]; destruct (mixed_precision (config G)), (noam_schedule (config G)), scaler as [[]|], scheduler as [[]|]; simpl; try discriminate.
  all: run_step_calls; intro Ho; try discriminate.
  all: inversion Ho; subst.
  all: repeat match goal with x : ret _ |- _ => cbn [ret] in x end.
  all: repeat match goal with x : unit |- _ => destruct x end.
  all: first [ exists loss, (scalar 0); split; reflexivity | exists loss; eexists; split; reflexivity ].
Qed.
End StepSequence.

(** X15.  Whenever a training step returns, its computation ran in this
    order, every call returning: [optimizer.zero_grad()]; entering
    [autocast(enabled=config.mixed_precision)]; [model.forward] on the
    tensors [format_data] made of the batch; the criterion on what that
    forward pass returned; leaving [autocast]; then the backward pass,
    the gradient clipping and the update (through the gradient scaler
    under mixed precision, followed by the scheduler's step under
    [noam_schedule]), on the ["loss"] entry of what the criterion
    returned. *)
Theorem train_step_sequence W (h : handler W) G m scaler scheduler epoch data s w s' :
  outcome h (train_step G m scaler scheduler epoch data s) w = Ok s' ->
  exists d o loss_dict loss scaled grad_norm,
    format_data G data = Ok d /\
    dict_get loss_dict "loss" = Some (LTensor loss) /\
    select_events is_step_call
      (trace_of h (train_step G m scaler scheduler epoch data s) w)
    = [Ev ZeroGrad (Ok tt);
       Ev (AutocastEnter (mixed_precision (config G))) (Ok tt);
       Ev (Forward m (f_text_input d) (f_text_lengths d) (f_mel_input d) (f_mel_lengths d)
                   (f_attn_mask d) (f_speaker_c d)) (Ok o);
       Ev (Criterion o (f_mel_lengths d) (f_text_lengths d)) (Ok loss_dict);
       Ev AutocastExit (Ok tt)]
      ++ update_events G m loss scaled grad_norm.
Proof.
  unfold train_step, with_autocast; cbv zeta; cbn [ret]; intro Ho.
  split_bind Ho T1; rewrite T1; clear T1.
  apply bind_ok_inv in Ho; destruct Ho as (d & Hfmt & Ho & T2); rewrite T2; clear T2.
  split_bind Ho T3; rewrite T3; clear T3.
  apply bind_ok_inv in Ho; destruct Ho as ([] & Hzero & Ho & T4); rewrite T4; clear T4.
  apply bind_ok_inv in Ho; destruct Ho as ([o loss_dict] & Hauto & Ho & T5);
    rewrite T5; clear T5.
  apply bind_ok_inv in Ho; destruct Ho as (grad_norm & Hopt & Ho & T6); rewrite T6; clear T6.
  apply bind_ok_inv in Hauto; destruct Hauto as ([] & Henter & Hauto & T7);
    rewrite T7; clear T7.
  rewrite trace_ensure.
  apply ensure_ok_inv in Hauto; destruct Hauto as [Hbody Hexit].
  apply bind_ok_inv in Hbody; destruct Hbody as (o' & Hfwd & Hbody & T8);
    rewrite T8; clear T8.
  apply bind_ok_inv in Hbody; destruct Hbody as (ld' & Hcrit & Hbody & T9);
    rewrite T9; clear T9.
  unfold outcome in Hbody; simpl in Hbody; inversion Hbody; subst o' ld'; clear Hbody.
  rewrite outcome_lift in Hfmt.
  destruct (optimize_returns _ _ _ _ _ _ _ Hopt) as (loss & scaled & Hloss & Hsel).
  exists d, o, loss_dict, loss, scaled, grad_norm.
  split; [exact Hfmt|]; split; [exact Hloss|].
  called Hzero; called Henter; called Hfwd; called Hcrit; called Hexit.
  repeat rewrite select_events_app.
  rewrite Hsel.
  repeat (rewrite select_events_quiet;
          [|first [ apply calls_only_call_; reflexivity
                  | apply calls_only_lift
                  | unfold aggregate_losses, reduce_entry, train_rank0, direct_pass;
                    walk_calls; reflexivity ]]).
  unfold trace_of; simpl; rewrite app_nil_r; reflexivity.
Qed.

(** X15 on a step over one batch. *)
Lemma train_step_sequence_witness :
  exists d o loss_dict loss scaled grad_norm,
    format_data sample_globals sample_batch = Ok d /\
    dict_get loss_dict "loss" = Some (LTensor loss) /\
    select_events is_step_call
      (trace_of (quiet [sample_batch])
         (train_step sample_globals (Plain sample_network) None (Some tt) 0 sample_batch
            (mkTrainState 0 (Fin 0) (Fin 0))) tt)
    = [Ev ZeroGrad (Ok tt);
       Ev (AutocastEnter (mixed_precision (config sample_globals))) (Ok tt);
       Ev (Forward (Plain sample_network) (f_text_input d) (f_text_lengths d)
             (f_mel_input d) (f_mel_lengths d) (f_attn_mask d) (f_speaker_c d)) (Ok o);
       Ev (Criterion o (f_mel_lengths d) (f_text_lengths d)) (Ok loss_dict);
       Ev AutocastExit (Ok tt)]
      ++ update_events sample_globals (Plain sample_network) loss scaled grad_norm.
Proof.
  destruct (outcome (quiet [sample_batch])
              (train_step sample_globals (Plain sample_network) None (Some tt) 0
                 sample_batch (mkTrainState 0 (Fin 0) (Fin 0))) tt) as [s'|e] eqn:Ho;
    [|vm_compute in Ho; discriminate].
  exact (@train_step_sequence unit (quiet [sample_batch]) sample_globals
           (Plain sample_network) None (Some tt) 0 sample_batch
           (mkTrainState 0 (Fin 0) (Fin 0)) tt s' Ho).
Defined.

(** ** What [format_data] does to a batch *)

Lemma lookup_speakers_missing d names name :
  In name names -> dict_get d name = None ->
  lookup_speakers (Some d) names = Err (Exception "KeyError").
Proof.
  intros Hin Hnone; induction names as [|n rest IH]; [destruct Hin|].
  simpl; unfold dict_getitem.
  destruct (dict_get d n) as [e|] eqn:Hn; simpl; [|reflexivity].
  destruct Hin as [->|Hin]; [congruence|].
  rewrite (IH Hin); reflexivity.
Qed.

(** X16.  In embedding-layer mode, a batch that names a speaker missing
    from [speaker_mapping] makes [format_data] raise [KeyError] (the
    spectrogram being 3-dimensional, so that [permute] has passed). *)
Theorem format_data_unknown_speaker G data d name :
  use_speaker_embedding (config G) = true ->
  use_external_speaker_embedding_file (config G) = false ->
  speaker_mapping G = Some d ->
  length (shape (data_4 data)) = 3%nat ->
  In name (data_2 data) ->
  dict_get d name = None ->
  format_data G data = Err (Exception "KeyError").
Proof.
  intros Huse Hext Hmap Hdim Hin Hnone.
  unfold format_data, permute_0_2_1.
  destruct (shape (data_4 data)) as [|a [|b [|c [|? ?]]]]; try discriminate Hdim.
  simpl; rewrite Huse, Hext, Hmap.
  rewrite (@lookup_speakers_missing d _ name Hin Hnone); reflexivity.
Qed.

(** X16 on a batch of a speaker the mapping does not know. *)
Lemma format_data_unknown_speaker_witness :
  format_data id_globals stranger_batch = Err (Exception "KeyError").
Proof.
  apply (@format_data_unknown_speaker id_globals stranger_batch
           [("speaker_a", SpeakerId 0); ("speaker_b", SpeakerId 1)] "speaker_z");
    try reflexivity.
  left; reflexivity.
Defined.

Lemma nth_map_seq (f : nat -> pyfloat) n p :
  (p < n)%nat -> nth p (map f (seq 0 n)) NaN = f p.
Proof.
  intro Hp.
  rewrite (nth_indep _ NaN (f 0%nat)) by (rewrite length_map, length_seq; exact Hp).
  rewrite (map_nth f (seq 0 n) 0%nat p), seq_nth by exact Hp; reflexivity.
Qed.

Lemma inner_bound b c j k : (j < b)%nat -> (k < c)%nat -> (j * c + k < b * c)%nat.
Proof.
  intros Hj Hk.
  pose proof (Nat.mul_le_mono_r (S j) b c Hj) as H; simpl in H; lia.
Qed.

Lemma ravel3_bound a b c i j k :
  (i < a)%nat -> (j < b)%nat -> (k < c)%nat ->
  (i * (b * c) + (j * c + k) < a * (b * c))%nat.
Proof.
  intros Hi Hj Hk.
  pose proof (inner_bound Hj Hk) as Hjk.
  pose proof (Nat.mul_le_mono_r (S i) a (b * c) Hi) as H; simpl in H; lia.
Qed.

Lemma unravel3 a b c i j k :
  (i < a)%nat -> (j < b)%nat -> (k < c)%nat ->
  unravel [a; b; c] (i * (b * c) + (j * c + k)) = [i; j; k].
Proof.
  intros Hi Hj Hk; cbn [unravel prod_dims fold_right]; rewrite !Nat.mul_1_r, Nat.div_1_r.
  pose proof (inner_bound Hj Hk) as Hjk.
  assert (Hc : c <> 0%nat) by lia.
  assert (Hbc : (b * c)%nat <> 0%nat) by lia.
  f_equal; [|f_equal; [|f_equal]].
  - rewrite Nat.div_add_l by exact Hbc.
    rewrite (Nat.div_small (j * c + k)) by exact Hjk.
    rewrite Nat.add_0_r; apply Nat.mod_small; exact Hi.
  - replace (i * (b * c) + (j * c + k))%nat with ((i * b + j) * c + k)%nat by lia.
    rewrite Nat.div_add_l by exact Hc.
    rewrite (Nat.div_small k) by exact Hk.
    rewrite Nat.add_0_r, Nat.add_comm, Nat.Div0.mod_add.
    apply Nat.mod_small; exact Hj.
  - replace (i * (b * c) + (j * c + k))%nat with (k + (i * b + j) * c)%nat by lia.
    rewrite Nat.Div0.mod_add; apply Nat.mod_small; exact Hk.
Qed.

(** X17.  [format_data] hands the network the spectrograms in
    [B x D x T] layout: when it returns on a batch whose [data[4]] has
    shape [[B; T; D]], the [mel_input] it returns has shape [[B; D; T]]
    and its element [(b, d, t)] is element [(b, t, d)] of [data[4]]. *)
Theorem format_data_mel_layout G data out B T D :
  format_data G data = Ok out ->
  shape (data_4 data) = [B; T; D] ->
  shape (f_mel_input out) = [B; D; T] /\
  forall b d t, (b < B)%nat -> (d < D)%nat -> (t < T)%nat ->
    at3 (f_mel_input out) b d t = at3 (data_4 data) b t d.
Proof.
  intros H Hshape.
  unfold format_data, permute_0_2_1 in H; rewrite Hshape in H; simpl in H.
  destruct (if use_speaker_embedding (config G) then _ else _) as [sc|];
    simpl in H; [|discriminate].
  inversion H; subst out; clear H; simpl.
  assert (Hs : shape (cuda_if (use_cuda G) (permute_axes [0; 2; 1]%nat (data_4 data)))
               = [B; D; T]).
  { unfold cuda_if; destruct (use_cuda G); simpl; rewrite Hshape; reflexivity. }
  split; [exact Hs|].
  intros b d t Hb Hd Ht.
  unfold at3; rewrite Hs, Hshape.
  assert (Hv : values (cuda_if (use_cuda G) (permute_axes [0; 2; 1]%nat (data_4 data)))
               = values (permute_axes [0; 2; 1]%nat (data_4 data))).
  { unfold cuda_if; destruct (use_cuda G); reflexivity. }
  rewrite Hv; unfold permute_axes; rewrite Hshape.
  cbn [values map nth length seq index_of Nat.eqb ravel prod_dims fold_right].
  rewrite !Nat.mul_1_r, !Nat.add_0_r.
  rewrite nth_map_seq by (apply ravel3_bound; assumption).
  pose proof (unravel3 Hb Hd Ht) as Hu.
  cbn [unravel prod_dims fold_right] in Hu; rewrite !Nat.mul_1_r in Hu.
  cbn [unravel prod_dims fold_right]; rewrite !Nat.mul_1_r.
  rewrite Hu; cbn [nth]; rewrite Nat.add_0_r; reflexivity.
Qed.

(** X17 on a batch of two items, three frames, two bands. *)
Lemma format_data_mel_layout_witness :
  exists out,
    format_data id_globals wide_batch = Ok out /\
    shape (f_mel_input out) = [2; 2; 3]%nat /\
    at3 (f_mel_input out) 1 0 2 = at3 (data_4 wide_batch) 1 2 0.
Proof.
  destruct (format_data id_globals wide_batch) as [out|e] eqn:Hout;
    [|vm_compute in Hout; discriminate].
  exists out; split; [reflexivity|].
  destruct (@format_data_mel_layout id_globals wide_batch out 2 3 2 Hout eq_refl)
    as [Hs Hat].
  split; [exact Hs|].
  apply Hat; lia.
Defined.

(** ** A run without epochs *)

Lemma py_range_empty n : n <= 0 -> py_range n = [].
Proof.
  intro Hn; unfold py_range.
  replace (Z.to_nat n) with 0%nat by lia; reflexivity.
Qed.

(** X18.  With [config.epochs <= 0] the epoch loop of [main] is empty:
    the run sets everything up (and runs the data-dependent
    initialisation) but trains nothing and saves nothing, whatever the
    collaborators do. *)
Theorem no_epochs_no_training W (h : handler W) G w :
  epochs (config G) <= 0 ->
  Forall (fun c => is_training_call c = false) (calls (trace_of h (main G) w)).
Proof.
  intro Hn; apply calls_only_trace.
  assert (Hddi : forall G' loader m,
             calls_only (fun c => is_training_call c = false)
                        (data_depended_init G' loader m)).
  { intros G' loader m.
    unfold data_depended_init, with_no_grad, set_ddi_model, set_ddi_flows, batches_of.
    assert (Hloop : forall batches n,
               calls_only (fun c => is_training_call c = false) (ddi_loop G' m batches n)).
    { induction batches as [|data rest IH]; intro n; cbn [ddi_loop]; [exact I|].
      walk_calls; first [reflexivity | apply IH]. }
    destruct m as [net|net], loader as [l|]; simpl hasattr_module; cbv iota;
      walk_calls; first [reflexivity | apply Hloop]. }
  unfold main; cbv zeta; rewrite (py_range_empty Hn); cbn [for_each].
  unfold restore, restore_from, load_states, full_load, partial_load,
    initial_best_loss, setup_loader.
  repeat first
    [ walk_step
    | lazymatch goal with
      | |- calls_only _ (data_depended_init _ _ _) => apply Hddi
      | |- is_training_call _ = false => reflexivity
      end ].
Qed.

(** X18 on a run with [epochs = 0]. *)
Lemma no_epochs_no_training_witness :
  Forall (fun c => is_training_call c = false)
         (calls (trace_of (quiet [sample_batch]) (main no_epoch_globals) tt)).
Proof.
  apply (@no_epochs_no_training unit (quiet [sample_batch]) no_epoch_globals tt).
  vm_compute; discriminate.
Defined.

(** ** Runs of [main] that return *)

Section Peel.
Variable W : Type.
Variable h : handler W.

(** One step of a run that returns: the part [p] only makes calls
    allowed by [P] and is added to the prefix walked so far. *)
Lemma peel_quiet (P : call -> Prop) A B (p : prog A) (f : A -> prog B) w b
      (t pre : trace) :
  t = pre ++ trace_of h (bind p f) w ->
  Forall P (calls pre) ->
  calls_only P p ->
  outcome h (bind p f) w = Ok b ->
  exists a,
    outcome h p w = Ok a /\
    outcome h (f a) (world_after h p w) = Ok b /\
    t = (pre ++ trace_of h p w) ++ trace_of h (f a) (world_after h p w) /\
    Forall P (calls (pre ++ trace_of h p w)).
Proof.
  intros Ht Hpre Hp Ho.
  apply bind_ok_inv in Ho; destruct Ho as (a & Ha & Ho & T).
  exists a; repeat split; try assumption.
  - rewrite Ht, T, app_assoc; reflexivity.
  - unfold calls in *; rewrite map_app; apply Forall_app; split; [exact Hpre|].
    apply calls_only_trace; exact Hp.
Qed.

End Peel.

Ltac quiet_selection :=
  first [ apply calls_only_call_; reflexivity
        | apply calls_only_lift
        | unfold setup_loader; walk_calls; reflexivity
        | walk_calls; reflexivity ].

Lemma data_depended_init_no_selection G loader m :
  calls_only (fun c => is_selection_call c = false) (data_depended_init G loader m).
Proof.
  unfold data_depended_init, with_no_grad, set_ddi_model, set_ddi_flows, batches_of.
  assert (Hloop : forall batches n,
             calls_only (fun c => is_selection_call c = false) (ddi_loop G m batches n)).
  { induction batches as [|data rest IH]; intro n; cbn [ddi_loop]; [exact I|].
    walk_calls; first [reflexivity | apply IH]. }
  destruct m as [net|net], loader as [l|]; simpl hasattr_module; cbv iota;
    walk_calls; first [reflexivity | apply Hloop].
Qed.

(** Peels one part off [Ho], the outcome of what is left of the run,
    keeping [Ht], the trace so far, and [Hpre], what is known of the
    prefix. *)
Ltac peel_part Ho Ht Hpre a Hq :=
  lazymatch type of Ho with
  | outcome ?h (bind ?p ?f) ?w = Ok ?b =>
      lazymatch type of Ht with
      | ?t = ?pre ++ _ =>
          let Hc := fresh "Hc" in
          assert (Hc : calls_only (fun c => is_selection_call c = false) p)
            by first [ apply data_depended_init_no_selection | quiet_selection ];
          let Ho' := fresh "Ho" in
          let Ht' := fresh "Ht" in
          let Hpre' := fresh "Hpre" in
          destruct (@peel_quiet _ h (fun c => is_selection_call c = false) _ _
                      p f w b t pre Ht Hpre Hc Ho) as (a & Hq & Ho' & Ht' & Hpre');
          clear Ho Ht Hpre Hc;
          rename Ho' into Ho, Ht' into Ht, Hpre' into Hpre
      end
  end.

Lemma main_ok_inv W (h : handler W) G0 w :
  outcome h (main G0) w = Ok tt ->
  exists mapping G b m tl el sched s' pre w_r mid w_b post w_l,
    trace_of h (main G0) w
    = pre ++ trace_of h (restore (with_speaker_mapping G0 mapping)) w_r
      ++ mid ++ trace_of h (initial_best_loss G) w_b
      ++ post
      ++ trace_of h (for_each (py_range (epochs (config G0)))
                       (run_epoch G tl el m sched)
                       (mkEpochState (restore_step (args G)) b)) w_l /\
    outcome h (restore (with_speaker_mapping G0 mapping)) w_r = Ok G /\
    outcome h (initial_best_loss G) w_b = Ok b /\
    outcome h (for_each (py_range (epochs (config G0)))
                 (run_epoch G tl el m sched)
                 (mkEpochState (restore_step (args G)) b)) w_l = Ok s' /\
    Forall (fun c => is_selection_call c = false) (calls pre) /\
    Forall (fun c => is_selection_call c = false) (calls mid) /\
    Forall (fun c => is_selection_call c = false) (calls post) /\
    (noam_schedule (config G0) = true ->
     In (Ev (NoamLRNew (warmup_steps (config G0)) (restore_step (args G) - 1)) (Ok tt))
        mid).
Proof.
  intro Ho.
  remember (trace_of h (main G0) w) as t eqn:Ht.
  rewrite <- (app_nil_l (trace_of h (main G0) w)) in Ht.
  assert (Hpre : Forall (fun c => is_selection_call c = false) (calls [])) by constructor.
  unfold main in Ho, Ht; cbv zeta in Ho, Ht; cbn [ret] in Ho, Ht.
  peel_part Ho Ht Hpre a1 Hq1.
  peel_part Ho Ht Hpre a2 Hq2.
  peel_part Ho Ht Hpre a3 Hq3.
  peel_part Ho Ht Hpre a4 Hq4.
  peel_part Ho Ht Hpre sp Hq5.
  destruct sp as [[num_speakers speaker_embedding_dim] mapping]; cbv iota beta in Ho, Ht.
  peel_part Ho Ht Hpre net Hq6.
  peel_part Ho Ht Hpre a7 Hq7.
  peel_part Ho Ht Hpre a8 Hq8.
  match type of Ht with
  | t = ?pre0 ++ _ => set (pre := pre0) in *
  end.
  apply bind_ok_inv in Ho; destruct Ho as (G & Hres & Ho & T); rewrite T in Ht; clear T.
  match type of Hres with
  | outcome h _ ?w0 = _ => set (w_r := w0) in *
  end.
  remember (trace_of h _ (world_after h (restore (with_speaker_mapping G0 mapping)) w_r))
    as t2 eqn:Ht2 in Ht.
  rewrite <- (app_nil_l (trace_of h _ _)) in Ht2.
  assert (Hmid : Forall (fun c => is_selection_call c = false) (calls [])) by constructor.
  peel_part Ho Ht2 Hmid b1 Hr1.
  peel_part Ho Ht2 Hmid m Hr2.
  peel_part Ho Ht2 Hmid sched Hr3.
  match type of Hr3 with
  | outcome h ?p0 ?w0 = _ => set (mid_sched := trace_of h p0 w0) in *
  end.
  assert (Hnoam : noam_schedule (config G0) = true ->
                  exists r,
                    r = Ev (NoamLRNew (warmup_steps (config G0))
                              (restore_step (args G) - 1)) (Ok tt) /\
                    In r mid_sched).
  { intro Hn; eexists; split; [reflexivity|].
    unfold mid_sched; clear Ht2 Hmid; revert Hr3; rewrite Hn; intro Hr3.
    apply bind_ok_inv in Hr3; destruct Hr3 as ([] & Hcall & _ & T); rewrite T.
    apply in_or_app; left; called Hcall; left; reflexivity. }
  peel_part Ho Ht2 Hmid num_params Hr4.
  peel_part Ho Ht2 Hmid b5 Hr5.
  match type of Ht2 with
  | t2 = ?mid0 ++ _ => set (mid := mid0) in *
  end.
  apply bind_ok_inv in Ho; destruct Ho as (b & Hbest & Ho & T); rewrite T in Ht2; clear T.
  match type of Hbest with
  | outcome h _ ?w0 = _ => set (w_b := w0) in *
  end.
  remember (trace_of h _ (world_after h (initial_best_loss G) w_b)) as t3 eqn:Ht3 in Ht2.
  rewrite <- (app_nil_l (trace_of h _ _)) in Ht3.
  assert (Hpost : Forall (fun c => is_selection_call c = false) (calls [])) by constructor.
  peel_part Ho Ht3 Hpost tld Hs1.
  peel_part Ho Ht3 Hpost eld Hs2.
  peel_part Ho Ht3 Hpost m' Hs3.
  match type of Ht3 with
  | t3 = ?post0 ++ _ => set (post := post0) in *
  end.
  apply bind_ok_inv in Ho; destruct Ho as (s' & Hloop & Ho & T); rewrite T in Ht3; clear T.
  match type of Hloop with
  | outcome h _ ?w0 = _ => set (w_l := w0) in *
  end.
  exists mapping, G, b, m', tld, eld, sched, s', pre, w_r, mid, w_b, post, w_l.
  split; [|split; [exact Hres|split; [exact Hbest|split; [exact Hloop|]]]].
  - rewrite Ht, Ht2, Ht3.
    change (trace_of h (Ret tt) (world_after h _ w_l)) with (@nil event).
    rewrite app_nil_r; repeat rewrite <- app_assoc; reflexivity.
  - split; [exact Hpre|split; [exact Hmid|split; [exact Hpost|]]].
    intro Hn; destruct (Hnoam Hn) as (r & -> & Hin).
    unfold mid; in_app.
Qed.

(** ** Restoring a checkpoint *)

Section RestoreRuns.
Variable W : Type.
Variable h : handler W.

Lemma full_load_returns ckpt w :
  outcome h (full_load ckpt) w = Ok tt ->
  trace_of h (full_load ckpt) w = full_load_events ckpt.
Proof.
  unfold full_load, full_load_events; cbn [ret]; intro Ho.
  apply bind_ok_inv in Ho; destruct Ho as ([] & H1 & H2 & T); rewrite T.
  called H1; called H2; reflexivity.
Qed.

Lemma full_load_raises ckpt w e :
  outcome h (full_load ckpt) w = Err e ->
  full_load_failed ckpt e (trace_of h (full_load ckpt) w).
Proof.
  unfold full_load, full_load_failed, outcome, trace_of, call_; simpl.
  destruct (h (OptimizerLoadStateDict (ck_optimizer ckpt)) w) as [w1 [[]|e1]]; simpl.
  - destruct (h (ModelLoadStateDict (ck_model ckpt)) w1) as [w2 [[]|e2]]; simpl;
      intro Ho; inversion Ho; right; reflexivity.
  - intro Ho; inversion Ho; left; reflexivity.
Qed.

Lemma restore_returns G path w G' :
  restore_path (args G) = Some path ->
  path <> EmptyString ->
  outcome h (restore G) w = Ok G' ->
  exists ckpt load,
    G' = with_restore_step G (ck_step ckpt) /\
    trace_of h (restore G) w
    = restore_opening path ckpt ++ load ++ restore_closing G ckpt /\
    restored_load ckpt load.
Proof.
  intros Hpath Hne; unfold restore; rewrite Hpath.
  destruct path as [|c0 p0]; [congruence|]; intro Ho.
  apply bind_ok_inv in Ho; destruct Ho as ([] & Hprint & Ho & T1); rewrite T1; clear T1.
  apply bind_ok_inv in Ho; destruct Ho as (ckpt & Hload & Ho & T2); rewrite T2; clear T2.
  unfold restore_from in *.
  apply bind_ok_inv in Ho; destruct Ho as ([] & Hstates & Ho & T3); rewrite T3; clear T3.
  apply bind_ok_inv in Ho; destruct Ho as ([] & Hlr & Ho & T4); rewrite T4; clear T4.
  apply bind_ok_inv in Ho; destruct Ho as ([] & Hdone & Ho & T5); rewrite T5; clear T5.
  unfold outcome in Ho; simpl in Ho; inversion Ho; subst G'; clear Ho.
  called Hprint; called Hload; called Hlr; called Hdone.
  unfold load_states in *.
  rewrite outcome_try_except in Hstates; rewrite trace_try_except.
  destruct (outcome h (full_load ckpt) _) as [[]|e] eqn:Hfull.
  - exists ckpt, (full_load_events ckpt); split; [reflexivity|]; split.
    + pose proof (full_load_returns _ _ Hfull) as E; cbn [ret] in E |- *.
      rewrite E; reflexivity.
    + left; reflexivity.
  - destruct (proj2 (partial_load_trace h ckpt _) Hstates) as (d & d' & Hpartial).
    exists ckpt, (trace_of h (full_load ckpt)
                    (world_after h (call_ (TorchLoad (String c0 p0)))
                       (world_after h
                          (call_ (Print [Str " > Restoring from ";
                                         Str (basename (String c0 p0)); Str " ..."])) w))
                  ++ fallback_events ckpt d d').
    split; [reflexivity|]; split.
    + cbn [ret] in *; rewrite Hpartial.
      unfold restore_opening, restore_closing, fallback_events, trace_of; simpl.
      repeat rewrite <- app_assoc; reflexivity.
    + right; exists e; eexists; exists d, d'; split; [|reflexivity].
      apply full_load_raises; exact Hfull.
Qed.

Lemma restore_recovers G path w w1 w2 ckpt e :
  restore_path (args G) = Some path ->
  path <> EmptyString ->
  h (Print [Str " > Restoring from "; Str (basename path); Str " ..."]) w = (w1, Ok tt) ->
  h (TorchLoad path) w1 = (w2, Ok ckpt) ->
  outcome h (full_load ckpt) w2 = Err e ->
  exists failed r rest,
    full_load_failed ckpt e failed /\
    trace_of h (restore G) w
    = restore_opening path ckpt ++ failed
      ++ Ev (Print [Str " > Partial model initialization."]) r :: rest /\
    (Forall (fun ev => ev_ok ev = true)
            (Ev (Print [Str " > Partial model initialization."]) r :: rest) ->
     outcome h (restore G) w = Ok (with_restore_step G (ck_step ckpt))).
Proof.
  intros Hpath Hne Hprint Hload Hfull.
  unfold restore; rewrite Hpath.
  destruct path as [|c0 p0]; [congruence|].
  unfold restore_from, load_states, full_load, partial_load, trace_of, outcome, call_ in *.
  simpl in *; rewrite Hprint; simpl; rewrite Hload; simpl.
  destruct (h (OptimizerLoadStateDict (ck_optimizer ckpt)) w2) as [wa [[]|ea]]; simpl in *.
  - destruct (h (ModelLoadStateDict (ck_model ckpt)) wa) as [wb [[]|eb]]; simpl in *;
      [discriminate Hfull|].
    inversion Hfull; subst eb; clear Hfull.
    exists [Ev (OptimizerLoadStateDict (ck_optimizer ckpt)) (Ok tt);
            Ev (ModelLoadStateDict (ck_model ckpt)) (Err e)].
    repeat (match goal with
            | |- context [h ?c ?w0] => destruct (h c w0) as [? [?|?]]
            end; simpl).
    all: eexists; eexists; split; [right; reflexivity|]; split; [reflexivity|].
    all: intro Hall.
    all: repeat match goal with x : unit |- _ => destruct x end.
    all: first [ reflexivity
               | exfalso;
                 repeat (match goal with
                         | Hf : Forall _ (_ :: _) |- _ =>
                             let Hok := fresh "Hok" in
                             let Hrest := fresh "Hrest" in
                             inversion Hf as [|? ? Hok Hrest]; clear Hf;
                             try discriminate Hok
                         end) ].
  - inversion Hfull; subst ea; clear Hfull.
    exists [Ev (OptimizerLoadStateDict (ck_optimizer ckpt)) (Err e)].
    repeat (match goal with
            | |- context [h ?c ?w0] => destruct (h c w0) as [? [?|?]]
            end; simpl).
    all: eexists; eexists; split; [left; reflexivity|]; split; [reflexivity|].
    all: intro Hall.
    all: repeat match goal with x : unit |- _ => destruct x end.
    all: first [ reflexivity
               | exfalso;
                 repeat (match goal with
                         | Hf : Forall _ (_ :: _) |- _ =>
                             let Hok := fresh "Hok" in
                             let Hrest := fresh "Hrest" in
                             inversion Hf as [|? ? Hok Hrest]; clear Hf;
                             try discriminate Hok
                         end) ].
Qed.

End RestoreRuns.

Lemma no_selection_events t :
  Forall (fun c => is_selection_call c = false) (calls t) ->
  select_events is_torch_load t = [] /\ select_events is_save_best t = [].
Proof.
  unfold select_events, calls; induction t as [|e t IH]; intro H; [split; reflexivity|].
  inversion H as [|? ? He Ht]; subst.
  destruct (IH Ht) as [IH1 IH2].
  unfold is_selection_call in He; apply Bool.orb_false_elim in He; destruct He as [H1 H2].
  simpl; rewrite H1, H2; split; assumption.
Qed.

(** C5.  The restore step of [main] (a restore path being given),
    whatever the collaborators do.  A restore that returns has printed
    its first line, read the checkpoint from the restore path and then
    either made the full load (the optimizer's and the model's
    [load_state_dict] on the checkpoint's states), or, after a full load
    that raised, the fallback: the warning, [model.state_dict()],
    [set_init_dict] on that dictionary and the checkpoint's model state,
    and [model.load_state_dict] on what [set_init_dict] returned; in both
    cases it then sets the initial learning rate, prints the restored
    step and leaves [args.restore_step] at the step stored in the
    checkpoint.  Whenever the full load raises, whatever the exception,
    the next call is the warning print, and the restore returns as soon
    as the calls from there on return.  And a [main] that returns has
    made these calls after its set-up, has read no file before, has then
    run all its epochs and, under [noam_schedule], has built the
    scheduler from the checkpoint's step. *)
Theorem restore_recovers_locally W (h : handler W) G path :
  restore_path (args G) = Some path ->
  path <> EmptyString ->
  (forall w G',
     outcome h (restore G) w = Ok G' ->
     exists ckpt load,
       G' = with_restore_step G (ck_step ckpt) /\
       trace_of h (restore G) w
       = restore_opening path ckpt ++ load ++ restore_closing G ckpt /\
       restored_load ckpt load) /\
  (forall w w1 w2 ckpt e,
     h (Print [Str " > Restoring from "; Str (basename path); Str " ..."]) w
     = (w1, Ok tt) ->
     h (TorchLoad path) w1 = (w2, Ok ckpt) ->
     outcome h (full_load ckpt) w2 = Err e ->
     exists failed r rest,
       full_load_failed ckpt e failed /\
       trace_of h (restore G) w
       = restore_opening path ckpt ++ failed
         ++ Ev (Print [Str " > Partial model initialization."]) r :: rest /\
       (Forall (fun ev => ev_ok ev = true)
               (Ev (Print [Str " > Partial model initialization."]) r :: rest) ->
        outcome h (restore G) w = Ok (with_restore_step G (ck_step ckpt)))) /\
  (forall w,
     outcome h (main G) w = Ok tt ->
     exists pre ckpt load post,
       trace_of h (main G) w
       = pre ++ restore_opening path ckpt ++ load ++ restore_closing G ckpt ++ post /\
       restored_load ckpt load /\
       select_events is_torch_load pre = [] /\
       length (select_events is_save_best post) = Z.to_nat (epochs (config G)) /\
       (noam_schedule (config G) = true ->
        In (Ev (NoamLRNew (warmup_steps (config G)) (ck_step ckpt - 1)) (Ok tt)) post)).
Proof.
  intros Hpath Hne; split; [|split].
  - intros w G' Ho; exact (@restore_returns W h G path w G' Hpath Hne Ho).
  - intros w w1 w2 ckpt e Hprint Hload Hfull.
    exact (@restore_recovers W h G path w w1 w2 ckpt e Hpath Hne Hprint Hload Hfull).
  - intros w Ho.
    destruct (@main_ok_inv W h G w Ho)
      as (mapping & G' & b & m & tld & eld & sched & s' & pre & w_r & mid & w_b & post
          & w_l & Ht & Hres & Hbest & Hloop & Hpre & Hmid & Hpost & Hnoam).
    destruct (@restore_returns W h (with_speaker_mapping G mapping) path w_r G'
                Hpath Hne Hres) as (ckpt & load & HG' & Htr & Hshape).
    exists pre, ckpt, load.
    eexists; split; [|split; [exact Hshape|split; [exact (proj1 (no_selection_events _ Hpre))|]]].
    + rewrite Ht, Htr.
      change (restore_closing (with_speaker_mapping G mapping) ckpt)
        with (restore_closing G ckpt).
      repeat rewrite <- app_assoc; reflexivity.
    + assert (Hstep : restore_step (args G') = ck_step ckpt) by (rewrite HG'; reflexivity).
      split.
      * repeat rewrite select_events_app.
        rewrite (proj2 (no_selection_events _ Hmid)), (proj2 (no_selection_events _ Hpost)).
        rewrite (select_events_quiet h is_save_best (initial_best_loss G') w_b
                   (initial_best_loss_never_saves_best G')).
        cbn [app]; unfold py_range in *.
        exact (proj2 (@epoch_loop_chain W h G' tld eld m sched 0
                        (Z.to_nat (epochs (config G))) _ w_l s' Hloop)).
      * intro Hn; specialize (Hnoam Hn); rewrite Hstep in Hnoam.
        apply in_or_app; left; exact Hnoam.
Qed.

(** C5 on a run whose optimizer rejects the checkpoint's state: [main]
    falls back and returns. *)
Lemma restore_recovers_locally_witness :
  exists pre ckpt load post,
    trace_of rejecting_optimizer (main restoring_globals) tt
    = pre ++ restore_opening "checkpoint.pth.tar" ckpt ++ load
      ++ restore_closing restoring_globals ckpt ++ post /\
    restored_load ckpt load /\
    select_events is_torch_load pre = [] /\
    length (select_events is_save_best post)
    = Z.to_nat (epochs (config restoring_globals)) /\
    (noam_schedule (config restoring_globals) = true ->
     In (Ev (NoamLRNew (warmup_steps (config restoring_globals)) (ck_step ckpt - 1))
            (Ok tt)) post).
Proof.
  destruct (@restore_recovers_locally unit rejecting_optimizer restoring_globals
              "checkpoint.pth.tar" eq_refl) as (_ & _ & Hmain); [discriminate|].
  apply Hmain; vm_compute; reflexivity.
Defined.

(** ** The best loss, from its baseline through the epochs *)

Section BestLossRuns.
Variable W : Type.
Variable h : handler W.
Variable G : Globals.

Lemma run_epoch_target train_loader eval_loader m scheduler epoch s w e
      target best m' gs ep :
  In e (trace_of h (run_epoch G train_loader eval_loader m scheduler epoch s) w) ->
  ev_call e = SaveBestModel target best m' gs ep ->
  exists tl train_avg eval_avg,
    train_loader = Some tl /\
    outcome h (train G tl m scheduler (ep_global_step s) epoch) (at_train h w)
    = Ok (train_avg, gs) /\
    outcome h (evaluate G eval_loader m gs epoch) (at_evaluate h G tl m scheduler epoch s w)
    = Ok eval_avg /\
    dict_get (if run_eval (config G) then eval_avg else train_avg) "avg_loss"
    = Some target /\
    best = ep_best_loss s /\ m' = m /\ ep = epoch.
Proof.
  intros Hin Hcall; unfold run_epoch in Hin; unfold at_evaluate, at_train.
  assert (Hsave : is_save_best (ev_call e) = true) by (rewrite Hcall; reflexivity).
  apply in_trace_bind in Hin; destruct Hin as [Hin | (_ & _ & Hin)].
  { exfalso; eapply not_in_quiet; [|exact Hin|exact Hsave]; walk_calls; reflexivity. }
  apply in_trace_bind in Hin; destruct Hin as [Hin | (tl & Htl & Hin)].
  { rewrite trace_lift in Hin; contradiction. }
  rewrite outcome_lift in Htl; rewrite world_lift in Hin.
  destruct train_loader as [tl'|]; [|discriminate]; inversion Htl; subst tl'; clear Htl.
  apply in_trace_bind in Hin; destruct Hin as [Hin | ([train_avg gs'] & Htrain & Hin)].
  { exfalso; eapply not_in_quiet; [|exact Hin|exact Hsave].
    apply train_never_saves_best. }
  apply in_trace_bind in Hin; destruct Hin as [Hin | (eval_avg & Heval & Hin)].
  { exfalso; eapply not_in_quiet; [|exact Hin|exact Hsave].
    apply evaluate_never_saves_best. }
  apply in_trace_bind in Hin; destruct Hin as [Hin | (_ & _ & Hin)].
  { exfalso; eapply not_in_quiet; [|exact Hin|exact Hsave]; walk_calls; reflexivity. }
  apply in_trace_bind in Hin; destruct Hin as [Hin | (t0 & Ht0 & Hin)].
  { rewrite trace_lift in Hin; contradiction. }
  rewrite outcome_lift in Ht0.
  apply in_trace_bind in Hin; destruct Hin as [Hin | (t1 & Ht1 & Hin)].
  { destruct (run_eval (config G)); [rewrite trace_lift in Hin|]; contradiction. }
  assert (Htarget : dict_get (if run_eval (config G) then eval_avg else train_avg)
                             "avg_loss" = Some t1).
  { unfold dict_getitem in *.
    destruct (run_eval (config G)).
    - rewrite outcome_lift in Ht1.
      destruct (dict_get eval_avg "avg_loss"); inversion Ht1; reflexivity.
    - unfold outcome in Ht1; simpl in Ht1; inversion Ht1; subst t1.
      destruct (dict_get train_avg "avg_loss"); inversion Ht0; reflexivity. }
  apply in_trace_bind in Hin; destruct Hin as [Hin | (b & Hb & Hin)].
  - cbn [ret] in Hin.
    match type of Hin with
    | In _ (trace_of h (call_ ?c) ?w0) =>
        pose proof (trace_call_ h c w0) as E; cbn [ret] in E; rewrite E in Hin; clear E
    end.
    destruct Hin as [Hin|[]]; subst e; simpl in Hcall; inversion Hcall; subst.
    exists tl, train_avg, eval_avg; repeat split; auto.
  - contradiction.
Qed.

Lemma run_epoch_returns train_loader eval_loader m scheduler epoch s w s1 :
  outcome h (run_epoch G train_loader eval_loader m scheduler epoch s) w = Ok s1 ->
  exists tl train_avg eval_avg target,
    train_loader = Some tl /\
    outcome h (train G tl m scheduler (ep_global_step s) epoch) (at_train h w)
    = Ok (train_avg, ep_global_step s1) /\
    outcome h (evaluate G eval_loader m (ep_global_step s1) epoch)
              (at_evaluate h G tl m scheduler epoch s w)
    = Ok eval_avg /\
    dict_get (if run_eval (config G) then eval_avg else train_avg) "avg_loss"
    = Some target /\
    trace_of h (run_epoch G train_loader eval_loader m scheduler epoch s) w
    = [Ev (CLogger "print_epoch_start") (Ok tt)]
      ++ trace_of h (train G tl m scheduler (ep_global_step s) epoch) (at_train h w)
      ++ trace_of h (evaluate G eval_loader m (ep_global_step s1) epoch)
                  (at_evaluate h G tl m scheduler epoch s w)
      ++ [Ev (CLogger "print_epoch_end") (Ok tt);
          Ev (SaveBestModel target (ep_best_loss s) m (ep_global_step s1) epoch)
             (Ok (ep_best_loss s1))].
Proof.
  unfold run_epoch, at_evaluate, at_train; cbn [ret]; intro Ho.
  apply bind_ok_inv in Ho; destruct Ho as ([] & Hstart & Ho & T1); rewrite T1; clear T1.
  apply bind_ok_inv in Ho; destruct Ho as (tl & Htl & Ho & T2); rewrite T2; clear T2.
  rewrite outcome_lift in Htl; rewrite world_lift in *; rewrite trace_lift.
  destruct train_loader as [tl'|]; [|discriminate]; inversion Htl; subst tl'; clear Htl.
  apply bind_ok_inv in Ho; destruct Ho as ([train_avg gs] & Htrain & Ho & T3);
    rewrite T3; clear T3.
  apply bind_ok_inv in Ho; destruct Ho as (eval_avg & Heval & Ho & T4); rewrite T4; clear T4.
  apply bind_ok_inv in Ho; destruct Ho as ([] & Hend & Ho & T5); rewrite T5; clear T5.
  apply bind_ok_inv in Ho; destruct Ho as (t0 & Ht0 & Ho & T6); rewrite T6; clear T6.
  apply bind_ok_inv in Ho; destruct Ho as (target & Ht & Ho & T7); rewrite T7; clear T7.
  apply bind_ok_inv in Ho; destruct Ho as (best & Hbest & Ho & T8); rewrite T8; clear T8.
  unfold outcome in Ho; simpl in Ho; inversion Ho; subst s1; clear Ho.
  cbn [ep_global_step ep_best_loss].
  exists tl, train_avg, eval_avg, target.
  split; [reflexivity|]; split; [exact Htrain|]; split; [exact Heval|]; split.
  - rewrite outcome_lift in Ht0; unfold dict_getitem in *.
    destruct (run_eval (config G)).
    + rewrite outcome_lift in Ht.
      destruct (dict_get eval_avg "avg_loss"); inversion Ht; reflexivity.
    + unfold outcome in Ht; simpl in Ht; inversion Ht; subst target.
      destruct (dict_get train_avg "avg_loss"); inversion Ht0; reflexivity.
  - called Hstart; called Hend; called Hbest.
    rewrite trace_lift.
    assert (Hq : forall w0, trace_of h
                   (if run_eval (config G)
                    then lift (dict_getitem eval_avg "avg_loss")
                    else Ret t0) w0 = []).
    { intro w0; destruct (run_eval (config G)); [apply trace_lift | reflexivity]. }
    rewrite Hq; unfold trace_of at 3; simpl.
    reflexivity.
Qed.

End BestLossRuns.

Lemma restored_load_no_torch_load ckpt load :
  restored_load ckpt load -> select_events is_torch_load load = [].
Proof.
  intros [->|(e & failed & d & d' & [->| ->] & ->)]; reflexivity.
Qed.

Lemma restore_loads W (h : handler W) G w G' :
  outcome h (restore G) w = Ok G' ->
  match restore_path (args G) with
  | Some (String _ _ as rp) =>
      exists ckpt,
        G' = with_restore_step G (ck_step ckpt) /\
        select_events is_torch_load (trace_of h (restore G) w)
        = [Ev (TorchLoad rp) (Ok ckpt)]
  | _ => G' = with_restore_step G 0 /\
         select_events is_torch_load (trace_of h (restore G) w) = []
  end.
Proof.
  intro Ho.
  destruct (restore_path (args G)) as [[|c0 p0]|] eqn:Hpath.
  - unfold restore, outcome, trace_of in *; rewrite Hpath in *; simpl in *.
    inversion Ho; split; reflexivity.
  - assert (Hne : String c0 p0 <> EmptyString) by discriminate.
    destruct (@restore_returns W h G (String c0 p0) w G' Hpath Hne Ho)
      as (ckpt & load & HG' & Htr & Hshape).
    exists ckpt; split; [exact HG'|].
    rewrite Htr; repeat rewrite select_events_app.
    rewrite (restored_load_no_torch_load Hshape); reflexivity.
  - unfold restore, outcome, trace_of in *; rewrite Hpath in *; simpl in *.
    inversion Ho; split; reflexivity.
Qed.

Lemma initial_best_loss_loads W (h : handler W) G w b :
  outcome h (initial_best_loss G) w = Ok b ->
  if ((restore_step (args G) =? 0) || negb (truthy_str (best_path (args G))))%bool
  then b = float_inf /\
       select_events is_torch_load (trace_of h (initial_best_loss G) w) = []
  else exists bp best,
         best_path (args G) = Some bp /\
         select_events is_torch_load (trace_of h (initial_best_loss G) w)
         = [Ev (TorchLoad bp) (Ok best)] /\
         b = ck_model_loss best.
Proof.
  unfold initial_best_loss.
  destruct ((restore_step (args G) =? 0) || negb (truthy_str (best_path (args G))))%bool.
  - intro Ho; split.
    + split_bind Ho T; unfold outcome in Ho; simpl in Ho; inversion Ho; reflexivity.
    + apply select_events_quiet; walk_calls; reflexivity.
  - destruct (best_path (args G)) as [path|]; [|discriminate].
    intro Ho; cbn [ret] in *.
    apply bind_ok_inv in Ho; destruct Ho as ([] & Hp1 & Ho & T1); rewrite T1; clear T1.
    apply bind_ok_inv in Ho; destruct Ho as (ckpt & Hload & Ho & T2); rewrite T2; clear T2.
    apply bind_ok_inv in Ho; destruct Ho as ([] & Hp2 & Ho & T3); rewrite T3; clear T3.
    unfold outcome in Ho; simpl in Ho; inversion Ho; subst b.
    exists path, ckpt; split; [reflexivity|]; split; [|reflexivity].
    called Hp1; called Hload; called Hp2; reflexivity.
Qed.

Lemma epoch_loop_never_loads G train_loader eval_loader m scheduler epochs s :
  calls_only (fun c => is_torch_load c = false)
             (for_each epochs (run_epoch G train_loader eval_loader m scheduler) s).
Proof.
  apply calls_only_for_each; intros epoch s0.
  unfold run_epoch, train, train_step, with_autocast, optimize, aggregate_losses,
    reduce_entry, train_rank0, direct_pass, evaluate, with_no_grad, eval_pass,
    eval_step, eval_rank0, test_run, test_speaker, randrange, test_sentence_loop,
    iteration, synthesize_sentence, report_sentence_error.
  repeat first
    [ walk_step
    | lazymatch goal with
      | |- calls_only _ (aggregate_losses _ _) => unfold aggregate_losses, reduce_entry
      | |- calls_only _ (direct_pass _ _) => unfold direct_pass
      | |- is_torch_load _ = false => reflexivity
      end ].
Qed.


Lemma ends_with_app t1 t2 e : ends_with t2 e -> ends_with (t1 ++ t2) e.
Proof. intros [pre ->]; exists (t1 ++ pre); rewrite app_assoc; reflexivity. Qed.

Lemma select_prefix f t1 t2 : select f (t1 ++ t2) = [] -> select f t1 = [].
Proof. rewrite select_app; intro H; apply app_eq_nil in H; tauto. Qed.

Lemma select_events_prefix f t1 t2 :
  select_events f (t1 ++ t2) = [] -> select_events f t1 = [].
Proof. rewrite select_events_app; intro H; apply app_eq_nil in H; tauto. Qed.

Section EpochShape.
Variable W : Type.
Variable h : handler W.
Variable G : Globals.

Lemma train_never_enters_no_grad loader m scheduler global_step epoch :
  calls_only (fun c => is_no_grad c = false) (train G loader m scheduler global_step epoch).
Proof.
  unfold train, train_step, with_autocast, optimize, aggregate_losses, reduce_entry,
    train_rank0, direct_pass.
  repeat first
    [ walk_step
    | lazymatch goal with
      | |- calls_only _ (aggregate_losses _ _) => unfold aggregate_losses, reduce_entry
      | |- calls_only _ (direct_pass _ _) => unfold direct_pass
      | |- is_no_grad _ = false => reflexivity
      end ].
Qed.

Lemma train_ends loader m scheduler global_step epoch w avg gs :
  outcome h (train G loader m scheduler global_step epoch) w = Ok (avg, gs) ->
  ends_with (trace_of h (train G loader m scheduler global_step epoch) w)
            (Ev KeepAvgValues (Ok avg)).
Proof.
  unfold train; cbv zeta; cbn [ret]; intro Ho.
  repeat (lazymatch type of Ho with
          | outcome _ (bind (call_ KeepAvgValues) (fun avg_values => Ret _)) _ = _ => fail
          | outcome _ (bind _ _) _ = _ =>
              let T := fresh "T" in
              let a := fresh "a" in
              let Hq := fresh "Hq" in
              apply bind_ok_inv in Ho; destruct Ho as (a & Hq & Ho & T);
              rewrite T; clear T Hq; apply ends_with_app
          end).
  apply bind_ok_inv in Ho; destruct Ho as (avg' & Hcall & Ho & T); rewrite T; clear T.
  unfold outcome in Ho; simpl in Ho; inversion Ho; subst.
  called Hcall; exists []; reflexivity.
Qed.

Lemma evaluate_shape loader m global_step epoch w avg :
  outcome h (evaluate G loader m global_step epoch) w = Ok avg ->
  exists body,
    trace_of h (evaluate G loader m global_step epoch) w
    = Ev NoGradEnter (Ok tt) :: body
      ++ [Ev KeepAvgValues (Ok avg); Ev NoGradExit (Ok tt)] /\
    select is_no_grad body = [] /\
    select_events is_save_best body = [].
Proof.
  change (evaluate G loader m global_step epoch)
    with (with_no_grad (evaluate_body G loader m global_step epoch)).
  unfold with_no_grad; cbn [ret]; intro Ho.
  apply bind_ok_inv in Ho; destruct Ho as ([] & Henter & Ho & T); rewrite T; clear T.
  apply ensure_ok_inv in Ho; destruct Ho as [Hbody Hexit].
  rewrite trace_ensure.
  called Henter; called Hexit.
  set (w1 := world_after h (call_ NoGradEnter) w) in *.
  assert (Hquiet : select is_no_grad
                     (trace_of h (evaluate_body G loader m global_step epoch) w1) = []).
  { apply select_quiet.
    eapply calls_only_weaken; [|apply evaluate_body_observes].
    intros c [_ Hc]; exact Hc. }
  assert (Hsave : select_events is_save_best
                    (trace_of h (evaluate_body G loader m global_step epoch) w1) = []).
  { apply select_events_quiet.
    eapply calls_only_weaken; [|apply evaluate_body_observes].
    intros c [Hc _]; destruct c; try reflexivity; discriminate Hc. }
  assert (Hend : ends_with (trace_of h (evaluate_body G loader m global_step epoch) w1)
                           (Ev KeepAvgValues (Ok avg))).
  { subst w1; clear Hquiet Hsave Hexit; unfold evaluate_body in *; cbn [ret] in *.
    repeat (lazymatch type of Hbody with
            | outcome _ (bind _ _) _ = _ =>
                let T := fresh "T" in
                let a := fresh "a" in
                let Hq := fresh "Hq" in
                apply bind_ok_inv in Hbody; destruct Hbody as (a & Hq & Hbody & T);
                rewrite T; clear T Hq; apply ends_with_app
            end).
    called Hbody; exists []; reflexivity. }
  destruct Hend as [body Hbody'].
  rewrite Hbody' in *.
  exists body; split; [|split].
  - unfold w1 in Hbody'; cbn [ret] in Hbody' |- *; rewrite Hbody'.
    cbn [app]; rewrite <- ?app_assoc; reflexivity.
  - exact (select_prefix _ _ _ Hquiet).
  - exact (select_events_prefix _ _ _ Hsave).
Qed.

Lemma run_epoch_shape train_loader eval_loader m scheduler epoch s w s1 :
  outcome h (run_epoch G train_loader eval_loader m scheduler epoch s) w = Ok s1 ->
  epoch_events G m epoch (ep_best_loss s) (ep_best_loss s1)
    (trace_of h (run_epoch G train_loader eval_loader m scheduler epoch s) w).
Proof.
  intro Ho.
  destruct (run_epoch_returns _ _ _ _ _ _ _ _ _ Ho)
    as (tl & train_avg & eval_avg & target & _ & Htrain & Heval & Htarget & Ht).
  destruct (train_ends _ _ _ _ _ _ Htrain) as [tr Htr].
  destruct (evaluate_shape _ _ _ _ _ Heval) as (body & Hev & Hng & Hsb).
  pose proof (select_quiet h is_no_grad _ (at_train h w)
                (train_never_enters_no_grad tl m scheduler (ep_global_step s) epoch))
    as Hq1.
  pose proof (select_events_quiet h is_save_best _ (at_train h w)
                (train_never_saves_best G tl m scheduler (ep_global_step s) epoch))
    as Hq2.
  rewrite Htr in Hq1, Hq2.
  exists ([Ev (CLogger "print_epoch_start") (Ok tt)] ++ tr), train_avg, body, eval_avg,
    target, (ep_global_step s1).
  split; [|split; [|split; [exact Hng|split; [|split; [exact Hsb|exact Htarget]]]]].
  - rewrite Ht, Htr, Hev; cbn [app]; repeat rewrite <- app_assoc; reflexivity.
  - rewrite select_app, (select_prefix _ _ _ Hq1); reflexivity.
  - rewrite select_events_app, (select_events_prefix _ _ _ Hq2); reflexivity.
Qed.

Lemma epoch_loop_traces train_loader eval_loader m scheduler k n s w s' :
  outcome h (for_each (map Z.of_nat (seq k n))
               (run_epoch G train_loader eval_loader m scheduler) s) w = Ok s' ->
  epoch_traces G m (Z.of_nat k) (ep_best_loss s)
    (trace_of h (for_each (map Z.of_nat (seq k n))
                   (run_epoch G train_loader eval_loader m scheduler) s) w).
Proof.
  revert k s w; induction n as [|n IH]; intros k s w Ho.
  - apply epochs_done.
  - cbn [seq map for_each] in *.
    apply bind_ok_inv in Ho; destruct Ho as (s1 & Hfirst & Ho & T); rewrite T; clear T.
    eapply epochs_step; [apply run_epoch_shape; exact Hfirst|].
    replace (Z.of_nat k + 1) with (Z.of_nat (S k)) by lia.
    apply IH; exact Ho.
Qed.

End EpochShape.

Lemma epoch_traces_config G1 G2 m k b t :
  config G1 = config G2 -> epoch_traces G1 m k b t -> epoch_traces G2 m k b t.
Proof.
  intros Hc Ht; induction Ht as [k b|k b b' t rest Hev _ IH].
  - apply epochs_done.
  - apply epochs_step with (b' := b'); [|exact IH].
    destruct Hev as (tr & ta & ev & ea & target & gs & H1 & H2 & H3 & H4 & H5 & H6).
    exists tr, ta, ev, ea, target, gs; rewrite <- Hc; repeat split; assumption.
Qed.

(** A [main] that returned: its set-up, which selects no best model,
    then its epochs, starting from the baseline that the files read
    determine. *)
Lemma main_selects W (h : handler W) G w :
  outcome h (main G) w = Ok tt ->
  exists setup b0 m epochs_trace,
    trace_of h (main G) w = setup ++ epochs_trace /\
    select_events is_save_best setup = [] /\
    baseline G (select_events is_torch_load (trace_of h (main G) w)) b0 /\
    epoch_traces G m 0 b0 epochs_trace /\
    length (select_events is_save_best epochs_trace) = Z.to_nat (epochs (config G)).
Proof.
  intros Ho.
  destruct (@main_ok_inv W h G w Ho)
    as (mapping & G' & b & m & tld & eld & sched & s' & pre & w_r & mid & w_b & post
        & w_l & Ht & Hres & Hbest & Hloop & Hpre & Hmid & Hpost & _).
  destruct (no_selection_events _ Hpre) as [Hpre1 Hpre2].
  destruct (no_selection_events _ Hmid) as [Hmid1 Hmid2].
  destruct (no_selection_events _ Hpost) as [Hpost1 Hpost2].
  pose proof (restore_loads _ _ _ Hres) as Hrl.
  pose proof (initial_best_loss_loads _ _ _ Hbest) as Hbl.
  assert (Hcfg : config G' = config G).
  { change (restore_path (args (with_speaker_mapping G mapping)))
      with (restore_path (args G)) in Hrl.
    destruct (restore_path (args G)) as [[|c0 p0]|].
    - destruct Hrl as [-> _]; reflexivity.
    - destruct Hrl as (ckpt & -> & _); reflexivity.
    - destruct Hrl as [-> _]; reflexivity. }
  exists (pre ++ trace_of h (restore (with_speaker_mapping G mapping)) w_r
          ++ mid ++ trace_of h (initial_best_loss G') w_b ++ post), b, m.
  eexists; split; [|split; [|split; [|split]]].
  - rewrite Ht; repeat rewrite <- app_assoc; reflexivity.
  - repeat rewrite select_events_app.
    rewrite Hpre2, Hmid2, Hpost2.
    rewrite (select_events_quiet h is_save_best _ w_r
               (restore_never_saves_best (with_speaker_mapping G mapping))).
    rewrite (select_events_quiet h is_save_best _ w_b
               (initial_best_loss_never_saves_best G')).
    reflexivity.
  - rewrite Ht; repeat rewrite select_events_app.
    rewrite Hpre1, Hmid1, Hpost1.
    rewrite (select_events_quiet h is_torch_load _ w_l
               (epoch_loop_never_loads G' tld eld m sched _ _)).
    cbn [app]; rewrite app_nil_r.
    unfold baseline.
    change (restore_path (args (with_speaker_mapping G mapping)))
      with (restore_path (args G)) in Hrl.
    destruct (restore_path (args G)) as [[|c0 p0]|].
    + destruct Hrl as [HG' Hl]; rewrite Hl; cbn [app].
      assert (Hstep : restore_step (args G') = 0) by (rewrite HG'; reflexivity).
      rewrite Hstep in Hbl; cbn [Z.eqb orb] in Hbl.
      destruct Hbl as [Hb Hl2]; rewrite Hl2; auto.
    + destruct Hrl as (ckpt & HG' & Hl); rewrite Hl; exists ckpt.
      assert (Hstep : restore_step (args G') = ck_step ckpt) by (rewrite HG'; reflexivity).
      assert (Hbp : best_path (args G') = best_path (args G)) by (rewrite HG'; reflexivity).
      rewrite Hstep, Hbp in Hbl.
      destruct ((ck_step ckpt =? 0) || negb (truthy_str (best_path (args G))))%bool.
      * destruct Hbl as [Hb Hl2]; rewrite Hl2; auto.
      * destruct Hbl as (bp & best & Hpath & Hl2 & Hb).
        exists bp, best; rewrite Hl2; auto.
    + destruct Hrl as [HG' Hl]; rewrite Hl; cbn [app].
      assert (Hstep : restore_step (args G') = 0) by (rewrite HG'; reflexivity).
      rewrite Hstep in Hbl; cbn [Z.eqb orb] in Hbl.
      destruct Hbl as [Hb Hl2]; rewrite Hl2; auto.
  - unfold py_range in *.
    apply (@epoch_traces_config G' G m 0 b _ Hcfg).
    exact (@epoch_loop_traces W h G' tld eld m sched 0 _ _ w_l s' Hloop).
  - unfold py_range in *.
    exact (proj2 (@epoch_loop_chain W h G' tld eld m sched 0 _ _ w_l s' Hloop)).
Qed.

(** C9.  Whatever the collaborators do.  When the computation of the
    initial best loss returns, the value is [float("inf")] and no file
    was read if [args.restore_step] is 0 or [args.best_path] is empty or
    absent; otherwise it is the [model_loss] of the checkpoint read from
    [args.best_path].  In an epoch, every call of [save_best_model]
    comes after this epoch's [train] and [evaluate] have returned and is
    given, as target, the ["avg_loss"] entry of the averages [evaluate]
    returned when [config.run_eval] is set and of those [train] returned
    otherwise, together with the best loss carried from the previous
    epoch; and an epoch that returns has made exactly this call, as its
    last one, after the events of [train] and of [evaluate].  And a
    [main] that returns has run [config.epochs] such epochs, one after
    the other, after a set-up that selects no best model: the first one
    starts from the baseline, infinity unless a checkpoint with a
    non-zero step was restored and a best path is given, in which case
    it is the [model_loss] read from the best path; each later one from
    what [save_best_model] returned in the epoch before. *)
Theorem best_loss_baseline_and_target W (h : handler W) G :
  (forall w b,
     outcome h (initial_best_loss G) w = Ok b ->
     if ((restore_step (args G) =? 0) || negb (truthy_str (best_path (args G))))%bool
     then b = float_inf /\ select is_torch_load (trace_of h (initial_best_loss G) w) = []
     else exists path ckpt,
            best_path (args G) = Some path /\
            In (Ev (TorchLoad path) (Ok ckpt)) (trace_of h (initial_best_loss G) w) /\
            b = ck_model_loss ckpt) /\
  (forall train_loader eval_loader m scheduler epoch s w e target best m' gs ep,
     In e (trace_of h (run_epoch G train_loader eval_loader m scheduler epoch s) w) ->
     ev_call e = SaveBestModel target best m' gs ep ->
     exists tl train_avg eval_avg,
       train_loader = Some tl /\
       outcome h (train G tl m scheduler (ep_global_step s) epoch) (at_train h w)
       = Ok (train_avg, gs) /\
       outcome h (evaluate G eval_loader m gs epoch)
                 (at_evaluate h G tl m scheduler epoch s w)
       = Ok eval_avg /\
       dict_get (if run_eval (config G) then eval_avg else train_avg) "avg_loss"
       = Some target /\
       best = ep_best_loss s /\ m' = m /\ ep = epoch) /\
  (forall train_loader eval_loader m scheduler epoch s w s1,
     outcome h (run_epoch G train_loader eval_loader m scheduler epoch s) w = Ok s1 ->
     exists tl train_avg eval_avg target,
       train_loader = Some tl /\
       outcome h (train G tl m scheduler (ep_global_step s) epoch) (at_train h w)
       = Ok (train_avg, ep_global_step s1) /\
       outcome h (evaluate G eval_loader m (ep_global_step s1) epoch)
                 (at_evaluate h G tl m scheduler epoch s w)
       = Ok eval_avg /\
       dict_get (if run_eval (config G) then eval_avg else train_avg) "avg_loss"
       = Some target /\
       trace_of h (run_epoch G train_loader eval_loader m scheduler epoch s) w
       = [Ev (CLogger "print_epoch_start") (Ok tt)]
         ++ trace_of h (train G tl m scheduler (ep_global_step s) epoch) (at_train h w)
         ++ trace_of h (evaluate G eval_loader m (ep_global_step s1) epoch)
                     (at_evaluate h G tl m scheduler epoch s w)
         ++ [Ev (CLogger "print_epoch_end") (Ok tt);
             Ev (SaveBestModel target (ep_best_loss s) m (ep_global_step s1) epoch)
                (Ok (ep_best_loss s1))]) /\
  (forall w,
     outcome h (main G) w = Ok tt ->
     exists setup b0 m epochs_trace,
       trace_of h (main G) w = setup ++ epochs_trace /\
       select_events is_save_best setup = [] /\
       baseline G (select_events is_torch_load (trace_of h (main G) w)) b0 /\
       epoch_traces G m 0 b0 epochs_trace /\
       length (select_events is_save_best epochs_trace) = Z.to_nat (epochs (config G))).
Proof.
  split; [|split; [|split]].
  - intros w b; apply initial_best_loss_value.
  - intros; eapply run_epoch_target; eassumption.
  - intros; eapply run_epoch_returns; eassumption.
  - intros w Ho; exact (@main_selects W h G w Ho).
Qed.

(** C9 on a run that resumes from a checkpoint with a best model named:
    both files are read and the epochs start from the stored loss. *)
Lemma best_loss_baseline_and_target_witness :
  exists setup b0 m epochs_trace,
    trace_of (quiet [sample_batch]) (main resuming_globals) tt = setup ++ epochs_trace /\
    select_events is_save_best setup = [] /\
    baseline resuming_globals
      (select_events is_torch_load
         (trace_of (quiet [sample_batch]) (main resuming_globals) tt)) b0 /\
    epoch_traces resuming_globals m 0 b0 epochs_trace /\
    length (select_events is_save_best epochs_trace)
    = Z.to_nat (epochs (config resuming_globals)).
Proof.
  destruct (@best_loss_baseline_and_target unit (quiet [sample_batch]) resuming_globals)
    as (_ & _ & _ & Hmain).
  apply Hmain; vm_compute; reflexivity.
Defined.

(** ** Which files a run reads *)

Section Loads.
Variable W : Type.
Variable h : handler W.

Lemma select_events_bind f A B (p : prog A) (k : A -> prog B) w :
  select_events f (trace_of h (bind p k) w)
  = select_events f (trace_of h p w)
    ++ match outcome h p w with
       | Ok a => select_events f (trace_of h (k a) (world_after h p w))
       | Err _ => []
       end.
Proof.
  rewrite trace_bind; destruct (outcome h p w) as [a|e].
  - apply select_events_app.
  - rewrite app_nil_r; reflexivity.
Qed.

Lemma quiet_bind_any (Q : trace -> Prop) f A B (p : prog A) (k : A -> prog B) w :
  calls_only (fun c => f c = false) p ->
  Q [] ->
  (forall a w', Q (select_events f (trace_of h (k a) w'))) ->
  Q (select_events f (trace_of h (bind p k) w)).
Proof.
  intros Hp Hnil Hk.
  rewrite select_events_bind, (select_events_quiet h f p w Hp).
  destruct (outcome h p w) as [a|e]; [apply Hk | exact Hnil].
Qed.

Lemma restore_from_returns G ckpt w G' :
  outcome h (restore_from G ckpt) w = Ok G' -> G' = with_restore_step G (ck_step ckpt).
Proof.
  unfold restore_from; intro Ho.
  apply bind_ok_inv in Ho; destruct Ho as (_ & _ & Ho & _).
  apply bind_ok_inv in Ho; destruct Ho as (_ & _ & Ho & _).
  apply bind_ok_inv in Ho; destruct Ho as (_ & _ & Ho & _).
  unfold outcome in Ho; simpl in Ho; inversion Ho; reflexivity.
Qed.

Lemma restore_from_never_loads G ckpt :
  calls_only (fun c => is_torch_load c = false) (restore_from G ckpt).
Proof.
  unfold restore_from, load_states, full_load, partial_load; walk_calls; reflexivity.
Qed.

(** Rewrites the run of the call [c] in world [w] in the goal. *)
Ltac run_of_call_here c w :=
  let E1 := fresh "E" in
  let E2 := fresh "E" in
  let E3 := fresh "E" in
  pose proof (trace_call_ h c w) as E1;
  pose proof (outcome_call_ h c w) as E2;
  pose proof (world_call_ h c w) as E3;
  cbn [ret] in E1, E2, E3 |- *;
  rewrite ?E1, ?E2, ?E3; clear E1 E2 E3.

Lemma restore_loads_any G w :
  match restore_path (args G) with
  | Some (String _ _ as rp) =>
      (select_events is_torch_load (trace_of h (restore G) w) = [] /\
       is_ok (outcome h (restore G) w) = false) \/
      (exists r,
         select_events is_torch_load (trace_of h (restore G) w) = [Ev (TorchLoad rp) r] /\
         is_ok (outcome h (restore G) w) = false) \/
      (exists ckpt,
         select_events is_torch_load (trace_of h (restore G) w)
         = [Ev (TorchLoad rp) (Ok ckpt)] /\
         outcome h (restore G) w = Ok (with_restore_step G (ck_step ckpt)))
  | _ => select_events is_torch_load (trace_of h (restore G) w) = [] /\
         outcome h (restore G) w = Ok (with_restore_step G 0)
  end.
Proof.
  unfold restore.
  destruct (restore_path (args G)) as [[|c0 p0]|]; [split; reflexivity| |split; reflexivity].
  set (rp := String c0 p0).
  rewrite trace_bind, outcome_bind.
  run_of_call_here (Print [Str " > Restoring from "; Str (basename rp); Str " ..."]) w.
  destruct (h (Print [Str " > Restoring from "; Str (basename rp); Str " ..."]) w)
    as [w1 [[]|e1]]; cbn [fst snd]; [|left; split; reflexivity].
  rewrite trace_bind, outcome_bind.
  run_of_call_here (TorchLoad rp) w1.
  destruct (h (TorchLoad rp) w1) as [w2 [ckpt|e2]]; cbn [fst snd];
    [|right; left; eexists; split; reflexivity].
  repeat rewrite select_events_app.
  rewrite (select_events_quiet h is_torch_load _ w2 (restore_from_never_loads G ckpt)).
  destruct (outcome h (restore_from G ckpt) w2) as [G'|e3] eqn:Ho.
  - right; right; exists ckpt; split; [reflexivity|].
    rewrite (restore_from_returns _ _ _ Ho); reflexivity.
  - right; left; eexists; split; reflexivity.
Qed.

Lemma initial_best_loss_loads_any G w :
  if ((restore_step (args G) =? 0) || negb (truthy_str (best_path (args G))))%bool
  then calls_only (fun c => is_torch_load c = false) (initial_best_loss G)
  else exists bp,
         best_path (args G) = Some bp /\ truthy_str (Some bp) = true /\
         (select_events is_torch_load (trace_of h (initial_best_loss G) w) = [] /\
          is_ok (outcome h (initial_best_loss G) w) = false \/
          exists r,
            select_events is_torch_load (trace_of h (initial_best_loss G) w)
            = [Ev (TorchLoad bp) r]).
Proof.
  unfold initial_best_loss.
  destruct ((restore_step (args G) =? 0) || negb (truthy_str (best_path (args G))))%bool
    eqn:Hc.
  - walk_calls; reflexivity.
  - apply Bool.orb_false_elim in Hc; destruct Hc as [_ Hbp].
    apply Bool.negb_false_iff in Hbp.
    destruct (best_path (args G)) as [bp|]; [|discriminate Hbp].
    exists bp; split; [reflexivity|]; split; [exact Hbp|].
    rewrite trace_bind, outcome_bind.
    run_of_call_here (Print [Str " > Restoring best loss from "; Str (basename bp);
                             Str " ..."]) w.
    destruct (h (Print [Str " > Restoring best loss from "; Str (basename bp);
                        Str " ..."]) w) as [w1 [[]|e1]]; cbn [fst snd];
      [|left; split; reflexivity].
    right.
    rewrite trace_bind.
    run_of_call_here (TorchLoad bp) w1.
    destruct (h (TorchLoad bp) w1) as [w2 [ckpt|e2]]; cbn [fst snd];
      [|eexists; reflexivity].
    repeat rewrite select_events_app.
    match goal with
    | |- context [select_events is_torch_load (trace_of h ?p ?w0)] =>
        rewrite (select_events_quiet h is_torch_load p w0)
          by (walk_calls; reflexivity)
    end.
    eexists; reflexivity.
Qed.

End Loads.

Lemma data_depended_init_never_loads G loader m :
  calls_only (fun c => is_torch_load c = false) (data_depended_init G loader m).
Proof.
  eapply calls_only_weaken; [|apply data_depended_init_no_selection].
  intros c Hc; unfold is_selection_call in Hc.
  apply Bool.orb_false_elim in Hc; tauto.
Qed.

(** Walks the parts of a run that read no file, for a property [Q] of
    the files read that holds of none. *)
Ltac walk_quiet h Q HQ :=
  repeat (apply (@quiet_bind_any _ h Q is_torch_load);
          [ first [ apply epoch_loop_never_loads
                  | apply data_depended_init_never_loads
                  | assumption
                  | unfold setup_loader; walk_calls; reflexivity ]
          | exact HQ
          | intros ? ? ]);
  try exact HQ.

(** X11.  [main] reads the best-model file only after it has restored a
    checkpoint whose stored step is not 0: in every run, returning or
    not, the [torch.load] calls are none when no restore path is given,
    whatever [args.best_path] is; otherwise the restore path first and,
    after it, the best path at most once and only when the checkpoint
    read from the restore path has a non-zero step. *)
Theorem best_path_needs_restore W (h : handler W) G w :
  best_read_allowed G (select_events is_torch_load (trace_of h (main G) w)).
Proof.
  set (Q := best_read_allowed G).
  assert (HQ : Q []).
  { unfold Q, best_read_allowed; destruct (restore_path (args G)) as [[|? ?]|]; auto. }
  unfold main; cbv zeta.
  do 5 (apply (@quiet_bind_any _ h Q is_torch_load);
        [walk_calls; reflexivity | exact HQ | intros ? ?]).
  match goal with
  | sp : ret ParseSpeakers |- _ => destruct sp as [[num_speakers dim] mapping]
  end.
  cbv iota beta.
  do 3 (apply (@quiet_bind_any _ h Q is_torch_load);
        [walk_calls; reflexivity | exact HQ | intros ? ?]).
  rewrite select_events_bind.
  match goal with
  | |- context [trace_of h (restore ?G1) ?w0] =>
      pose proof (restore_loads_any h G1 w0) as Hr
  end.
  change (restore_path (args (with_speaker_mapping G mapping)))
    with (restore_path (args G)) in Hr.
  destruct (restore_path (args G)) as [[|c0 p0]|] eqn:Hpath.
  - destruct Hr as [Hl Ho]; rewrite Hl, Ho; cbn [app].
    assert (Hinit : calls_only (fun c => is_torch_load c = false)
                      (initial_best_loss
                         (with_restore_step (with_speaker_mapping G mapping) 0))).
    { unfold initial_best_loss.
      cbn [restore_step args with_restore_step Z.eqb orb].
      walk_calls; reflexivity. }
    walk_quiet h Q HQ.
  - destruct Hr as [[Hl Ho]|[(r & Hl & Ho)|(ckpt & Hl & Ho)]]; rewrite Hl.
    + destruct (outcome h (restore (with_speaker_mapping G mapping)) _);
        [discriminate Ho | exact HQ].
    + destruct (outcome h (restore (with_speaker_mapping G mapping)) _);
        [discriminate Ho|].
      rewrite app_nil_r; unfold Q, best_read_allowed; rewrite Hpath.
      right; left; exists r; reflexivity.
    + rewrite Ho.
      set (Q1 := fun l => Q ([Ev (TorchLoad (String c0 p0)) (Ok ckpt)] ++ l)).
      assert (HQ1 : Q1 []).
      { unfold Q1, Q, best_read_allowed; rewrite Hpath.
        right; left; eexists; reflexivity. }
      match goal with
      | |- Q (_ ++ ?l) => change (Q1 l)
      end.
      do 5 (apply (@quiet_bind_any _ h Q1 is_torch_load);
            [walk_calls; reflexivity | exact HQ1 | intros ? ?]).
      match goal with
      | |- context [trace_of h (bind (initial_best_loss ?G') _) ?w0] =>
          pose proof (initial_best_loss_loads_any h G' w0) as Hb
      end.
      cbn [restore_step best_path args with_restore_step with_speaker_mapping] in Hb.
      destruct ((ck_step ckpt =? 0) || negb (truthy_str (best_path (args G))))%bool
        eqn:Hcond.
      * walk_quiet h Q1 HQ1.
      * destruct Hb as (bp & Hbp & Htruthy & Hb).
        apply Bool.orb_false_elim in Hcond; destruct Hcond as [Hstep _].
        apply Z.eqb_neq in Hstep.
        rewrite select_events_bind.
        destruct Hb as [[Hl2 Ho2]|(r & Hl2)]; rewrite Hl2.
        { destruct (outcome h (initial_best_loss _) _); [discriminate Ho2 | exact HQ1]. }
        set (Q2 := fun l => Q1 ([Ev (TorchLoad bp) r] ++ l)).
        assert (HQ2 : Q2 []).
        { unfold Q2, Q1, Q, best_read_allowed; rewrite Hpath.
          right; right; exists ckpt, bp, r; auto. }
        destruct (outcome h (initial_best_loss _) _) as [b|e]; [|exact HQ2].
        match goal with
        | |- Q1 (_ ++ ?l) => change (Q2 l)
        end.
        walk_quiet h Q2 HQ2.
  - destruct Hr as [Hl Ho]; rewrite Hl, Ho; cbn [app].
    assert (Hinit : calls_only (fun c => is_torch_load c = false)
                      (initial_best_loss
                         (with_restore_step (with_speaker_mapping G mapping) 0))).
    { unfold initial_best_loss.
      cbn [restore_step args with_restore_step Z.eqb orb].
      walk_calls; reflexivity. }
    walk_quiet h Q HQ.
Qed.

(** X11 on a run that names a best model but nothing to restore. *)
Lemma best_path_needs_restore_witness :
  select_events is_torch_load (trace_of (quiet [sample_batch]) (main best_only_globals) tt)
  = [].
Proof.
  exact (@best_path_needs_restore unit (quiet [sample_batch]) best_only_globals tt).
Defined.

(** ** The checkpoints of [train] *)

Lemma no_select_in f t e :
  select f t = [] -> In e t -> f (ev_call e) = false.
Proof.
  unfold select, calls; induction t as [|x t IH]; intros Hs Hin; [destruct Hin|].
  simpl in Hs; destruct (f (ev_call x)) eqn:Hx; [discriminate|].
  destruct Hin as [->|Hin]; [exact Hx | apply IH; assumption].
Qed.

(** An event selected by [f] splits a trace in one way when nothing
    else around it is selected. *)
Lemma unique_split f A e0 B pre e post :
  select f A = [] -> select f B = [] ->
  f (ev_call e) = true ->
  A ++ e0 :: B = pre ++ e :: post ->
  pre = A /\ e = e0 /\ post = B.
Proof.
  intros HA HB He; revert pre; induction A as [|a A IH]; intros pre Heq.
  - destruct pre as [|x pre]; simpl in Heq.
    + injection Heq as He0 HB'; subst; auto.
    + injection Heq as Hx HB'; exfalso.
      assert (Hin : In e B) by (rewrite HB'; apply in_or_app; right; left; reflexivity).
      rewrite (no_select_in f B e HB Hin) in He; discriminate.
  - destruct pre as [|x pre]; simpl in Heq.
    + injection Heq as Ha _; exfalso.
      assert (Hin : In e (a :: A)) by (left; exact Ha).
      rewrite (no_select_in f (a :: A) e HA Hin) in He; discriminate.
    + injection Heq as Hx Hrest.
      assert (HA' : select f A = []).
      { unfold select, calls in *; simpl in HA.
        destruct (f (ev_call a)); [discriminate | exact HA]. }
      destruct (IH HA' pre Hrest) as (Hp & He0 & Hpost); subst; auto.
Qed.

Lemma no_split f t pre e post :
  select f t = [] -> f (ev_call e) = true -> t = pre ++ e :: post -> False.
Proof.
  intros Ht He Heq.
  assert (Hin : In e t) by (rewrite Heq; apply in_or_app; right; left; reflexivity).
  rewrite (no_select_in f t e Ht Hin) in He; discriminate.
Qed.

Lemma step_loss_after G t pre loss : step_loss G pre loss -> step_loss G (t ++ pre) loss.
Proof.
  intros (before & o & ml & tl & ld & after & x & Hpre & Hrest).
  exists (t ++ before), o, ml, tl, ld, after, x; split; [|exact Hrest].
  rewrite Hpre, app_assoc; reflexivity.
Qed.

Lemma checkpoint_at_quiet G m epoch first t :
  select is_save_checkpoint t = [] -> checkpoint_at G m epoch first t.
Proof.
  intros Ht pre m' gs ep loss r post Heq; exfalso.
  eapply (@no_split is_save_checkpoint); [exact Ht | | exact Heq]; reflexivity.
Qed.

Lemma checkpoint_at_app G m epoch first t1 t2 :
  checkpoint_at G m epoch first t1 ->
  checkpoint_at G m epoch (first + Z.of_nat (length (select is_zero_grad t1))) t2 ->
  checkpoint_at G m epoch first (t1 ++ t2).
Proof.
  intros H1 H2 pre m' gs ep loss r post Heq.
  apply app_eq_app in Heq; destruct Heq as (l & [[Ht1 Hl]|[Hpre Ht2]]).
  - destruct l as [|x l]; simpl in Hl.
    + rewrite app_nil_r in Ht1; subst t1.
      destruct (H2 [] m' gs ep loss r post (eq_sym Hl))
        as (Ha & Hb & Hc & Hd & He & Hf & Hg & Hh).
      repeat split; auto.
      * rewrite Hf; simpl; lia.
      * rewrite <- (app_nil_r pre); apply step_loss_after; exact Hh.
    + injection Hl as Hx Hpost; subst x post.
      exact (H1 pre m' gs ep loss r l Ht1).
  - destruct (H2 l m' gs ep loss r post Ht2) as (Ha & Hb & Hc & Hd & He & Hf & Hg & Hh).
    subst pre; repeat split; auto.
    + rewrite Hf, select_app, length_app; lia.
    + apply step_loss_after; exact Hh.
Qed.

Lemma dict_get_in V (d : dict V) k v : dict_get d k = Some v -> In k (dict_keys d).
Proof.
  unfold dict_keys; induction d as [|[k0 v0] d IH]; simpl; [discriminate|].
  destruct (String.eqb k0 k) eqn:Hk.
  - apply String.eqb_eq in Hk; auto.
  - intro H; right; apply IH; exact H.
Qed.

Lemma dict_keys_set_absent V (d : dict V) k v :
  dict_get d k = None -> dict_keys (dict_set d k v) = dict_keys d ++ [k].
Proof.
  unfold dict_keys; induction d as [|[k0 v0] d IH]; simpl; [reflexivity|].
  destruct (String.eqb k0 k) eqn:Hk; simpl; [discriminate|].
  intro H; rewrite IH; auto.
Qed.

Lemma dict_get_none_not_in V (d : dict V) k : dict_get d k = None -> ~ In k (dict_keys d).
Proof.
  unfold dict_keys; induction d as [|[k0 v0] d IH]; simpl; [tauto|].
  destruct (String.eqb k0 k) eqn:Hk; [discriminate|].
  apply String.eqb_neq in Hk; intros H [Heq|Hin]; [congruence | exact (IH H Hin)].
Qed.

Lemma dict_set_nodup V (d : dict V) k v :
  NoDup (dict_keys d) -> NoDup (dict_keys (dict_set d k v)).
Proof.
  intro Hd; destruct (dict_get d k) as [x|] eqn:Hk.
  - rewrite dict_keys_set_present by congruence; exact Hd.
  - rewrite dict_keys_set_absent by exact Hk.
    apply NoDup_app; [exact Hd | repeat constructor; simpl; tauto |].
    intros a Ha [<-|[]]; exact (dict_get_none_not_in _ _ Hk Ha).
Qed.

Lemma detach_into_get items :
  forall acc d,
    NoDup (dict_keys items) ->
    detach_into acc items = Ok d ->
    forall k v,
      dict_get d k = Some v ->
      (exists lv, dict_get items k = Some lv /\ detached lv v) \/
      (dict_get items k = None /\ dict_get acc k = Some v).
Proof.
  induction items as [|[key value] rest IH]; intros acc d Hnd Hd k v Hk.
  - simpl in Hd; inversion Hd; subst; right; auto.
  - simpl in Hd.
    destruct (match value with LFloat f => Ok f | LTensor t => item t end)
      as [x|e] eqn:Hx; simpl in Hd; [|discriminate].
    unfold dict_keys in Hnd; simpl in Hnd; inversion Hnd as [|? ? Hnotin Hnd']; subst.
    destruct (IH _ _ Hnd' Hd k v Hk) as [(lv & Hlv & Hdet)|[Hnone Hacc]].
    + left; exists lv; split; [|exact Hdet].
      simpl; destruct (String.eqb key k) eqn:Hkk; [|exact Hlv].
      apply String.eqb_eq in Hkk; subst key; exfalso.
      apply Hnotin; exact (dict_get_in _ _ Hlv).
    + simpl; destruct (String.eqb key k) eqn:Hkk.
      * apply String.eqb_eq in Hkk; subst key.
        rewrite dict_get_set_same in Hacc; inversion Hacc; subst x.
        left; exists value; split; [reflexivity|].
        destruct value; simpl; [exact Hx | inversion Hx; reflexivity].
      * apply String.eqb_neq in Hkk.
        rewrite dict_get_set_other in Hacc by exact Hkk.
        right; auto.
Qed.

Lemma detach_get d d' k v :
  NoDup (dict_keys d) ->
  detach d = Ok d' ->
  dict_get d' k = Some v ->
  exists lv, dict_get d k = Some lv /\ detached lv v.
Proof.
  intros Hnd Hd Hk.
  destruct (@detach_into_get d [] d' Hnd Hd k v Hk) as [H|[_ H]];
    [exact H | discriminate H].
Qed.

Section StepCheckpoint.
Variable W : Type.
Variable h : handler W.
Variables (G : Globals) (m : model).

Lemma aggregate_losses_returns d w d' :
  (num_gpus G >? 1) = true ->
  outcome h (aggregate_losses G d) w = Ok d' ->
  exists t1 t2 t3 r1 r2 r3,
    dict_get d "loss" = Some (LTensor t3) /\
    trace_of h (aggregate_losses G d) w
    = [Ev (ReduceTensor t1 (num_gpus G)) (Ok r1);
       Ev (ReduceTensor t2 (num_gpus G)) (Ok r2);
       Ev (ReduceTensor t3 (num_gpus G)) (Ok r3)] /\
    dict_get d' "loss" = Some (LTensor r3) /\
    dict_keys d' = dict_keys d.
Proof.
  intros Hg Ho; unfold aggregate_losses in *; rewrite Hg in *.
  apply bind_ok_inv in Ho; destruct Ho as (d1 & H1 & Ho & T1); rewrite T1; clear T1.
  apply bind_ok_inv in Ho; destruct Ho as (d2 & H2 & Ho & T2); rewrite T2; clear T2.
  apply reduce_entry_ok in H1; destruct H1 as (t1 & r1 & G1 & E1 & D1).
  apply reduce_entry_ok in H2; destruct H2 as (t2 & r2 & G2 & E2 & D2).
  apply reduce_entry_ok in Ho; destruct Ho as (t3 & r3 & G3 & E3 & D3).
  rewrite E1, E2, E3; subst d' d2 d1.
  rewrite dict_get_set_other in G2 by discriminate.
  rewrite !dict_get_set_other in G3 by discriminate.
  exists t1, t2, t3, r1, r2, r3; repeat split; auto.
  - apply dict_get_set_same.
  - rewrite !dict_keys_set_present; [reflexivity | congruence | |].
    + rewrite dict_get_set_other by discriminate; congruence.
    + rewrite !dict_get_set_other by discriminate; congruence.
Qed.

Lemma train_rank0_split gs epoch loss_dict v w :
  select is_save_checkpoint (trace_of h (train_rank0 G m gs epoch loss_dict v) w) = [] \/
  (rank (args G) = 0 /\ checkpoint (config G) = true /\
   save_step (config G) <> 0 /\ gs mod save_step (config G) = 0 /\
   exists tb loss r rest,
     trace_of h (train_rank0 G m gs epoch loss_dict v) w
     = tb ++ Ev (SaveCheckpoint m gs epoch loss) r :: rest /\
     dict_get loss_dict "loss" = Some loss /\
     select is_save_checkpoint tb = [] /\
     select is_zero_grad tb = [] /\
     select is_criterion tb = [] /\
     select_events is_reduce_tensor tb = [] /\
     select is_save_checkpoint rest = [] /\
     (is_ok (outcome h (train_rank0 G m gs epoch loss_dict v) w) = true -> is_ok r = true)).
Proof.
  unfold train_rank0; cbv zeta.
  destruct (rank (args G) =? 0) eqn:Hr; [|left; reflexivity].
  apply Z.eqb_eq in Hr.
  rewrite trace_bind, outcome_bind, trace_lift, outcome_lift, world_lift.
  destruct (py_mod gs (tb_plot_step (config G))) as [plot|e]; [|left; reflexivity].
  cbn [app].
  rewrite trace_bind, outcome_bind.
  set (tbp := when (plot =? 0) then call_ (TbLogger "tb_train_iter_stats" gs)).
  assert (Hq1 : select is_save_checkpoint (trace_of h tbp w) = [])
    by (apply select_quiet; unfold tbp; walk_calls; reflexivity).
  assert (Hq2 : select is_zero_grad (trace_of h tbp w) = [])
    by (apply select_quiet; unfold tbp; walk_calls; reflexivity).
  assert (Hq3 : select is_criterion (trace_of h tbp w) = [])
    by (apply select_quiet; unfold tbp; walk_calls; reflexivity).
  assert (Hq4 : select_events is_reduce_tensor (trace_of h tbp w) = [])
    by (apply select_events_quiet; unfold tbp; walk_calls; reflexivity).
  destruct (outcome h tbp w) as [[]|e]; [|left; exact Hq1].
  set (w1 := world_after h tbp w).
  rewrite trace_bind, outcome_bind, trace_lift, outcome_lift, world_lift.
  destruct (py_mod gs (save_step (config G))) as [save|e] eqn:Hsave;
    [|left; rewrite app_nil_r; exact Hq1].
  apply py_mod_ok in Hsave; destruct Hsave as [Hne Hmod].
  cbn [app].
  destruct (save =? 0) eqn:Hz;
    [|left; change (trace_of h (Ret tt) w1) with (@nil event);
      rewrite app_nil_r; exact Hq1].
  apply Z.eqb_eq in Hz.
  rewrite trace_bind, outcome_bind.
  match goal with
  | |- context [match outcome h ?p0 w1 with Ok _ => trace_of h ?p0 w1 ++ trace_of h ?k0 _
                                       | Err _ => _ end] =>
      set (rest_prog := k0);
      assert (Hrest : forall w0, select is_save_checkpoint (trace_of h rest_prog w0) = [])
        by (intro w0; apply select_quiet; unfold rest_prog, direct_pass;
            walk_calls; reflexivity)
  end.
  destruct (checkpoint (config G)) eqn:Hck.
  - rewrite trace_bind, outcome_bind, trace_lift, outcome_lift, world_lift.
    unfold dict_getitem.
    destruct (dict_get loss_dict "loss") as [loss|] eqn:Hloss;
      [|left; rewrite app_nil_r; exact Hq1].
    cbn [app].
    pose proof (trace_call_ h (SaveCheckpoint m gs epoch loss) w1) as E1.
    pose proof (outcome_call_ h (SaveCheckpoint m gs epoch loss) w1) as E2.
    pose proof (world_call_ h (SaveCheckpoint m gs epoch loss) w1) as E3.
    cbn [ret] in E1, E2, E3 |- *; rewrite E1, E2, ?E3; clear E1 E2 E3.
    right; split; [exact Hr|]; split; [reflexivity|]; split; [exact Hne|].
    split; [rewrite <- Hmod; exact Hz|].
    destruct (h (SaveCheckpoint m gs epoch loss) w1) as [w2 [[]|e]]; cbn [fst snd].
    + exists (trace_of h tbp w), loss, (Ok tt).
      eexists; split; [reflexivity|].
      split; [reflexivity|].
      do 4 (split; [assumption|]); split; [apply Hrest | reflexivity].
    + exists (trace_of h tbp w), loss, (Err e), [].
      split; [reflexivity|].
      split; [reflexivity|].
      do 4 (split; [assumption|]); split; [reflexivity|].
      change (outcome h (Ret tt) w1) with (@Ok unit tt); cbv iota; discriminate.
  - left; change (trace_of h (Ret tt) w1) with (@nil event).
    change (outcome h (Ret tt) w1) with (@Ok unit tt); cbv iota.
    cbn [app]; rewrite select_app, Hq1, Hrest; reflexivity.
Qed.

End StepCheckpoint.

Section StepCheckpointAt.
Variable W : Type.
Variable h : handler W.
Variables (G : Globals) (m : model) (scaler scheduler : option unit) (epoch : Z).

Ltac quiet_part :=
  first [ apply calls_only_call_; reflexivity
        | apply calls_only_lift
        | unfold with_autocast, optimize, aggregate_losses, reduce_entry;
          walk_calls; reflexivity ].

(** Closes [select f (T1 ++ ... ++ Tk) = []] when no part makes a call
    selected by [f]. *)
Ltac quiet_parts :=
  repeat rewrite select_app;
  repeat match goal with
         | T := trace_of _ _ _ |- _ => subst T
         end;
  repeat (rewrite select_quiet by quiet_part);
  reflexivity.

Ltac quiet_parts_events :=
  repeat rewrite select_events_app;
  repeat match goal with
         | T := trace_of _ _ _ |- _ => subst T
         end;
  repeat (rewrite select_events_quiet by quiet_part);
  reflexivity.

(** The next part of the step: its trace is named [T]; when it raises,
    the step ends there and has saved nothing. *)
Ltac part H T :=
  rewrite trace_bind;
  lazymatch goal with
  | |- context [match outcome h ?p ?w0 with Ok _ => _ | Err _ => _ end] =>
      set (T := trace_of h p w0) in *;
      destruct (outcome h p w0) eqn:H;
      [|apply checkpoint_at_quiet; quiet_parts]
  end.

Lemma step_forward_returns b ti tl mi ml am g w o ld :
  outcome h (with_autocast b
               (o <- call_ (Forward m ti tl mi ml am g) ;;
                loss_dict <- call_ (Criterion o ml tl) ;;
                (Ret (o, loss_dict) : prog (forward_out * dict lval)))) w
  = Ok (o, ld) ->
  trace_of h (with_autocast b
                (o <- call_ (Forward m ti tl mi ml am g) ;;
                 loss_dict <- call_ (Criterion o ml tl) ;;
                 (Ret (o, loss_dict) : prog (forward_out * dict lval)))) w
  = [Ev (AutocastEnter b) (Ok tt); Ev (Forward m ti tl mi ml am g) (Ok o);
     Ev (Criterion o ml tl) (Ok ld); Ev AutocastExit (Ok tt)].
Proof.
  unfold with_autocast; cbn [ret]; intro Ho.
  apply bind_ok_inv in Ho; destruct Ho as ([] & Henter & Ho & T7); rewrite T7; clear T7.
  rewrite trace_ensure.
  apply ensure_ok_inv in Ho; destruct Ho as [Hbody Hexit].
  apply bind_ok_inv in Hbody; destruct Hbody as (o' & Hfwd & Hbody & T8);
    rewrite T8; clear T8.
  apply bind_ok_inv in Hbody; destruct Hbody as (ld' & Hcrit & Hbody & T9);
    rewrite T9; clear T9.
  unfold outcome in Hbody; simpl in Hbody; inversion Hbody; subst o' ld'; clear Hbody.
  called Henter; called Hfwd; called Hcrit; called Hexit.
  unfold trace_of; simpl; reflexivity.
Qed.

Lemma train_step_checkpoint_at data s w :
  checkpoint_at G m epoch (ts_global_step s)
    (trace_of h (train_step G m scaler scheduler epoch data s) w).
Proof.
  unfold train_step; cbv zeta.
  part H1 T1. part H2 T2. part H3 T3. part H4 T4. part H5 T5.
  match goal with
  | fl : (forward_out * dict lval)%type |- _ => destruct fl as [o ld]
  end.
  part H6 T6. part H7 T7. part H8 T8. part H9 T9. part H10 T10. part H11 T11.
  part H12 T12. part H13 T13. part H14 T14.
  rewrite trace_bind.
  match goal with
  | |- context [match outcome h (train_rank0 G m ?gs epoch ?dd ?v) ?w0 with _ => _ end] =>
      pose proof (train_rank0_split h G m gs epoch dd v w0) as Hsplit;
      set (Tr := trace_of h (train_rank0 G m gs epoch dd v) w0) in *
  end.
  set (A := T1 ++ T2 ++ T3 ++ T4 ++ T5 ++ T6 ++ T7 ++ T8 ++ T9 ++ T10 ++ T11 ++ T12
            ++ T13 ++ T14).
  assert (Hgen : forall tail,
             select is_save_checkpoint tail = [] ->
             checkpoint_at G m epoch (ts_global_step s) (A ++ Tr ++ tail)).
  2:{ match goal with
      | |- context [match ?o with Ok _ => _ | Err _ => _ end] => destruct o
      end.
      - match goal with
        | |- checkpoint_at _ _ _ _ ?t =>
            match t with
            | context [Tr ++ ?tail] =>
                replace t with (A ++ Tr ++ tail)
                  by (unfold A; repeat rewrite <- app_assoc; reflexivity)
            end
        end.
        apply Hgen; apply select_quiet.
        apply calls_only_bind; [apply calls_only_call_; reflexivity | intro; exact I].
      - match goal with
        | |- checkpoint_at _ _ _ _ ?t =>
            replace t with (A ++ Tr ++ [])
              by (unfold A; repeat rewrite <- app_assoc; rewrite app_nil_r; reflexivity)
        end.
        apply Hgen; reflexivity. }
  intros tail Htl.
  assert (HA : select is_save_checkpoint A = []) by (unfold A; quiet_parts).
  destruct Hsplit as [Hnone|(Hrank & Hck & Hne & Hmod & tb & loss0 & r0 & rest & Htr & Hloss
                           & Hs1 & Hs2 & Hs3 & Hs4 & Hs5 & _)].
  { apply checkpoint_at_quiet; repeat rewrite select_app.
    rewrite HA, Hnone, Htl; reflexivity. }
  unfold checkpoint_at; intros pre m' gs ep loss r post Heq.
  rewrite Htr in Heq.
  replace (A ++ (tb ++ Ev (SaveCheckpoint m (ts_global_step s + 1) epoch loss0) r0 :: rest)
             ++ tail)
    with ((A ++ tb) ++ Ev (SaveCheckpoint m (ts_global_step s + 1) epoch loss0) r0
                       :: (rest ++ tail)) in Heq
    by (repeat rewrite <- app_assoc; reflexivity).
  apply unique_split with (f := is_save_checkpoint) in Heq;
    [|rewrite select_app, HA, Hs1; reflexivity
     |rewrite select_app, Hs5, Htl; reflexivity
     |reflexivity].
  destruct Heq as (Hpre & He & Hpost).
  apply (f_equal ev_call) in He; simpl in He.
  injection He as Hm Hgs Hep Hl; subst m' gs ep loss pre.
  split; [exact Hrank|]; split; [exact Hck|]; split; [exact Hne|].
  split; [reflexivity|]; split; [reflexivity|].
  pose proof (step_forward_returns _ _ _ _ _ _ _ _ H5) as HT5; fold T5 in HT5.
  assert (HT4 : T4 = [Ev ZeroGrad (Ok tt)]).
  { unfold T4.
    match goal with
    | a : ret ZeroGrad |- _ => destruct a
    end.
    called H4; reflexivity. }
  destruct (optimize_returns _ _ _ _ _ _ _ H6) as (t & scaled & Ht & _).
  split; [|split; [exact Hmod|]].
  - unfold A; repeat rewrite select_app; rewrite HT4, HT5, Hs2.
    clear HT4 HT5.
    repeat match goal with
           | T := trace_of _ _ _ |- _ => subst T
           end.
    repeat (rewrite select_quiet by quiet_part).
    simpl; lia.
  - match type of HT5 with
    | _ = [?e1; ?e2; Ev (Criterion ?o0 ?ml ?tl) _; ?e4] =>
        exists (T1 ++ T2 ++ T3 ++ T4 ++ [e1; e2]), o0, ml, tl, ld,
          ([e4] ++ T6 ++ T7 ++ T8 ++ T9 ++ T10 ++ T11 ++ T12 ++ T13 ++ T14 ++ tb), t
    end.
    split; [|split; [|split; [exact Ht|]]].
    + unfold A; rewrite HT5; repeat rewrite <- app_assoc; reflexivity.
    + repeat rewrite select_app; rewrite Hs3; clear HT4 HT5.
      repeat match goal with
             | T := trace_of _ _ _ |- _ => subst T
             end.
      repeat (rewrite select_quiet by quiet_part).
      reflexivity.
    + intro Hnd.
      rewrite outcome_lift in H11.
      match type of H10 with
      | outcome h (aggregate_losses G ?d0) _ = _ =>
          assert (Hd0 : dict_get d0 "loss" = Some (LTensor t))
            by (rewrite dict_get_set_other by discriminate; exact Ht);
          assert (Hnd0 : NoDup (dict_keys d0)) by (apply dict_set_nodup; exact Hnd)
      end.
      destruct (num_gpus G >? 1) eqn:Hg.
      * destruct (aggregate_losses_returns h G _ _ Hg H10)
          as (t1 & t2 & t3 & r1 & r2 & r3 & Hg3 & HT10 & Hr3 & Hkeys).
        fold T10 in HT10.
        rewrite Hd0 in Hg3; inversion Hg3; subst t3; clear Hg3.
        exists r3; split.
        -- repeat rewrite select_events_app; rewrite HT10, Hs4; clear HT4 HT5 HT10.
           repeat match goal with
                  | T := trace_of _ _ _ |- _ => subst T
                  end.
           repeat (rewrite select_events_quiet by quiet_part).
           exists [Ev (ReduceTensor t1 (num_gpus G)) (Ok r1);
                   Ev (ReduceTensor t2 (num_gpus G)) (Ok r2)]; reflexivity.
        -- rewrite <- Hkeys in Hnd0.
           destruct (detach_get _ _ Hnd0 H11 Hloss) as (lv & Hlv & Hdet).
           rewrite Hr3 in Hlv; inversion Hlv; subst lv; exact Hdet.
      * unfold aggregate_losses in H10; rewrite Hg in H10.
        unfold outcome in H10; simpl in H10; inversion H10; subst.
        destruct (detach_get _ _ Hnd0 H11 Hloss) as (lv & Hlv & Hdet).
        rewrite Hd0 in Hlv; inversion Hlv; subst lv; exact Hdet.
Qed.




End StepCheckpointAt.

Section TrainCheckpoints.
Variable W : Type.
Variable h : handler W.
Variables (G : Globals) (m : model).

Lemma train_loop_checkpoint_at scaler scheduler epoch batches s w :
  checkpoint_at G m epoch (ts_global_step s)
    (trace_of h (for_each batches (train_step G m scaler scheduler epoch) s) w).
Proof.
  revert s w; induction batches as [|data rest IH]; intros s w.
  - apply checkpoint_at_quiet; reflexivity.
  - cbn [for_each]; rewrite trace_bind.
    pose proof (train_step_checkpoint_at h G m scaler scheduler epoch data s w) as Hstep.
    destruct (outcome h (train_step G m scaler scheduler epoch data s) w) as [s1|e] eqn:Ho;
      [|exact Hstep].
    apply checkpoint_at_app; [exact Hstep|].
    pose proof (@returns_only_outcome W h _ _ _ w s1
                  (train_step_increments G m scaler scheduler epoch data s) Ho) as Hinc.
    rewrite (@train_step_zero_grad W h G m scaler scheduler epoch data s w s1 Ho);
      simpl length.
    cbv beta in Hinc.
    replace (ts_global_step s + Z.of_nat 1) with (ts_global_step s1) by lia.
    apply IH.
Qed.

Lemma checkpoint_at_bind_quiet epoch first A B (p : prog A) (k : A -> prog B) w :
  calls_only (fun c => is_save_checkpoint c = false) p ->
  calls_only (fun c => is_zero_grad c = false) p ->
  (forall a w', checkpoint_at G m epoch first (trace_of h (k a) w')) ->
  checkpoint_at G m epoch first (trace_of h (bind p k) w).
Proof.
  intros Hs Hz Hk; rewrite trace_bind.
  pose proof (select_quiet h is_save_checkpoint p w Hs) as Hq.
  destruct (outcome h p w) as [a|e]; [|apply checkpoint_at_quiet; exact Hq].
  apply checkpoint_at_app; [apply checkpoint_at_quiet; exact Hq|].
  rewrite (select_quiet h is_zero_grad p w Hz); simpl length.
  replace (first + Z.of_nat 0) with first by lia.
  apply Hk.
Qed.

Lemma checkpoint_at_then_quiet epoch first A B (p : prog A) (k : A -> prog B) w :
  checkpoint_at G m epoch first (trace_of h p w) ->
  (forall a, calls_only (fun c => is_save_checkpoint c = false) (k a)) ->
  checkpoint_at G m epoch first (trace_of h (bind p k) w).
Proof.
  intros Hp Hk; rewrite trace_bind.
  destruct (outcome h p w) as [a|e]; [|exact Hp].
  apply checkpoint_at_app; [exact Hp|].
  apply checkpoint_at_quiet, select_quiet, Hk.
Qed.

Lemma train_checkpoint_at loader scheduler global_step epoch w :
  checkpoint_at G m epoch global_step
    (trace_of h (train G loader m scheduler global_step epoch) w).
Proof.
  unfold train; cbv zeta.
  do 7 (apply checkpoint_at_bind_quiet;
        [walk_calls; reflexivity | walk_calls; reflexivity | intros ? ?]).
  apply checkpoint_at_then_quiet.
  - apply (train_loop_checkpoint_at _ scheduler epoch _
             (mkTrainState global_step (Fin 0) _)).
  - intro s1; walk_calls; reflexivity.
Qed.

Lemma train_rank0_saves gs epoch loss_dict v w :
  outcome h (train_rank0 G m gs epoch loss_dict v) w = Ok tt ->
  rank (args G) = 0 ->
  checkpoint (config G) = true ->
  gs mod save_step (config G) = 0 ->
  exists loss,
    In (Ev (SaveCheckpoint m gs epoch loss) (Ok tt))
       (trace_of h (train_rank0 G m gs epoch loss_dict v) w).
Proof.
  unfold train_rank0; cbv zeta; intros Ho Hr Hck Hmod.
  rewrite Hr in *; cbn [Z.eqb] in *; rewrite Hck in *; cbn [ret] in *.
  apply bind_ok_inv in Ho; destruct Ho as (plot & Hplot & Ho & T1); rewrite T1; clear T1.
  apply bind_ok_inv in Ho; destruct Ho as ([] & Htb & Ho & T2); rewrite T2; clear T2.
  apply bind_ok_inv in Ho; destruct Ho as (save & Hsave & Ho & T3); rewrite T3; clear T3.
  rewrite outcome_lift in Hsave; apply py_mod_ok in Hsave; destruct Hsave as [_ Hsave].
  rewrite Hmod in Hsave; subst save; cbn [Z.eqb] in *.
  apply bind_ok_inv in Ho; destruct Ho as ([] & Hck' & Ho & T4); rewrite T4; clear T4.
  apply bind_ok_inv in Hck'; destruct Hck' as (loss & Hloss & Hcall & T5); rewrite T5; clear T5.
  exists loss; cbn [ret] in *.
  called Hcall; in_app.
Qed.

Lemma train_step_saves scaler scheduler epoch data s w s' :
  outcome h (train_step G m scaler scheduler epoch data s) w = Ok s' ->
  rank (args G) = 0 ->
  checkpoint (config G) = true ->
  (ts_global_step s + 1) mod save_step (config G) = 0 ->
  exists loss,
    In (Ev (SaveCheckpoint m (ts_global_step s + 1) epoch loss) (Ok tt))
       (trace_of h (train_step G m scaler scheduler epoch data s) w).
Proof.
  unfold train_step; cbv zeta; cbn [ret]; intros Ho Hr Hck Hmod.
  repeat (lazymatch type of Ho with
          | outcome _ (bind (train_rank0 _ _ _ _ _ _) _) _ = _ => fail
          | outcome _ (let '(_, _) := ?p in _) _ = _ => destruct p
          | outcome _ (bind _ _) _ = _ =>
              let T := fresh "T" in
              let a := fresh "a" in
              let Hq := fresh "Hq" in
              apply bind_ok_inv in Ho; destruct Ho as (a & Hq & Ho & T);
              rewrite T; clear T Hq
          end).
  apply bind_ok_inv in Ho; destruct Ho as ([] & Hrank0 & Ho & T); rewrite T; clear T.
  destruct (train_rank0_saves _ _ _ _ _ Hrank0 Hr Hck Hmod) as (loss & Hin).
  exists loss; in_app.
Qed.

Lemma train_loop_saves scaler scheduler epoch batches s w s' :
  outcome h (for_each batches (train_step G m scaler scheduler epoch) s) w = Ok s' ->
  rank (args G) = 0 ->
  checkpoint (config G) = true ->
  forall k,
    ts_global_step s < k <= ts_global_step s' ->
    k mod save_step (config G) = 0 ->
    exists loss,
      In (Ev (SaveCheckpoint m k epoch loss) (Ok tt))
         (trace_of h (for_each batches (train_step G m scaler scheduler epoch) s) w).
Proof.
  intros Ho Hr Hck; revert s w Ho; induction batches as [|data rest IH];
    intros s w Ho k Hk Hmod.
  - unfold outcome in Ho; simpl in Ho; inversion Ho; subst; lia.
  - cbn [for_each] in *.
    apply bind_ok_inv in Ho; destruct Ho as (s1 & Hstep & Ho & T); rewrite T; clear T.
    pose proof (@returns_only_outcome W h _ _ _ w s1
                  (train_step_increments G m scaler scheduler epoch data s) Hstep) as Hinc.
    cbv beta in Hinc.
    destruct (Z.eq_dec k (ts_global_step s + 1)) as [->|Hne].
    + destruct (train_step_saves _ _ _ _ _ _ Hstep Hr Hck Hmod) as (loss & Hin).
      exists loss; in_app.
    + destruct (IH _ _ Ho k) as (loss & Hin); [lia | exact Hmod|].
      exists loss; in_app.
Qed.

Lemma train_saves loader scheduler global_step epoch w avg gs' :
  outcome h (train G loader m scheduler global_step epoch) w = Ok (avg, gs') ->
  rank (args G) = 0 ->
  checkpoint (config G) = true ->
  forall k,
    global_step < k <= gs' ->
    k mod save_step (config G) = 0 ->
    exists loss,
      In (Ev (SaveCheckpoint m k epoch loss) (Ok tt))
         (trace_of h (train G loader m scheduler global_step epoch) w).
Proof.
  unfold train; cbv zeta; cbn [ret]; intros Ho Hr Hck k Hk Hmod.
  repeat (lazymatch type of Ho with
          | outcome _ (bind (for_each _ _ _) _) _ = _ => fail
          | outcome _ (bind _ _) _ = _ =>
              let T := fresh "T" in
              let a := fresh "a" in
              let Hq := fresh "Hq" in
              apply bind_ok_inv in Ho; destruct Ho as (a & Hq & Ho & T);
              rewrite T; clear T Hq
          end).
  apply bind_ok_inv in Ho; destruct Ho as (s1 & Hloop & Ho & T); rewrite T; clear T.
  assert (Hgs : gs' = ts_global_step s1).
  { repeat (lazymatch type of Ho with
            | outcome _ (bind _ _) _ = _ =>
                let T := fresh "T" in
                let a := fresh "a" in
                let Hq := fresh "Hq" in
                apply bind_ok_inv in Ho; destruct Ho as (a & Hq & Ho & T); clear T Hq
            end).
    unfold outcome in Ho; simpl in Ho; inversion Ho; reflexivity. }
  subst gs'.
  simpl ts_global_step in *.
  destruct (@train_loop_saves _ _ _ _ _ _ _ Hloop Hr Hck k Hk Hmod) as (loss & Hin).
  exists loss; in_app.
Qed.

End TrainCheckpoints.

(** X9.  The checkpoints of [train], whatever the collaborators do.
    Every [save_checkpoint] call is made on rank 0, with
    [config.checkpoint] set, for the model and the epoch [train] was
    given; the step number it passes is the number of the step it is
    made in (the step [train] started from plus the number of
    [optimizer.zero_grad()] calls made so far), and a multiple of
    [config.save_step]; the loss it passes is that of this step: the
    [item()] of the ["loss"] tensor the step's criterion call returned,
    taken after [reduce_tensor] when [num_gpus > 1].  And a [train] that
    returns on rank 0 with [config.checkpoint] set has saved a checkpoint
    at every step whose number is a multiple of [config.save_step]. *)
Theorem checkpoints_only_at_save_steps W (h : handler W) G loader m scheduler
        global_step epoch w :
  checkpoint_at G m epoch global_step
    (trace_of h (train G loader m scheduler global_step epoch) w) /\
  (forall avg gs' k,
     outcome h (train G loader m scheduler global_step epoch) w = Ok (avg, gs') ->
     rank (args G) = 0 ->
     checkpoint (config G) = true ->
     global_step < k <= gs' ->
     k mod save_step (config G) = 0 ->
     exists loss,
       In (Ev (SaveCheckpoint m k epoch loss) (Ok tt))
          (trace_of h (train G loader m scheduler global_step epoch) w)).
Proof.
  split.
  - apply train_checkpoint_at.
  - intros avg gs' k Ho Hr Hck Hk Hmod.
    exact (@train_saves W h G m loader scheduler global_step epoch w avg gs' Ho Hr Hck
             k Hk Hmod).
Qed.

(** X9 on a run over one batch with [save_step = 1]: the checkpoint of
    step 1 is saved. *)
Lemma checkpoints_only_at_save_steps_witness :
  exists loss,
    In (Ev (SaveCheckpoint (Plain sample_network) 1 0 loss) (Ok tt))
       (trace_of (quiet [sample_batch])
          (train sample_globals sample_loader (Plain sample_network) (Some tt) 0 0) tt).
Proof.
  destruct (@checkpoints_only_at_save_steps unit (quiet [sample_batch]) sample_globals
              sample_loader (Plain sample_network) (Some tt) 0 0 tt) as [_ Hsaves].
  apply (Hsaves [("avg_loss", Fin 3)] 1 1); try reflexivity.
  lia.
Defined.
